(** * The ACL v1.1.0 compressed-clip codec of [unreal/acl.py]

    A shallow embedding of [CompressedClip.read] / [CompressedClip.write]
    and of the classes they use ([ClipHeader], [SegmentHeader], [RangeData],
    [BoneTrack]), followed by the properties of the codec.

    Conventions.
    - A Python [int] is a [Z]; a byte is a [Z] in [0, 256); a [bytes] object
      and the content of the file are [list Z].
    - A Python [str] is a [list ascii].
    - A Python [float] is an IEEE-754 binary64 number: a [spec_float] handled
      with the operations of [SpecFloat] at precision 53 and [emax] 1024.
    - The file object [f] is a cursor over the bytes of the file.  Code that
      reads from it is a term of the type [reader], whose nodes are the calls
      [f.read(n)] and [f.tell()], the padding check
      [io.check(f.read(n), b'\xcd' * n)] and [raise]; [run] executes such a
      term on the bytes of a file, from a position.
    - An exception is a value of [pyerror]; [run] reports it with the
      position of the cursor at the time it was raised. *)

From Stdlib Require Import String Ascii.
From Stdlib Require Import ZArith List Bool Lia.
From Stdlib Require Import SpecFloat.
From Stdlib Require DecimalString.
Import ListNotations.

Local Open Scope Z_scope.

(* ================================================================== *)
(** * Python values and built-ins *)
(* ================================================================== *)

(** The exceptions the decoder can raise. *)
Inductive pyerror : Type :=
| RuntimeError (msg : string)      (* [raise RuntimeError(...)] in [read] *)
| CheckError (msg : string)        (* raised by [io.check] *)
| IndexError                       (* list index out of range *)
| NameError (var : string)         (* a local read before it is assigned *)
| ValueError                       (* [int('', 2)], [list.index] *)
| StructError                      (* a fixed-width read that came short *)
| OverflowError                    (* [to_bytes], [struct.pack] *)
| ZeroDivisionError.

Inductive result (A : Type) : Type :=
| Ok (a : A)
| Err (e : pyerror).
Arguments Ok {A} a.
Arguments Err {A} e.

Definition rbind {A B} (r : result A) (f : A -> result B) : result B :=
  match r with
  | Ok a => f a
  | Err e => Err e
  end.

Declare Scope result_scope.
Delimit Scope result_scope with res.
Notation "x <-- r ;; k" := (rbind r (fun x => k))
  (at level 61, r at next level, right associativity) : result_scope.

(** [rmap f l]: a list comprehension whose body can raise. *)
Fixpoint rmap {A B} (f : A -> result B) (l : list A) : result (list B) :=
  match l with
  | [] => Ok []
  | a :: l' =>
      match f a with
      | Err e => Err e
      | Ok b =>
          match rmap f l' with
          | Err e => Err e
          | Ok bs => Ok (b :: bs)
          end
      end
  end.

Definition len {A} (l : list A) : Z := Z.of_nat (length l).

(** [range(n)] *)
Definition range (n : Z) : list Z := map Z.of_nat (seq 0 (Z.to_nat n)).

(** [l[i]] for a non-negative index. *)
Definition index {A} (l : list A) (i : Z) : result A :=
  if i <? 0 then Err IndexError
  else match nth_error l (Z.to_nat i) with
       | Some a => Ok a
       | None => Err IndexError
       end.

(** The bound of a slice, as Python normalises it: a negative bound counts
    from the end, and every bound is clamped to the list. *)
Definition slice_bound (n i : Z) : Z :=
  if i <? 0 then Z.max 0 (i + n) else Z.min i n.

(** [l[i:j]] *)
Definition slice {A} (l : list A) (i j : Z) : list A :=
  let a := slice_bound (len l) i in
  let b := slice_bound (len l) j in
  firstn (Z.to_nat (b - a)) (skipn (Z.to_nat a) l).

(** [sum(l)] *)
Definition sum (l : list Z) : Z := fold_left Z.add l 0.

(** [sum(ll, [])] *)
Definition sum_lists {A} (ll : list (list A)) : list A :=
  fold_left (fun acc l => acc ++ l) ll [].

(** [l * n] for a list [l] *)
Fixpoint list_mul_nat {A} (l : list A) (n : nat) : list A :=
  match n with
  | O => []
  | S n' => l ++ list_mul_nat l n'
  end.
Definition list_mul {A} (l : list A) (n : Z) : list A :=
  list_mul_nat l (Z.to_nat n).

(** [l[i] += x] on a list of lists. *)
Fixpoint extend_at {A} (l : list (list A)) (i : nat) (x : list A)
  : list (list A) :=
  match l, i with
  | [], _ => []
  | a :: l', O => (a ++ x) :: l'
  | a :: l', S i' => a :: extend_at l' i' x
  end.

(** ** Binary text *)

Definition pystr := list ascii.

Definition bit_char (b : bool) : ascii := if b then "1"%char else "0"%char.

(** The binary digits of a positive number, most significant first. *)
Fixpoint pos_bits (p : positive) (acc : pystr) : pystr :=
  match p with
  | xH => "1"%char :: acc
  | xO q => pos_bits q ("0"%char :: acc)
  | xI q => pos_bits q ("1"%char :: acc)
  end.

(** [format(i, "b")] *)
Definition format_b (i : Z) : pystr :=
  match i with
  | Z0 => ["0"%char]
  | Zpos p => pos_bits p []
  | Zneg p => "-"%char :: pos_bits p []
  end.

(** [s.zfill(width)]: zeros are inserted after a leading sign. *)
Definition zfill (s : pystr) (width : nat) : pystr :=
  let pad := repeat "0"%char (width - length s) in
  match s with
  | c :: s' =>
      if (Ascii.eqb c "-" || Ascii.eqb c "+")%bool then c :: pad ++ s'
      else pad ++ s
  | [] => pad
  end.

(** [int(s, 2)] on a text of binary digits; the empty text is a
    [ValueError].  The decoder only applies it to slices of a text made by
    [format_b] and [zfill] from bytes. *)
Fixpoint int2_digits (s : pystr) (acc : Z) : result Z :=
  match s with
  | [] => Ok acc
  | c :: s' =>
      if Ascii.eqb c "0" then int2_digits s' (2 * acc)
      else if Ascii.eqb c "1" then int2_digits s' (2 * acc + 1)
      else Err ValueError
  end.

Definition int2 (s : pystr) : result Z :=
  match s with
  | [] => Err ValueError
  | _ => int2_digits s 0
  end.

(** ** Bytes and fixed-width integers *)

(** [int.from_bytes(bs, 'little')] *)
Fixpoint le_combine (bs : list Z) : Z :=
  match bs with
  | [] => 0
  | b :: bs' => b + 256 * le_combine bs'
  end.

(** [i.to_bytes(n, 'little')] without the range check. *)
Fixpoint le_split (n : nat) (i : Z) : list Z :=
  match n with
  | O => []
  | S n' => (i mod 256) :: le_split n' (i / 256)
  end.

(** [i.to_bytes(n, byteorder='big')] *)
Definition to_bytes_big (n : nat) (i : Z) : result (list Z) :=
  if (i <? 0) || (2 ^ (8 * Z.of_nat n) <=? i) then Err OverflowError
  else Ok (rev (le_split n i)).

(** The value of a [c_int32] field whose four bytes are [u]. *)
Definition to_signed32 (u : Z) : Z :=
  if u <? 2 ^ 31 then u else u - 2 ^ 32.

Definition of_signed32 (i : Z) : Z := i mod 2 ^ 32.

(** [l] cut in consecutive pieces of [n] elements ([fuel] pieces at most). *)
Fixpoint chunks {A} (n : nat) (fuel : nat) (l : list A) : list (list A) :=
  match fuel with
  | O => []
  | S fuel' => firstn n l :: chunks n fuel' (skipn n l)
  end.

Fixpoint list_eqb (l1 l2 : list Z) : bool :=
  match l1, l2 with
  | [], [] => true
  | a :: l1', b :: l2' => (a =? b) && list_eqb l1' l2'
  | _, _ => false
  end.

(** ** Floats *)

Definition float := spec_float.

Definition fmul : float -> float -> float := SFmul 53 1024.
Definition fadd : float -> float -> float := SFadd 53 1024.

(** [float(i)] for an integer below [2 ^ 53] in absolute value. *)
Definition float_of_int (i : Z) : float := binary_normalize 53 1024 i 0 false.

(** [i / j] on integers: the quotient correctly rounded, which for
    operands below [2 ^ 53] is the quotient of their conversions. *)
Definition int_truediv (i j : Z) : result float :=
  if j =? 0 then Err ZeroDivisionError
  else Ok (SFdiv 53 1024 (float_of_int i) (float_of_int j)).

(** The binary32 number whose bit pattern is [w], as a Python float:
    [struct.unpack('<f', ...)] after the bytes are combined.  A binary32
    value converts to binary64 without rounding. *)
Definition f32_of_bits (w : Z) : float :=
  let s := Z.testbit w 31 in
  let e := Z.land (Z.shiftr w 23) 255 in
  let m := Z.land w (2 ^ 23 - 1) in
  if e =? 255 then
    (if m =? 0 then S754_infinity s else S754_nan)
  else
    let mant := if e =? 0 then m else m + 2 ^ 23 in
    let ex := if e =? 0 then -149 else e - 150 in
    binary_normalize 53 1024 (if s then - mant else mant) ex s.

Definition sign_bit (s : bool) : Z := if s then 2 ^ 31 else 0.

(** [struct.pack('<f', x)] as a bit pattern: [x] rounded to binary32, an
    [OverflowError] when a finite [x] is out of the range of binary32.
    The pattern of a NaN is the quiet NaN with no payload. *)
Definition bits_of_f32 (x : float) : result Z :=
  match x with
  | S754_zero s => Ok (sign_bit s)
  | S754_infinity s => Ok (sign_bit s + 255 * 2 ^ 23)
  | S754_nan => Ok (255 * 2 ^ 23 + 2 ^ 22)
  | S754_finite s m e =>
      match binary_round 24 128 s m e with
      | S754_finite s' m' e' => Ok (sign_bit s' + (e' + 149) * 2 ^ 23 + Zpos m')
      | S754_zero s' => Ok (sign_bit s')
      | S754_infinity _ => Err OverflowError
      | S754_nan => Ok (255 * 2 ^ 23 + 2 ^ 22)
      end
  end.

(** [math.ceil(n / 8)] for a non-negative integer [n].  The true division
    rounds [n] to the 53 bits of a float (to nearest, ties to even) before
    the exact division by 8; below [2 ^ 53] nothing is rounded. *)
Definition round53 (n : Z) : Z :=
  if n <? 2 ^ 53 then n
  else
    let k := Z.log2 n - 52 in
    let q := Z.shiftr n k in
    let r := n - Z.shiftl q k in
    let half := 2 ^ (k - 1) in
    let q' := if (half <? r) || ((half =? r) && Z.odd q) then q + 1 else q in
    Z.shiftl q' k.

Definition ceil_div8 (n : Z) : Z := (round53 n + 7) / 8.

(* ================================================================== *)
(** * The file cursor *)
(* ================================================================== *)

(** Code that reads from the file object [f]. *)
Inductive reader (A : Type) : Type :=
| Ret (a : A)                                  (* return a *)
| Raise (e : pyerror)                          (* raise e *)
| Tell (k : Z -> reader A)                     (* pos = f.tell(); k pos *)
| Read (n : Z) (k : list Z -> reader A)        (* bs = f.read(n); k bs *)
| Padding (n : Z) (k : reader A).
        (* io.check(f.read(n), b'\xcd' * n), then k *)
Arguments Ret {A} a.
Arguments Raise {A} e.
Arguments Tell {A} k.
Arguments Read {A} n k.
Arguments Padding {A} n k.

Fixpoint bind {A B} (p : reader A) (f : A -> reader B) : reader B :=
  match p with
  | Ret a => f a
  | Raise e => Raise e
  | Tell k => Tell (fun pos => bind (k pos) f)
  | Read n k => Read n (fun bs => bind (k bs) f)
  | Padding n k => Padding n (bind k f)
  end.

Declare Scope reader_scope.
Delimit Scope reader_scope with reader.
Notation "x <- p ;; k" := (bind p (fun x => k))
  (at level 61, p at next level, right associativity) : reader_scope.
Notation "p ;; k" := (bind p (fun _ => k))
  (at level 61, right associativity) : reader_scope.
Local Open Scope reader_scope.

(** A pure computation that can raise, inside file-reading code. *)
Definition lift {A} (r : result A) : reader A :=
  match r with
  | Ok a => Ret a
  | Err e => Raise e
  end.

(** The sentinel byte of every padding run. *)
Definition PAD_BYTE : Z := 205.

(** [f.read(n)] at position [pos] of a file whose content is [data]: at
    most [n] bytes, everything to the end of the file when [n] is negative. *)
Definition f_read (data : list Z) (pos n : Z) : list Z :=
  let rest := skipn (Z.to_nat pos) data in
  if n <? 0 then rest else firstn (Z.to_nat n) rest.

(** How a call ends: it returns a value or raises, and leaves the cursor
    at [pos]. *)
Inductive outcome (A : Type) : Type :=
| Returned (a : A) (pos : Z)
| Raised (e : pyerror) (pos : Z).
Arguments Returned {A} a pos.
Arguments Raised {A} e pos.

(** Modelled from the spec: [io.check] (util/io_util.py is not among the
    sources) compares its two arguments and raises when they differ; the
    error carries the message the caller passed, if any. *)
Definition check_failed (msg : option string) : pyerror :=
  CheckError (match msg with Some m => m | None => EmptyString end).

Fixpoint run {A} (p : reader A) (data : list Z) (pos : Z) : outcome A :=
  match p with
  | Ret a => Returned a pos
  | Raise e => Raised e pos
  | Tell k => run (k pos) data pos
  | Read n k =>
      let bs := f_read data pos n in
      run (k bs) data (pos + len bs)
  | Padding n k =>
      let bs := f_read data pos n in
      if list_eqb bs (repeat PAD_BYTE (Z.to_nat n))
      then run k data (pos + len bs)
      else Raised (check_failed None) (pos + len bs)
  end.

(** The padding runs a call consumes, each as (first position, length),
    in the order they are read. *)
Fixpoint padding_runs {A} (p : reader A) (data : list Z) (pos : Z)
  : list (Z * Z) :=
  match p with
  | Ret _ => []
  | Raise _ => []
  | Tell k => padding_runs (k pos) data pos
  | Read n k =>
      let bs := f_read data pos n in
      padding_runs (k bs) data (pos + len bs)
  | Padding n k =>
      let bs := f_read data pos n in
      if list_eqb bs (repeat PAD_BYTE (Z.to_nat n))
      then (pos, n) :: padding_runs k data (pos + len bs)
      else []
  end.

(** Code with no padding check in it. *)
Fixpoint no_padding {A} (p : reader A) : Prop :=
  match p with
  | Ret _ => True
  | Raise _ => True
  | Tell k => forall pos, no_padding (k pos)
  | Read _ k => forall bs, no_padding (k bs)
  | Padding _ _ => False
  end.

(** ** The readers of [io_util] *)

(** Modelled from the spec: [io.check(actual, expected, msg=...)] on two
    integers. *)
Definition check_int (actual expected : Z) (msg : option string)
  : reader unit :=
  if actual =? expected then Ret tt else Raise (check_failed msg).

(** Modelled from the spec: [io.check] on two byte strings. *)
Definition check_bytes (actual expected : list Z) (msg : option string)
  : reader unit :=
  if list_eqb actual expected then Ret tt else Raise (check_failed msg).

(** Modelled from the spec: [io.read_uint8], [io.read_uint16] and
    [io.read_uint32] read a little-endian unsigned integer of [n] bytes;
    a read that comes short raises. *)
Definition read_uint (n : Z) : reader Z :=
  Read n (fun bs =>
    if len bs =? n then Ret (le_combine bs) else Raise StructError).

(** Modelled from the spec: [io.read_uint8(f)]. *)
Definition read_uint8 : reader Z := read_uint 1.

(** Modelled from the spec: [io.read_uint16(f)]. *)
Definition read_uint16 : reader Z := read_uint 2.

(** Modelled from the spec: [io.read_uint32(f)]. *)
Definition read_uint32 : reader Z := read_uint 4.

(** Modelled from the spec: [io.read_uint8_array] and
    [io.read_uint32_array] read [length] little-endian unsigned integers of
    [n] bytes each in one call to [f.read]; a negative length or a short
    read raises. *)
Definition read_uint_array (n : Z) (length : Z) : reader (list Z) :=
  if length <? 0 then Raise StructError
  else
    Read (n * length) (fun bs =>
      if len bs =? n * length
      then Ret (map le_combine (chunks (Z.to_nat n) (Z.to_nat length) bs))
      else Raise StructError).

(** Modelled from the spec: [io.read_uint8_array(f, length=length)]. *)
Definition read_uint8_array (length : Z) : reader (list Z) :=
  read_uint_array 1 length.

(** Modelled from the spec: [io.read_uint32_array(f, length=length)]. *)
Definition read_uint32_array (length : Z) : reader (list Z) :=
  read_uint_array 4 length.

(** Modelled from the spec: [io.read_float32_array] reads [length]
    little-endian binary32 numbers. *)
Definition read_float32_array (length : Z) : reader (list float) :=
  ws <- read_uint_array 4 length ;; Ret (map f32_of_bits ws).

(** Modelled from the spec: [io.read_vec3_f32] reads three binary32
    numbers. *)
Definition read_vec3_f32 : reader (list float) := read_float32_array 3.

(** What [io.read_vec3_i8] makes of one byte of a segment-level range
    triple.  The sources do not contain it and the spec does not fix the
    scaling, so the codec is stated for any conversion. *)
Class IoUtil : Type := { vec3_i8_elem : Z -> float }.

(** Modelled from the spec: [io.read_vec3_i8] reads three bytes and
    converts each of them. *)
Definition read_vec3_i8 `{IoUtil} : reader (list float) :=
  Read 3 (fun bs =>
    if len bs =? 3 then Ret (map vec3_i8_elem bs) else Raise StructError).

(** The comprehension [[read_func(f) for i in range(n)]]. *)
Fixpoint read_times {A} (read_func : reader A) (n : nat)
  : reader (list A) :=
  match n with
  | O => Ret []
  | S n' =>
      a <- read_func ;;
      l <- read_times read_func n' ;;
      Ret (a :: l)
  end.

(** Modelled from the spec: [io.read_array(f, read_func, length=n)] is
    that comprehension. *)
Definition read_array {A} (read_func : reader A) (length : Z)
  : reader (list A) :=
  read_times read_func (Z.to_nat length).

(** ** The writers of [io_util]: each returns the bytes it writes *)

(** Modelled from the spec: [io.write_uint32] writes a little-endian
    unsigned integer of four bytes. *)
Definition write_uint32 (i : Z) : list Z := le_split 4 i.

(** Modelled from the spec: [io.write_uint32_array] writes each integer
    of the list as [io.write_uint32] does, with no length in front. *)
Definition write_uint32_array (l : list Z) : list Z :=
  flat_map (le_split 4) l.

(** Modelled from the spec: [io.write_uint8_array] writes one byte for
    each integer of the list, with no length in front. *)
Definition write_uint8_array (l : list Z) : list Z :=
  flat_map (le_split 1) l.

(** Modelled from the spec: [io.write_float32_array] writes little-endian
    binary32 numbers. *)
Definition write_float32_array (l : list float) : result (list Z) :=
  (ws <-- rmap bits_of_f32 l ;; Ok (flat_map (le_split 4) ws))%res.

(** Modelled from the spec: [io.write_vec3_f32] writes the three numbers
    of a vector as binary32. *)
Definition write_vec3_f32 (v : list float) : result (list Z) :=
  write_float32_array v.

(** Modelled from the spec: [io.write_struct_array] writes the bytes of
    each structure of the list, with no length in front; [to_bytes] gives
    the bytes of one structure. *)
Definition write_struct_array {A} (to_bytes : A -> list Z) (l : list A)
  : list Z :=
  flat_map to_bytes l.

(* ================================================================== *)
(** * The headers *)
(* ================================================================== *)

(** The little-endian unsigned field of [n] bytes at offset [off] of a
    packed structure whose bytes are [bs]. *)
Definition field (bs : list Z) (off n : nat) : Z :=
  le_combine (firstn n (skipn off bs)).

(** [f.readinto(struct)] fills the first bytes of a zero-initialised
    structure of [size] bytes with what [f.read(size)] returns. *)
Definition readinto (size : nat) (bs : list Z) : list Z :=
  bs ++ repeat 0 (size - length bs).

Module ClipHeader.

Record t : Type := mk {
  offset : Z;
  num_bones : Z;
  num_segments : Z;
  rotation_format : Z;
  translation_format : Z;
  scale_format : Z;
  clip_range_reduction : Z;
  segment_range_reduction : Z;
  has_scale : Z;
  default_scale : Z;
  padding : Z;
  num_samples : Z;
  sample_rate : Z;
  segment_headers_offset : Z;
  default_tracks_bitset_offset : Z;
  constant_tracks_bitset_offset : Z;
  constant_tracks_data_offset : Z;
  clip_range_data_offset : Z;
  padding2 : Z
}.

Definition ROTATION_FORMAT : list string :=
  ["Quat_128"; "QuatDropW_96"; "QuatDropW_48"; "QuatDropW_32";
   "QuatDropW_Variable"]%string.

Definition VECTOR_FORMAT : list string :=
  ["Vector3_96"; "Vector3_48"; "Vector3_32"; "Vector3_Variable"]%string.

(** An entry is a name or [None]. *)
Definition RANGE_REDUCTION_FLAGS : list (option string) :=
  [Some "None"; Some "Rotations"; Some "Translations"; None;
   Some "Scales"; None; None; Some "AllTracks"]%string.

Definition of_bytes (off : Z) (raw : list Z) : t :=
  let bs := readinto 32 raw in
  {| offset := off;
     num_bones := field bs 0 2;
     num_segments := field bs 2 2;
     rotation_format := field bs 4 1;
     translation_format := field bs 5 1;
     scale_format := field bs 6 1;
     clip_range_reduction := field bs 7 1;
     segment_range_reduction := field bs 8 1;
     has_scale := field bs 9 1;
     default_scale := field bs 10 1;
     padding := field bs 11 1;
     num_samples := field bs 12 4;
     sample_rate := field bs 16 4;
     segment_headers_offset := field bs 20 2;
     default_tracks_bitset_offset := field bs 22 2;
     constant_tracks_bitset_offset := field bs 24 2;
     constant_tracks_data_offset := field bs 26 2;
     clip_range_data_offset := field bs 28 2;
     padding2 := field bs 30 2 |}.

(** The bytes of the structure, as [f.write(header)] writes them. *)
Definition to_bytes (h : t) : list Z :=
  le_split 2 (num_bones h) ++ le_split 2 (num_segments h)
  ++ le_split 1 (rotation_format h) ++ le_split 1 (translation_format h)
  ++ le_split 1 (scale_format h) ++ le_split 1 (clip_range_reduction h)
  ++ le_split 1 (segment_range_reduction h) ++ le_split 1 (has_scale h)
  ++ le_split 1 (default_scale h) ++ le_split 1 (padding h)
  ++ le_split 4 (num_samples h) ++ le_split 4 (sample_rate h)
  ++ le_split 2 (segment_headers_offset h)
  ++ le_split 2 (default_tracks_bitset_offset h)
  ++ le_split 2 (constant_tracks_bitset_offset h)
  ++ le_split 2 (constant_tracks_data_offset h)
  ++ le_split 2 (clip_range_data_offset h)
  ++ le_split 2 (padding2 h).

Definition read : reader t :=
  Tell (fun off => Read 32 (fun raw => Ret (of_bytes off raw))).

Definition get_default_tracks_bitset_size (h : t) : Z :=
  constant_tracks_bitset_offset h - default_tracks_bitset_offset h.

Definition get_constant_tracks_bitset_size (h : t) : Z :=
  constant_tracks_data_offset h - constant_tracks_bitset_offset h.

Definition get_constant_tracks_data_size (h : t) : Z :=
  clip_range_data_offset h - constant_tracks_data_offset h.

End ClipHeader.

Module SegmentHeader.

Record t : Type := mk {
  offset : Z;
  num_samples : Z;
  animated_pose_bit_size : Z;
  format_per_track_data_offset : Z;
  range_data_offset : Z;
  track_data_offset : Z
}.

Definition of_bytes (off : Z) (raw : list Z) : t :=
  let bs := readinto 20 raw in
  {| offset := off;
     num_samples := field bs 0 4;
     animated_pose_bit_size := to_signed32 (field bs 4 4);
     format_per_track_data_offset := to_signed32 (field bs 8 4);
     range_data_offset := to_signed32 (field bs 12 4);
     track_data_offset := to_signed32 (field bs 16 4) |}.

Definition to_bytes (h : t) : list Z :=
  le_split 4 (num_samples h)
  ++ le_split 4 (of_signed32 (animated_pose_bit_size h))
  ++ le_split 4 (of_signed32 (format_per_track_data_offset h))
  ++ le_split 4 (of_signed32 (range_data_offset h))
  ++ le_split 4 (of_signed32 (track_data_offset h)).

Definition read : reader t :=
  Tell (fun off => Read 20 (fun raw => Ret (of_bytes off raw))).

End SegmentHeader.

(* ================================================================== *)
(** * Range data and bone tracks *)
(* ================================================================== *)

Module RangeData.

Record t : Type := mk { min_xyz : list float; extent_xyz : list float }.

Definition read `{IoUtil} (segment : bool) : reader t :=
  if segment then
    min_xyz <- read_vec3_i8 ;;
    extent_xyz <- read_vec3_i8 ;;
    Ret (mk min_xyz extent_xyz)
  else
    min_xyz <- read_vec3_f32 ;;
    extent_xyz <- read_vec3_f32 ;;
    Ret (mk min_xyz extent_xyz).

Definition write (r : t) : result (list Z) :=
  (a <-- write_vec3_f32 (min_xyz r) ;;
   b <-- write_vec3_f32 (extent_xyz r) ;;
   Ok (a ++ b))%res.

Definition unpack_elem (elem range_min range_extent : float) : float :=
  fadd (fmul elem range_extent) range_min.

(** [zip(xyz, self.min_xyz, self.extent_xyz)] stops at the shortest. *)
Fixpoint unpack_zip (xyz mins extents : list float) : list float :=
  match xyz, mins, extents with
  | i :: xyz', m :: mins', e :: extents' =>
      unpack_elem i m e :: unpack_zip xyz' mins' extents'
  | _, _, _ => []
  end.

Definition unpack (r : t) (xyz : list float) : list float :=
  unpack_zip xyz (min_xyz r) (extent_xyz r).

End RangeData.

Module BoneTrack.

(** [track_data] holds, for each range-reduced component of the bone,
    the list of its samples, each an [x, y, z] list. *)
Record t : Type := mk {
  use_default : list bool;
  use_constant : list bool;
  constant_list : list float;
  track_data : list (list (list float))
}.

Definition init : t :=
  mk [false; false; false] [false; false; false] [] [].

(** The flags of a text such as ['001'], with [True] appended when the
    text has not three characters. *)
Definition flags_of_str (s : pystr) : list bool :=
  map (fun flag => Ascii.eqb flag "1") s
  ++ (if Nat.eqb (length s) 3 then [] else [true]).

Definition set_use_default (tr : t) (use_default_str : pystr) : t :=
  mk (flags_of_str use_default_str) (use_constant tr)
     (constant_list tr) (track_data tr).

Definition set_use_constant (tr : t) (use_constant_str : pystr) : t :=
  mk (use_default tr) (flags_of_str use_constant_str)
     (constant_list tr) (track_data tr).

Definition get_constant_count (tr : t) : Z :=
  len (filter (fun '(f1, f2) => negb f1 && f2)
              (combine (use_default tr) (use_constant tr))) * 3.

Definition get_range_count (tr : t) : Z :=
  3 - sum (map (fun b : bool => if b then 1 else 0) (use_constant tr)).

Definition set_constants (tr : t) (constant_tracks_data : list float)
           (constant_id : Z) : t * Z :=
  let constant_count := get_constant_count tr in
  (mk (use_default tr) (use_constant tr)
      (slice constant_tracks_data constant_id
             (constant_id + constant_count))
      (track_data tr),
   constant_count).

Definition set_track_data (tr : t) (floats : list (list (list float)))
           (offset : Z) : t * Z :=
  let range_count := get_range_count tr in
  (mk (use_default tr) (use_constant tr) (constant_list tr)
      (slice floats offset (offset + range_count)),
   range_count).

End BoneTrack.

(* ================================================================== *)
(** * The compressed clip *)
(* ================================================================== *)

(** [str(i)] for an integer. *)
Definition str_of_int (i : Z) : string :=
  DecimalString.NilZero.string_of_int (Z.to_int i).

(** [str(x)] for an entry of a table of names: [None] prints as its name. *)
Definition str_of_flag (x : option string) : string :=
  match x with
  | Some s => s
  | None => "None"%string
  end.

(** [x == name] for an entry of a table of names. *)
Definition flag_eqb (x : option string) (name : string) : bool :=
  match x with
  | Some s => String.eqb s name
  | None => false
  end.

(** [l.index(x)] *)
Fixpoint list_index (l : list Z) (x : Z) : result Z :=
  match l with
  | [] => Err ValueError
  | y :: l' =>
      if y =? x then Ok 0
      else match list_index l' x with
           | Ok i => Ok (i + 1)
           | Err e => Err e
           end
  end.

(** [zip(a, b, c)] *)
Definition zip3 {A B C} (a : list A) (b : list B) (c : list C)
  : list (A * B * C) :=
  combine (combine a b) c.

(** [struct.unpack('>f', b)[0]] *)
Definition unpack_f32_be (b : list Z) : float :=
  f32_of_bits (le_combine (rev b)).

Module CompressedClip.

Definition BIT_RATE_NUM_BITS : list Z :=
  [0; 3; 4; 5; 6; 7; 8; 9; 10; 11; 12; 13; 14; 15; 16; 17; 18; 19; 32].

Record t : Type := mk {
  offset : Z;
  size : Z;
  data_hash : list Z;
  clip_header : ClipHeader.t;
  segment_headers : list SegmentHeader.t;
  default_tracks_bitset : list Z;
  constant_tracks_bitset : list Z;
  range_data : list RangeData.t;
  bit_rates : list Z;
  track_data : list Z;
  bone_tracks : list BoneTrack.t
}.

Definition BUFFER_TAG : list Z := [16; 172; 16; 172].

(** ** [read]: the fixed fields in front of the headers *)

Definition read_preamble : reader (Z * Z * list Z) :=
  offset <- Tell Ret ;;
  size <- read_uint32 ;;
  data_hash <- Read 4 Ret ;;
  buffer_tag <- Read 4 Ret ;;
  check_bytes buffer_tag BUFFER_TAG (Some "Unsupported ACL format."%string) ;;
  version <- read_uint16 ;;
  check_int version 3 (Some "Unsupported ACL version."%string) ;;
  algorithm <- read_uint8 ;;
  check_int algorithm 0 None ;;
  pad <- read_uint8 ;;
  check_int pad 0 None ;;
  Ret (offset, size, data_hash).

Definition unsupported (what : string) (value : string) : pyerror :=
  RuntimeError
    ("Unsupported animation clip (" ++ what ++ ": " ++ value ++ ")")%string.

(** ** [read]: the checks of the formats; returns
    [segment_range_reduction] *)

Definition check_formats (clip_header : ClipHeader.t)
  : result (option string) :=
  (clip_range_reduction <--
     index ClipHeader.RANGE_REDUCTION_FLAGS
           (ClipHeader.clip_range_reduction clip_header) ;;
   if negb (flag_eqb clip_range_reduction "AllTracks") then
     Err (unsupported "clip range reduction"
                      (str_of_flag clip_range_reduction))
   else
   segment_range_reduction <--
     index ClipHeader.RANGE_REDUCTION_FLAGS
           (ClipHeader.segment_range_reduction clip_header) ;;
   if negb (flag_eqb segment_range_reduction "None"
            || flag_eqb segment_range_reduction "AllTracks") then
     Err (unsupported "segment range reduction"
                      (str_of_flag segment_range_reduction))
   else
   rot_format <--
     index ClipHeader.ROTATION_FORMAT
           (ClipHeader.rotation_format clip_header) ;;
   trans_format <--
     index ClipHeader.VECTOR_FORMAT
           (ClipHeader.translation_format clip_header) ;;
   scale_format <--
     index ClipHeader.VECTOR_FORMAT
           (ClipHeader.scale_format clip_header) ;;
   if negb (String.eqb rot_format "QuatDropW_Variable") then
     Err (unsupported "rotation format" rot_format)
   else if negb (String.eqb trans_format "Vector3_Variable") then
     Err (unsupported "translation format" trans_format)
   else if negb (String.eqb scale_format "Vector3_Variable") then
     Err (unsupported "scale format" scale_format)
   else if negb (ClipHeader.default_scale clip_header =? 1) then
     Err (unsupported "default scale"
                      (str_of_int (ClipHeader.default_scale clip_header)))
   else Ok segment_range_reduction)%res.

(** ** [read]: the bit sets and the bone tracks *)

Definition get_tracks_flags (bitset : list Z)
           (num_bones num_attributes : Z) : pystr :=
  let tracks_flags :=
    fold_left (fun acc i => acc ++ zfill (format_b i) 32) bitset [] in
  slice tracks_flags 0 (num_bones * num_attributes).

(** The loop [for track, i in zip(bone_tracks, range(num_bones))], over
    the indices [idxs] that are left; returns the tracks and the final
    [constant_count] and [range_count]. *)
Fixpoint set_tracks_flags (idxs : list Z)
         (default_tracks_flags constant_tracks_flags : pystr)
         (num_attributes : Z) (constant_tracks_data : list float)
         (constant_count range_count : Z)
  : list BoneTrack.t * Z * Z :=
  match idxs with
  | [] => ([], constant_count, range_count)
  | i :: idxs' =>
      let track := BoneTrack.init in
      let track :=
        BoneTrack.set_use_default track
          (slice default_tracks_flags (i * num_attributes)
                 ((i + 1) * num_attributes)) in
      let track :=
        BoneTrack.set_use_constant track
          (slice constant_tracks_flags (i * num_attributes)
                 ((i + 1) * num_attributes)) in
      let '(track, n) :=
        BoneTrack.set_constants track constant_tracks_data
                                constant_count in
      let constant_count := constant_count + n in
      let range_count := range_count + BoneTrack.get_range_count track in
      let '(tracks, cc, rc) :=
        set_tracks_flags idxs' default_tracks_flags constant_tracks_flags
                         num_attributes constant_tracks_data
                         constant_count range_count in
      (track :: tracks, cc, rc)
  end.

(** ** [read]: one segment *)

(** The part of an iteration of [for s_header in segment_headers] that
    reads the file; returns [bit_rates], [segment_range_data] and
    [track_data]. *)
Definition read_segment_data `{IoUtil} (clip_header : ClipHeader.t)
           (segment_range_reduction : option string) (range_count : Z)
           (s_header : SegmentHeader.t)
  : reader (list Z * list (option RangeData.t) * list Z) :=
  let clip_offset := ClipHeader.offset clip_header in
  (if negb (range_count =? 0) then
     pos <- Tell Ret ;;
     check_int pos
       (SegmentHeader.format_per_track_data_offset s_header + clip_offset)
       None
   else Ret tt) ;;
  bit_rates <- read_uint8_array range_count ;;
  bit_rates <- lift (rmap (index BIT_RATE_NUM_BITS) bit_rates) ;;
  pos <- Tell Ret ;;
  let num_padding := (2 - (pos - clip_offset) mod 2) mod 2 in
  Padding num_padding (
  segment_range_data <-
    (if flag_eqb segment_range_reduction "AllTracks" then
       pos <- Tell Ret ;;
       check_int pos
         (SegmentHeader.range_data_offset s_header + clip_offset) None ;;
       l <- read_times (RangeData.read true) (Z.to_nat range_count) ;;
       Ret (map Some l)
     else Ret (list_mul [None] range_count)) ;;
  pos <- Tell Ret ;;
  let num_padding := (4 - (pos - clip_offset) mod 4) mod 4 in
  Padding num_padding (
  let track_data_size := sum bit_rates * 3 in
  let num_samples := SegmentHeader.num_samples s_header in
  let length := ceil_div8 (track_data_size * num_samples) in
  (if negb (range_count =? 0) then
     pos <- Tell Ret ;;
     check_int pos
       (SegmentHeader.track_data_offset s_header + clip_offset) None
   else Ret tt) ;;
  track_data <- read_uint8_array length ;;
  Ret (bit_rates, segment_range_data, track_data))).

(** [binary]: the bits of [track_data] as text. *)
Definition binary_of (track_data : list Z) : pystr :=
  fold_left (fun acc i => acc ++ zfill (format_b i) 8) track_data [].

Definition get_frame_bin (i : Z) (binary : pystr)
           (track_data_size idx bits : Z) : pystr :=
  slice binary (i * track_data_size + idx)
        (i * track_data_size + idx + bits * 3).

(** The body of [for bits, rd, rid in zip(...)] up to the value of
    [xyzs]; [max_int] is the local of that name, [None] while it is not
    assigned.  Returns [max_int] and [xyzs]. *)
Definition unpack_component (binary : pystr)
           (track_data_size num_samples : Z)
           (segment_range_data : list (option RangeData.t))
           (max_int : option Z) (idx bits : Z) (rd : RangeData.t)
           (rid : Z)
  : result (option Z * list (list float)) :=
  (p <--
     (if negb (bits =? 0) then
        let bone_track_bin :=
          map (fun i => get_frame_bin i binary track_data_size idx bits)
              (range num_samples) in
        let bone_track_bin :=
          map (fun b =>
                 map (fun i => slice b (i * bits) ((i + 1) * bits))
                     (range 3))
              bone_track_bin in
        let bone_track_bin := sum_lists bone_track_bin in
        let max_int := Z.shiftl 1 bits - 1 in
        ints <-- rmap int2 bone_track_bin ;;
        Ok (Some max_int, ints)
      else Ok (max_int, list_mul (list_mul [0] num_samples) 3)) ;;
   let '(max_int, ints) := p in
   xyzs <--
     (if negb (bits =? 32) then
        floats <--
          rmap (fun i =>
                  match max_int with
                  | Some m => int_truediv i m
                  | None => Err (NameError "max_int")
                  end) ints ;;
        let xyzs :=
          map (fun i => slice floats (i * 3) ((i + 1) * 3))
              (range num_samples) in
        srd <-- index segment_range_data rid ;;
        match srd with
        | Some srd => Ok (map (RangeData.unpack srd) xyzs)
        | None => Ok xyzs
        end
      else
        bt <-- rmap (to_bytes_big 4) ints ;;
        let floats := map unpack_f32_be bt in
        Ok (map (fun i => slice floats (i * 3) ((i + 1) * 3))
                (range num_samples))) ;;
   let xyzs :=
     if negb (bits =? 32) then map (RangeData.unpack rd) xyzs else xyzs in
   Ok (max_int, xyzs))%res.

(** The loop [for bits, rd, rid in zip(bit_rates, range_data,
    range(range_count))] over the components that are left. *)
Fixpoint unpack_components (binary : pystr)
         (track_data_size num_samples : Z)
         (segment_range_data : list (option RangeData.t))
         (comps : list (Z * RangeData.t * Z))
         (idx : Z) (max_int : option Z)
         (bone_track_floats : list (list (list float)))
  : result (option Z * list (list (list float))) :=
  match comps with
  | [] => Ok (max_int, bone_track_floats)
  | (bits, rd, rid) :: comps' =>
      (p <-- unpack_component binary track_data_size num_samples
               segment_range_data max_int idx bits rd rid ;;
       let '(max_int, xyzs) := p in
       _ <-- index bone_track_floats rid ;;
       let bone_track_floats :=
         extend_at bone_track_floats (Z.to_nat rid) xyzs in
       unpack_components binary track_data_size num_samples
         segment_range_data comps' (idx + bits * 3) max_int
         bone_track_floats)%res
  end.

(** The locals of [read] that the loop over the segments assigns and
    that are read after it, or in a later iteration. *)
Record locals : Type := mk_locals {
  l_bit_rates : option (list Z);
  l_track_data : option (list Z);
  l_max_int : option Z;
  l_bone_track_floats : list (list (list float))
}.

(** One iteration of [for s_header in segment_headers]. *)
Definition read_segment `{IoUtil} (clip_header : ClipHeader.t)
           (segment_range_reduction : option string) (range_count : Z)
           (range_data : list RangeData.t) (vars : locals)
           (s_header : SegmentHeader.t) : reader locals :=
  d <- read_segment_data clip_header segment_range_reduction range_count
                         s_header ;;
  let '(bit_rates, segment_range_data, track_data) := d in
  let track_data_size := sum bit_rates * 3 in
  let num_samples := SegmentHeader.num_samples s_header in
  let binary := binary_of track_data in
  p <- lift (unpack_components binary track_data_size num_samples
               segment_range_data
               (zip3 bit_rates range_data (range range_count))
               0 (l_max_int vars) (l_bone_track_floats vars)) ;;
  let '(max_int, bone_track_floats) := p in
  Ret (mk_locals (Some bit_rates) (Some track_data) max_int
                 bone_track_floats).

Fixpoint read_segments `{IoUtil} (clip_header : ClipHeader.t)
         (segment_range_reduction : option string) (range_count : Z)
         (range_data : list RangeData.t)
         (segment_headers : list SegmentHeader.t) (vars : locals)
  : reader locals :=
  match segment_headers with
  | [] => Ret vars
  | s_header :: rest =>
      vars <- read_segment clip_header segment_range_reduction
                           range_count range_data vars s_header ;;
      read_segments clip_header segment_range_reduction range_count
                    range_data rest vars
  end.

(** ** [read]: the unpacked data goes to the tracks *)

Fixpoint set_tracks_data (bone_tracks : list BoneTrack.t)
         (bone_track_floats : list (list (list float))) (idx : Z)
  : list BoneTrack.t * Z :=
  match bone_tracks with
  | [] => ([], idx)
  | track :: rest =>
      let '(track, n) :=
        BoneTrack.set_track_data track bone_track_floats idx in
      let '(tracks, idx) :=
        set_tracks_data rest bone_track_floats (idx + n) in
      (track :: tracks, idx)
  end.

(** A local that is read: a [NameError] while it is not assigned. *)
Definition local {A} (name : string) (v : option A) : reader A :=
  match v with
  | Some a => Ret a
  | None => Raise (NameError name)
  end.

(** ** [read] *)

(** Everything [read] computes before the loop over the segments. *)
Record tracks_ctx : Type := mk_ctx {
  c_offset : Z;
  c_size : Z;
  c_data_hash : list Z;
  c_clip_header : ClipHeader.t;
  c_segment_headers : list SegmentHeader.t;
  c_segment_range_reduction : option string;
  c_default_tracks_bitset : list Z;
  c_constant_tracks_bitset : list Z;
  c_constant_tracks_data : list float;
  c_bone_tracks : list BoneTrack.t;
  c_constant_count : Z;
  c_range_count : Z;
  c_range_data : list RangeData.t
}.

(** From the first byte of the record to the clip range data. *)
Definition read_tracks `{IoUtil} : reader tracks_ctx :=
  pre <- read_preamble ;;
  let '(offset, size, data_hash) := pre in
  (* read headers *)
  clip_header <- ClipHeader.read ;;
  segment_headers <-
    read_array SegmentHeader.read (ClipHeader.num_segments clip_header) ;;
  (* check formats *)
  segment_range_reduction <- lift (check_formats clip_header) ;;
  (* read bit sets *)
  let num_attributes := 2 + ClipHeader.has_scale clip_header in
  default_tracks_bitset <-
    read_uint32_array
      (ClipHeader.get_default_tracks_bitset_size clip_header / 4) ;;
  constant_tracks_bitset <-
    read_uint32_array
      (ClipHeader.get_constant_tracks_bitset_size clip_header / 4) ;;
  let default_tracks_flags :=
    get_tracks_flags default_tracks_bitset
      (ClipHeader.num_bones clip_header) num_attributes in
  let constant_tracks_flags :=
    get_tracks_flags constant_tracks_bitset
      (ClipHeader.num_bones clip_header) num_attributes in
  (* read constant tracks *)
  constant_tracks_data <-
    read_float32_array
      (ClipHeader.get_constant_tracks_data_size clip_header / 4) ;;
  let '(bone_tracks, constant_count, range_count) :=
    set_tracks_flags (range (ClipHeader.num_bones clip_header))
      default_tracks_flags constant_tracks_flags num_attributes
      constant_tracks_data 0 0 in
  (* read clip range data *)
  pos <- Tell Ret ;;
  check_int pos
    (ClipHeader.clip_range_data_offset clip_header
     + ClipHeader.offset clip_header) None ;;
  range_data <- read_array (RangeData.read false) range_count ;;
  Ret (mk_ctx offset size data_hash clip_header segment_headers
              segment_range_reduction default_tracks_bitset
              constant_tracks_bitset constant_tracks_data bone_tracks
              constant_count range_count range_data).

(** [bone_track_floats = [[] for i in range(range_count)]]; the other
    locals of the loop are not assigned yet. *)
Definition init_locals (range_count : Z) : locals :=
  mk_locals None None None (map (fun _ => []) (range range_count)).

(** From the end of the loop over the segments to the return. *)
Definition read_finish (ctx : tracks_ctx) (vars : locals) : reader t :=
  (* set unpacked data *)
  let '(bone_tracks, idx) :=
    set_tracks_data (c_bone_tracks ctx) (l_bone_track_floats vars) 0 in
  check_int idx (len (l_bone_track_floats vars)) None ;;
  Padding 15 (
  pos <- Tell Ret ;;
  check_int (pos - c_offset ctx) (c_size ctx) None ;;
  bit_rates <- local "bit_rates" (l_bit_rates vars) ;;
  track_data <- local "track_data" (l_track_data vars) ;;
  Ret (mk (c_offset ctx) (c_size ctx) (c_data_hash ctx)
          (c_clip_header ctx) (c_segment_headers ctx)
          (c_default_tracks_bitset ctx) (c_constant_tracks_bitset ctx)
          (c_range_data ctx) bit_rates track_data bone_tracks)).

Definition read `{IoUtil} : reader t :=
  ctx <- read_tracks ;;
  vars <- read_segments (c_clip_header ctx)
            (c_segment_range_reduction ctx) (c_range_count ctx)
            (c_range_data ctx) (c_segment_headers ctx)
            (init_locals (c_range_count ctx)) ;;
  read_finish ctx vars.

(** ** [write]: the bytes written to the file *)

Definition write (clip : t) : result (list Z) :=
  (let constant_tracks_data :=
     sum_lists (map BoneTrack.constant_list (bone_tracks clip)) in
   constants <-- write_float32_array constant_tracks_data ;;
   ranges <-- rmap RangeData.write (range_data clip) ;;
   bit_rates <-- rmap (list_index BIT_RATE_NUM_BITS) (bit_rates clip) ;;
   Ok (write_uint32 (size clip)
       ++ data_hash clip
       ++ BUFFER_TAG
       ++ write_uint32 3
       ++ ClipHeader.to_bytes (clip_header clip)
       ++ write_struct_array SegmentHeader.to_bytes (segment_headers clip)
       ++ write_uint32_array (default_tracks_bitset clip)
       ++ write_uint32_array (constant_tracks_bitset clip)
       ++ constants
       ++ concat ranges
       ++ write_uint8_array bit_rates
       ++ repeat PAD_BYTE (Z.to_nat (4 - len bit_rates mod 4))
       ++ write_uint8_array (track_data clip)
       ++ repeat PAD_BYTE 15))%res.

End CompressedClip.

(* ================================================================== *)
(** * Notions the properties are stated with *)
(* ================================================================== *)

(** The [n] low bits of [w] as text, most significant first. *)
Fixpoint msb_bits (n : nat) (w : Z) : pystr :=
  match n with
  | O => []
  | S n' => msb_bits n' (Z.div2 w) ++ [bit_char (Z.odd w)]
  end.

(** Bit [k] of a sequence of [width]-bit words, counting from the most
    significant bit of the first word. *)
Definition word_bit (width : nat) (words : list Z) (k : nat) : bool :=
  Z.testbit (nth (k / width) words 0)
            (Z.of_nat (width - 1 - k mod width)).

(** The number a sequence of bits denotes, most significant first. *)
Fixpoint bits_value (bs : list bool) (acc : Z) : Z :=
  match bs with
  | [] => acc
  | b :: bs' => bits_value bs' (2 * acc + (if b then 1 else 0))
  end.

(** The unsigned integer held by the [width] bits of the bytes [bytes]
    that start at bit [start]. *)
Definition code_at (bytes : list Z) (start width : nat) : Z :=
  bits_value (map (word_bit 8 bytes) (seq start width)) 0.

(** The code of sub-channel [c] of sample [i] of the component whose bits
    start at [idx] in each sample: [bits] bits of the track data, from bit
    [i * track_data_size + idx + c * bits]. *)
Definition sample_code (track_data : list Z)
           (track_data_size idx bits i c : Z) : Z :=
  code_at track_data
          (Z.to_nat (i * track_data_size + idx + c * bits)) (Z.to_nat bits).

(** A well-formed sequence of bytes. *)
Definition all_bytes (l : list Z) : Prop :=
  Forall (fun b => 0 <= b < 256) l.

(** The number of components of a track that are neither flagged default
    nor flagged constant. *)
Definition neither_count (tr : BoneTrack.t) : Z :=
  len (filter (fun '(f1, f2) => negb f1 && negb f2)
              (combine (BoneTrack.use_default tr)
                       (BoneTrack.use_constant tr))).

(** The two range maps of the format on sub-channel [c] of a normalized
    value [v], written out: [v' = v * segExtent + segMin] with the
    segment-level triple, when there is one, then
    [out = v' * clipExtent + clipMin] with the clip-level triple. *)
Definition dequantize (srd : option RangeData.t) (rd : RangeData.t)
           (c : nat) (v : float) : float :=
  let v' :=
    match srd with
    | Some s =>
        fadd (fmul v (nth c (RangeData.extent_xyz s) S754_nan))
             (nth c (RangeData.min_xyz s) S754_nan)
    | None => v
    end in
  fadd (fmul v' (nth c (RangeData.extent_xyz rd) S754_nan))
       (nth c (RangeData.min_xyz rd) S754_nan).

(** The sample the decoder is to produce from the code [code] of [bits]
    bits on sub-channel [c]: the code over [(1 << bits) - 1], then the two
    range maps. *)
Definition dequantized_sample (srd : option RangeData.t) (rd : RangeData.t)
           (bits : Z) (c : nat) (code : Z) : float :=
  dequantize srd rd c
    (SFdiv 53 1024 (float_of_int code) (float_of_int (Z.shiftl 1 bits - 1))).

(** The two lengths a padding run of a segment can have at position [s],
    for a clip whose header starts at [offset]: to an even offset after
    the bit rates, to a multiple of 4 before the track data. *)
Definition segment_padding (offset s n : Z) : Prop :=
  n = (2 - (s - offset) mod 2) mod 2 \/ n = (4 - (s - offset) mod 4) mod 4.

(** The file [data] with the byte at position [i] replaced by [b]. *)
Definition alter (data : list Z) (i : Z) (b : Z) : list Z :=
  firstn (Z.to_nat i) data ++ b :: skipn (S (Z.to_nat i)) data.

(** The bit pattern [w] is a binary32 NaN. *)
Definition is_nan32 (w : Z) : bool :=
  (Z.land (Z.shiftr w 23) 255 =? 255) && negb (Z.land w (2 ^ 23 - 1) =? 0).

(** A list of [n] samples of three coordinates each. *)
Definition samples_of (n : nat) (l : list (list float)) : Prop :=
  length l = n /\ Forall (fun xyz => length xyz = 3%nat) l.

(** [ValueError], [OverflowError] and [ZeroDivisionError]: the errors of
    [int(b, 2)], of [to_bytes] and [struct.pack], and of a division. *)
Definition is_arithmetic (e : pyerror) : bool :=
  match e with
  | ValueError => true
  | OverflowError => true
  | ZeroDivisionError => true
  | _ => false
  end.

(** Code that raises none of them on the file [data]. *)
Definition no_arithmetic_error {A} (p : reader A) (data : list Z) : Prop :=
  forall pos e pos', run p data pos = Raised e pos' -> is_arithmetic e = false.

(** The local [max_int] is not assigned, or is not 0. *)
Definition nonzero_max_int (max_int : option Z) : Prop :=
  forall m, max_int = Some m -> m <> 0.

(* ================================================================== *)
(** * Sample records *)
(* ================================================================== *)

(** A conversion for the bytes of the segment-level triples, for the
    samples: the byte as a number. *)
Definition sample_io : IoUtil := {| vec3_i8_elem := float_of_int |}.

(** A header that passes the checks of the formats, for a record with
    one word per bit set, [constants] bytes of constants and the given
    flags; the offsets count from the first byte of the header. *)
Definition sample_header (num_segments clip_range_reduction has_scale
                          num_samples constants : Z) : ClipHeader.t :=
  let bitsets := 32 + 20 * num_segments in
  {| ClipHeader.offset := 16;
     ClipHeader.num_bones := 1;
     ClipHeader.num_segments := num_segments;
     ClipHeader.rotation_format := 4;
     ClipHeader.translation_format := 3;
     ClipHeader.scale_format := 3;
     ClipHeader.clip_range_reduction := clip_range_reduction;
     ClipHeader.segment_range_reduction := 0;
     ClipHeader.has_scale := has_scale;
     ClipHeader.default_scale := 1;
     ClipHeader.padding := 0;
     ClipHeader.num_samples := num_samples;
     ClipHeader.sample_rate := 30;
     ClipHeader.segment_headers_offset := 32;
     ClipHeader.default_tracks_bitset_offset := bitsets;
     ClipHeader.constant_tracks_bitset_offset := bitsets + 4;
     ClipHeader.constant_tracks_data_offset := bitsets + 8;
     ClipHeader.clip_range_data_offset := bitsets + 8 + constants;
     ClipHeader.padding2 := 0 |}.

Definition sample_segment (num_samples bit_rates_at range_at track_at : Z)
  : SegmentHeader.t :=
  {| SegmentHeader.offset := 48;
     SegmentHeader.num_samples := num_samples;
     SegmentHeader.animated_pose_bit_size := 0;
     SegmentHeader.format_per_track_data_offset := bit_rates_at;
     SegmentHeader.range_data_offset := range_at;
     SegmentHeader.track_data_offset := track_at |}.

(** The bytes of a record: the fixed fields, the headers, [body] (the bit
    sets and all that follows them) and the 15 bytes of the tail. *)
Definition sample_record (h : ClipHeader.t) (segs : list SegmentHeader.t)
           (body : list Z) : list Z :=
  let rest :=
    ClipHeader.to_bytes h ++ flat_map SegmentHeader.to_bytes segs
    ++ body ++ repeat PAD_BYTE 15 in
  le_split 4 (16 + len rest) ++ [18; 52; 86; 120]
  ++ CompressedClip.BUFFER_TAG ++ [3; 0; 0; 0] ++ rest.

(** The bit set whose first flags are the bits of [flags], a three-bit
    number. *)
Definition flags_word (flags : Z) : list Z := le_split 4 (flags * 2 ^ 29).

(** The clip range triple with minimum 0 and extent 1: six binary32
    numbers. *)
Definition unit_range : list Z :=
  flat_map (le_split 4) [0; 0; 0; 1065353216; 1065353216; 1065353216].

(** One bone with rotation and translation only, both flagged default and
    constant, and one segment: nothing is range-reduced. *)
Definition static_clip : list Z :=
  sample_record (sample_header 1 7 0 1 0) [sample_segment 1 60 60 60]
    (flags_word 6 ++ flags_word 6).

(** As [static_clip], but the two components are flagged constant and not
    default, while the record has no constant data. *)
Definition short_constants_clip : list Z :=
  sample_record (sample_header 1 7 0 1 0) [sample_segment 1 60 60 60]
    (flags_word 0 ++ flags_word 6).

(** One bone whose scale alone is range-reduced, over the unit range; one
    segment of two samples at 8 bits, with codes [0x00] and [0xFF]. *)
Definition unit_clip : list Z :=
  sample_record (sample_header 1 7 1 2 0) [sample_segment 2 84 86 88]
    (flags_word 6 ++ flags_word 6 ++ unit_range
     ++ [6] ++ [205] ++ [205; 205] ++ [0; 0; 0; 255; 255; 255]).

(** As [unit_clip] with two segments of one sample: 8 bits in the first,
    4 bits in the second. *)
Definition two_segment_clip : list Z :=
  sample_record (sample_header 2 7 1 2 0)
    [sample_segment 1 104 106 108; sample_segment 1 111 112 112]
    (flags_word 6 ++ flags_word 6 ++ unit_range
     ++ [6] ++ [205] ++ [205; 205] ++ [0; 128; 255]
     ++ [2] ++ [] ++ [] ++ [18; 48]).

(** As [unit_clip] with one segment whose only component has bit rate 0:
    one sample in [zero_rate_clip], none in [zero_rate_empty_clip]. *)
Definition zero_rate_clip : list Z :=
  sample_record (sample_header 1 7 1 1 0) [sample_segment 1 84 86 88]
    (flags_word 6 ++ flags_word 6 ++ unit_range
     ++ [0] ++ [205] ++ [205; 205]).

Definition zero_rate_empty_clip : list Z :=
  sample_record (sample_header 1 7 1 0 0) [sample_segment 0 84 86 88]
    (flags_word 6 ++ flags_word 6 ++ unit_range
     ++ [0] ++ [205] ++ [205; 205]).

(** As [static_clip] with a clip-range-reduction flag out of the table. *)
Definition bad_flag_clip : list Z :=
  sample_record (sample_header 1 8 0 1 0) [sample_segment 1 60 60 60]
    (flags_word 6 ++ flags_word 6).

(** One bone with a scale whose rotation is flagged default and not
    constant; the three components are read as range-reduced. *)
Definition default_only_clip : list Z :=
  sample_record (sample_header 1 7 1 1 0) [sample_segment 1 132 136 136]
    (flags_word 4 ++ flags_word 0 ++ unit_range ++ unit_range ++ unit_range
     ++ [6; 6; 6] ++ [205] ++ [] ++ [1; 2; 3; 4; 5; 6; 7; 8; 9]).

(** One bone whose scale is stored at 32 bits, with the clip range of
    minimum 5 and extent 2: a negative number, the negative zero and the
    smallest denormal. *)
Definition raw_float_clip : list Z :=
  sample_record (sample_header 1 7 1 1 0) [sample_segment 1 84 86 88]
    (flags_word 6 ++ flags_word 6
     ++ flat_map (le_split 4)
          [1084227584; 1084227584; 1084227584;
           1073741824; 1073741824; 1073741824]
     ++ [18] ++ [205] ++ [205; 205]
     ++ [193; 35; 69; 103] ++ [128; 0; 0; 0] ++ [0; 0; 0; 1]).

(* ================================================================== *)
(** * Running file-reading code *)
(* ================================================================== *)

Lemma run_bind {A B} (p : reader A) (f : A -> reader B) data pos :
  run (bind p f) data pos =
  match run p data pos with
  | Returned a pos' => run (f a) data pos'
  | Raised e pos' => Raised e pos'
  end.
Proof.
  revert pos; induction p as [a|e|k IH|n k IH|n k IH]; intros pos; simpl; auto.
  destruct (list_eqb _ _); auto.
Qed.

Lemma run_bind_returned {A B} (p : reader A) (f : A -> reader B)
      data pos b pos' :
  run (bind p f) data pos = Returned b pos' ->
  exists a pos1,
    run p data pos = Returned a pos1 /\ run (f a) data pos1 = Returned b pos'.
Proof.
  rewrite run_bind. destruct (run p data pos) as [a pos1|e pos1]; intros E.
  - exists a, pos1; auto.
  - discriminate.
Qed.

Lemma padding_runs_bind {A B} (p : reader A) (f : A -> reader B) data pos :
  padding_runs (bind p f) data pos =
  padding_runs p data pos ++
  match run p data pos with
  | Returned a pos' => padding_runs (f a) data pos'
  | Raised _ _ => []
  end.
Proof.
  revert pos; induction p as [a|e|k IH|n k IH|n k IH]; intros pos; simpl; auto.
  destruct (list_eqb _ _); simpl; auto. now rewrite IH.
Qed.

Lemma run_lift {A} (r : result A) data pos :
  run (lift r) data pos =
  match r with Ok a => Returned a pos | Err e => Raised e pos end.
Proof. destruct r; reflexivity. Qed.

Lemma padding_runs_lift {A} (r : result A) data pos :
  padding_runs (lift r) data pos = [].
Proof. destruct r; reflexivity. Qed.

Lemma len_nonneg {A} (l : list A) : 0 <= len l.
Proof. unfold len; lia. Qed.

(** The cursor never moves backwards. *)
Lemma run_pos_le {A} (p : reader A) data pos :
  match run p data pos with
  | Returned _ pos' => pos <= pos'
  | Raised _ pos' => pos <= pos'
  end.
Proof.
  revert pos; induction p as [a|e|k IH|n k IH|n k IH]; intros pos; simpl;
    try lia.
  - apply IH.
  - specialize (IH (f_read data pos n) (pos + len (f_read data pos n))).
    pose proof (len_nonneg (f_read data pos n)).
    destruct (run _ _ _); lia.
  - pose proof (len_nonneg (f_read data pos n)).
    destruct (list_eqb _ _); [|lia].
    specialize (IH (pos + len (f_read data pos n))).
    destruct (run _ _ _); lia.
Qed.

Lemma list_eqb_eq (l1 l2 : list Z) : list_eqb l1 l2 = true <-> l1 = l2.
Proof.
  revert l2; induction l1 as [|a l1 IH]; intros [|b l2]; simpl;
    try (split; [discriminate|discriminate]); try tauto.
  rewrite andb_true_iff, Z.eqb_eq, IH. split.
  - intros [-> ->]; reflexivity.
  - intros E; injection E; auto.
Qed.

(** ** What [f.read] sees of the file *)

Lemma nth_error_f_read data pos n j :
  0 <= pos -> (j < Z.to_nat n)%nat ->
  nth_error (f_read data pos n) j = nth_error data (Z.to_nat pos + j).
Proof.
  intros Hpos Hj. unfold f_read.
  destruct (Z.ltb_spec n 0); [lia|].
  rewrite nth_error_firstn.
  destruct (Nat.ltb_spec j (Z.to_nat n)); [|lia].
  apply nth_error_skipn.
Qed.

Lemma length_alter data i b :
  0 <= i < len data -> length (alter data i b) = length data.
Proof.
  unfold alter, len. intros H.
  rewrite length_app. cbn [length]. rewrite length_firstn, length_skipn. lia.
Qed.

Lemma nth_error_alter data i b j :
  0 <= i < len data ->
  nth_error (alter data i b) j =
  if Nat.eqb j (Z.to_nat i) then Some b else nth_error data j.
Proof.
  unfold alter, len. intros H.
  assert (Hl : length (firstn (Z.to_nat i) data) = Z.to_nat i)
    by (rewrite length_firstn; lia).
  destruct (Nat.eqb_spec j (Z.to_nat i)) as [->|Hne].
  - rewrite nth_error_app2 by lia. rewrite Hl, Nat.sub_diag. reflexivity.
  - destruct (Nat.lt_ge_cases j (Z.to_nat i)).
    + rewrite nth_error_app1 by lia.
      rewrite nth_error_firstn.
      destruct (Nat.ltb_spec j (Z.to_nat i)); [reflexivity|lia].
    + rewrite nth_error_app2 by lia. rewrite Hl.
      destruct (j - Z.to_nat i)%nat as [|d] eqn:Ed; [lia|]. cbn [nth_error].
      rewrite nth_error_skipn. f_equal. lia.
Qed.

(** A read that ends before position [i] does not see the byte at [i]. *)
Lemma f_read_alter data pos n i b :
  0 <= pos -> 0 <= i < len data ->
  pos + len (f_read data pos n) <= i ->
  f_read (alter data i b) pos n = f_read data pos n.
Proof.
  intros Hpos Hi Hend.
  apply nth_error_ext. intros j.
  unfold f_read, len in *.
  destruct (Z.ltb_spec n 0).
  - exfalso. rewrite length_skipn in Hend. lia.
  - rewrite !nth_error_firstn.
    destruct (Nat.ltb_spec j (Z.to_nat n)); [|reflexivity].
    rewrite !nth_error_skipn, nth_error_alter by (unfold len; assumption).
    destruct (Nat.eqb_spec (Z.to_nat pos + j) (Z.to_nat i)); [|reflexivity].
    exfalso. rewrite length_firstn, length_skipn in Hend. lia.
Qed.

(** ** Padding runs *)

(** In a call that returns, every byte of every padding run is the
    sentinel, and the call raises from [io.check] once one of them is
    altered.  This holds for any code: a padding run is checked where it is
    read, and nothing read before it can see the altered byte. *)
Lemma padding_runs_checked {A} (p : reader A) :
  forall data pos a pos',
    0 <= pos ->
    run p data pos = Returned a pos' ->
    forall s n i,
      In (s, n) (padding_runs p data pos) -> s <= i < s + n ->
      pos <= s
      /\ nth_error data (Z.to_nat i) = Some PAD_BYTE
      /\ forall b, b <> PAD_BYTE ->
           exists pos'',
             run p (alter data i b) pos = Raised (check_failed None) pos''.
Proof.
  induction p as [a0|e|k IH|n k IH|n k IH];
    intros data pos a pos' Hpos Hrun s m i Hin Hi; simpl in *.
  - contradiction.
  - contradiction.
  - eapply IH; eauto.
  - set (bs := f_read data pos n) in *.
    pose proof (len_nonneg bs) as Hbs.
    destruct (IH bs data (pos + len bs) a pos' ltac:(lia) Hrun s m i Hin Hi)
      as (Hle & Hnth & Halt).
    split; [lia|]. split; [assumption|].
    intros b Hb.
    assert (Hlt : 0 <= i < len data).
    { unfold len. split; [lia|].
      assert (Z.to_nat i < length data)%nat; [|lia].
      apply nth_error_Some. congruence. }
    rewrite f_read_alter by (fold bs; lia || assumption).
    fold bs. apply Halt, Hb.
  - set (bs := f_read data pos n) in *.
    pose proof (len_nonneg bs) as Hbs.
    destruct (list_eqb bs (repeat PAD_BYTE (Z.to_nat n))) eqn:Eq;
      [|discriminate].
    apply list_eqb_eq in Eq.
    destruct Hin as [Hhd|Hin].
    + injection Hhd as <- <-.
      assert (Hj : (Z.to_nat i - Z.to_nat pos < Z.to_nat n)%nat) by lia.
      assert (Hnth : nth_error data (Z.to_nat i) = Some PAD_BYTE).
      { replace (Z.to_nat i)
          with (Z.to_nat pos + (Z.to_nat i - Z.to_nat pos))%nat by lia.
        rewrite <- (nth_error_f_read data pos n) by assumption.
        fold bs. rewrite Eq. apply nth_error_repeat. assumption. }
      split; [lia|]. split; [assumption|].
      intros b Hb.
      assert (Hlt : 0 <= i < len data).
      { unfold len. split; [lia|].
        assert (Z.to_nat i < length data)%nat; [|lia].
        apply nth_error_Some. congruence. }
      destruct (list_eqb (f_read (alter data i b) pos n)
                         (repeat PAD_BYTE (Z.to_nat n))) eqn:Eq'.
      * exfalso. apply list_eqb_eq in Eq'.
        assert (E : nth_error (f_read (alter data i b) pos n)
                              (Z.to_nat i - Z.to_nat pos) = Some b).
        { rewrite nth_error_f_read by assumption.
          rewrite nth_error_alter by assumption.
          replace (Z.to_nat pos + (Z.to_nat i - Z.to_nat pos))%nat
            with (Z.to_nat i) by lia.
          now rewrite Nat.eqb_refl. }
        rewrite Eq', nth_error_repeat in E by assumption. congruence.
      * eexists; reflexivity.
    + destruct (IH data (pos + len bs) a pos' ltac:(lia) Hrun s m i Hin Hi)
        as (Hle & Hnth & Halt).
      split; [lia|]. split; [assumption|].
      intros b Hb.
      assert (Hlt : 0 <= i < len data).
      { unfold len. split; [lia|].
        assert (Z.to_nat i < length data)%nat; [|lia].
        apply nth_error_Some. congruence. }
      rewrite f_read_alter by (fold bs; lia || assumption).
      fold bs.
      assert (Et : list_eqb bs (repeat PAD_BYTE (Z.to_nat n)) = true)
        by now apply list_eqb_eq.
      rewrite Et. apply Halt, Hb.
Qed.

(** ** Calls that return *)

Lemma run_lift_returned {A} (r : result A) data pos a pos' :
  run (lift r) data pos = Returned a pos' -> r = Ok a /\ pos' = pos.
Proof. destruct r; simpl; intros E; inversion E; auto. Qed.

Lemma run_check_int_returned actual expected msg data pos u pos' :
  run (check_int actual expected msg) data pos = Returned u pos' ->
  actual = expected /\ pos' = pos.
Proof.
  unfold check_int. destruct (Z.eqb_spec actual expected); simpl;
    intros E; inversion E; auto.
Qed.

Lemma run_local_returned {A} name (v : option A) data pos a pos' :
  run (CompressedClip.local name v) data pos = Returned a pos' ->
  v = Some a /\ pos' = pos.
Proof. destruct v; simpl; intros E; inversion E; auto. Qed.

Lemma rmap_length {A B} (f : A -> result B) l l' :
  rmap f l = Ok l' -> length l' = length l.
Proof.
  revert l'; induction l as [|a l IH]; simpl; intros l' E.
  - inversion E; reflexivity.
  - destruct (f a); [|discriminate].
    destruct (rmap f l); [|discriminate].
    inversion E; subst; simpl. f_equal. now apply IH.
Qed.

Lemma length_chunks {A} n fuel (l : list A) :
  length (chunks n fuel l) = fuel.
Proof. revert l; induction fuel; simpl; intros; auto. Qed.

Lemma run_read_uint_array_returned n length data pos l pos' :
  run (read_uint_array n length) data pos = Returned l pos' ->
  0 <= length /\ len l = length.
Proof.
  unfold read_uint_array. destruct (Z.ltb_spec length 0); [discriminate|].
  simpl. destruct (len (f_read data pos (n * length)) =? n * length);
    simpl; intros E; inversion E; subst.
  split; [assumption|].
  unfold len. rewrite length_map, length_chunks. lia.
Qed.

Lemma run_read_times_returned {A} (p : reader A) n data pos l pos' :
  run (read_times p n) data pos = Returned l pos' -> length l = n.
Proof.
  revert pos l; induction n as [|n IH]; simpl; intros pos l E.
  - inversion E; reflexivity.
  - apply run_bind_returned in E. destruct E as (a & p1 & _ & E).
    apply run_bind_returned in E. destruct E as (l1 & p2 & E1 & E).
    simpl in E. inversion E; subst. simpl. f_equal. eapply IH; eauto.
Qed.

(** Steps through the code of a call that returned: each [x <- p ;; k]
    gives the value of [x] and the position after [p]. *)
Ltac run_step H :=
  let a := fresh "v" in
  let p := fresh "p" in
  let E := fresh "E" in
  apply run_bind_returned in H; destruct H as (a & p & E & H).

Ltac run_check E :=
  apply run_check_int_returned in E;
  let E1 := fresh "Echk" in
  let E2 := fresh "Epos" in
  destruct E as [E1 E2].

Tactic Notation "run_bind_in" hyp(H) "as" ident(a) ident(p) ident(E) :=
  apply run_bind_returned in H; destruct H as (a & p & E & H).

(** ** The loop over the segments *)

Section Segments.
Context {io : IoUtil}.
Variables (clip_header : ClipHeader.t)
          (segment_range_reduction : option string)
          (range_count : Z) (range_data : list RangeData.t).

Let segments := CompressedClip.read_segments clip_header
                  segment_range_reduction range_count range_data.
Let segment := CompressedClip.read_segment clip_header
                 segment_range_reduction range_count range_data.

Lemma run_read_segments_app hs h vars data pos :
  run (segments (hs ++ [h]) vars) data pos =
  match run (segments hs vars) data pos with
  | Returned vars' pos' => run (segment vars' h) data pos'
  | Raised e pos' => Raised e pos'
  end.
Proof.
  subst segments segment.
  revert vars pos; induction hs as [|h0 hs IH]; intros vars pos; simpl.
  - rewrite run_bind.
    destruct (run _ data pos); reflexivity.
  - rewrite !run_bind.
    destruct (run (CompressedClip.read_segment _ _ _ _ vars h0) data pos);
      [apply IH|reflexivity].
Qed.

(** An iteration that returns has read the bit rates and the track data
    it leaves in the locals, whatever the locals held before. *)
Lemma run_read_segment_returned vars h data pos vars' pos' :
  run (segment vars h) data pos = Returned vars' pos' ->
  exists bit_rates segment_range_data track_data,
    run (CompressedClip.read_segment_data clip_header
           segment_range_reduction range_count h) data pos
    = Returned (bit_rates, segment_range_data, track_data) pos'
    /\ CompressedClip.l_bit_rates vars' = Some bit_rates
    /\ CompressedClip.l_track_data vars' = Some track_data
    /\ CompressedClip.unpack_components
         (CompressedClip.binary_of track_data) (sum bit_rates * 3)
         (SegmentHeader.num_samples h) segment_range_data
         (zip3 bit_rates range_data (range range_count)) 0
         (CompressedClip.l_max_int vars)
         (CompressedClip.l_bone_track_floats vars)
       = Ok (CompressedClip.l_max_int vars',
             CompressedClip.l_bone_track_floats vars').
Proof.
  subst segment. unfold CompressedClip.read_segment. intros H.
  run_step H. destruct v as [[bit_rates srd] track_data].
  run_step H. destruct v as [max_int floats].
  apply run_lift_returned in E0. destruct E0 as [E0 ->].
  simpl in H. inversion H; subst; simpl.
  exists bit_rates, srd, track_data. auto.
Qed.

End Segments.

(** ** The stages of [read] *)

Section Stages.
Context {io : IoUtil}.

Lemma run_read_returned data pos clip pos' :
  run CompressedClip.read data pos = Returned clip pos' ->
  exists ctx pos1 vars pos2,
    run CompressedClip.read_tracks data pos = Returned ctx pos1
    /\ run (CompressedClip.read_segments
              (CompressedClip.c_clip_header ctx)
              (CompressedClip.c_segment_range_reduction ctx)
              (CompressedClip.c_range_count ctx)
              (CompressedClip.c_range_data ctx)
              (CompressedClip.c_segment_headers ctx)
              (CompressedClip.init_locals
                 (CompressedClip.c_range_count ctx))) data pos1
       = Returned vars pos2
    /\ run (CompressedClip.read_finish ctx vars) data pos2
       = Returned clip pos'.
Proof.
  unfold CompressedClip.read. intros H.
  run_step H. run_step H. eauto 8.
Qed.

Lemma run_read_finish_returned ctx vars data pos clip pos' :
  run (CompressedClip.read_finish ctx vars) data pos = Returned clip pos' ->
  CompressedClip.segment_headers clip = CompressedClip.c_segment_headers ctx
  /\ CompressedClip.clip_header clip = CompressedClip.c_clip_header ctx
  /\ CompressedClip.l_bit_rates vars = Some (CompressedClip.bit_rates clip)
  /\ CompressedClip.l_track_data vars
     = Some (CompressedClip.track_data clip)
  /\ CompressedClip.set_tracks_data (CompressedClip.c_bone_tracks ctx)
       (CompressedClip.l_bone_track_floats vars) 0
     = (CompressedClip.bone_tracks clip,
        len (CompressedClip.l_bone_track_floats vars))
  /\ pos' = pos + 15
  /\ padding_runs (CompressedClip.read_finish ctx vars) data pos
     = [(pos, 15)].
Proof.
  unfold CompressedClip.read_finish.
  destruct (CompressedClip.set_tracks_data _ _ 0) as [bone_tracks idx].
  intros H.
  rewrite padding_runs_bind.
  run_step H. run_check E. subst p. rewrite Echk.
  unfold check_int at 1 2. rewrite Z.eqb_refl.
  cbn [run padding_runs app] in *.
  destruct (list_eqb (f_read data pos 15) (repeat PAD_BYTE (Z.to_nat 15)))
    eqn:Eq; [|discriminate].
  apply list_eqb_eq in Eq.
  assert (El : len (f_read data pos 15) = 15)
    by (rewrite Eq; reflexivity).
  rewrite El in *.
  cbn [bind] in H. cbn [run] in H.
  run_step H. run_check E.
  run_step H. apply run_local_returned in E. destruct E as [E1 ->].
  run_step H. apply run_local_returned in E. destruct E as [E2 ->].
  simpl in H. inversion H; subst; simpl.
  repeat split; auto.
  rewrite !padding_runs_bind. simpl.
  unfold check_int. destruct (_ =? _); simpl; [|reflexivity].
  rewrite !padding_runs_bind.
  destruct (CompressedClip.l_bit_rates vars); simpl; [|reflexivity].
  destruct (CompressedClip.l_track_data vars); reflexivity.
Qed.

End Stages.

(* ================================================================== *)
(** * The bit rates kept on the clip (C9) *)
(* ================================================================== *)

(** C9.  After a decode of a clip with at least one segment, the field
    [bit_rates] of the clip is the table read in the iteration for the
    last segment header: with [hs] the headers before the last one [h],
    the loop over [hs] ends at some position [pos2] and [bit_rates] is
    what the iteration for [h] reads from there. *)
Theorem C9_bit_rates_of_last_segment :
  forall (io : IoUtil) data pos clip pos' hs h,
    run CompressedClip.read data pos = Returned clip pos' ->
    CompressedClip.segment_headers clip = hs ++ [h] ->
    exists ctx pos1 vars pos2 segment_range_data pos3,
      run CompressedClip.read_tracks data pos = Returned ctx pos1
      /\ run (CompressedClip.read_segments
                (CompressedClip.c_clip_header ctx)
                (CompressedClip.c_segment_range_reduction ctx)
                (CompressedClip.c_range_count ctx)
                (CompressedClip.c_range_data ctx) hs
                (CompressedClip.init_locals
                   (CompressedClip.c_range_count ctx))) data pos1
         = Returned vars pos2
      /\ run (CompressedClip.read_segment_data
                (CompressedClip.c_clip_header ctx)
                (CompressedClip.c_segment_range_reduction ctx)
                (CompressedClip.c_range_count ctx) h) data pos2
         = Returned (CompressedClip.bit_rates clip, segment_range_data,
                     CompressedClip.track_data clip) pos3.
Proof.
  intros io data pos clip pos' hs h Hrun Hsegs.
  destruct (run_read_returned _ _ _ _ Hrun)
    as (ctx & pos1 & vars & pos2 & E1 & E2 & E3).
  apply run_read_finish_returned in E3.
  destruct E3 as (Hsh & _ & Hbr & Htd & _).
  rewrite <- Hsh, Hsegs, run_read_segments_app in E2.
  destruct (run (CompressedClip.read_segments _ _ _ _ hs _) data pos1)
    as [vars1 p2|] eqn:Eloop; [|discriminate].
  apply run_read_segment_returned in E2.
  destruct E2 as (br & srd & td & Eseg & Ebr & Etd & _).
  assert (br = CompressedClip.bit_rates clip) by congruence.
  assert (td = CompressedClip.track_data clip) by congruence.
  subst br td.
  exists ctx, pos1, vars1, p2, srd, pos2. auto.
Qed.

Lemma C9_bit_rates_of_last_segment_witness :
  exists clip,
    run (@CompressedClip.read sample_io) two_segment_clip 0
    = Returned clip 145
    /\ CompressedClip.bit_rates clip = [4]
    /\ exists ctx pos1 vars pos2 segment_range_data pos3,
         run (@CompressedClip.read_tracks sample_io) two_segment_clip 0
         = Returned ctx pos1
         /\ run (@CompressedClip.read_segments sample_io
                   (CompressedClip.c_clip_header ctx)
                   (CompressedClip.c_segment_range_reduction ctx)
                   (CompressedClip.c_range_count ctx)
                   (CompressedClip.c_range_data ctx)
                   [SegmentHeader.of_bytes 48
                      (SegmentHeader.to_bytes (sample_segment 1 104 106 108))]
                   (CompressedClip.init_locals
                      (CompressedClip.c_range_count ctx)))
                two_segment_clip pos1
            = Returned vars pos2
         /\ CompressedClip.l_bit_rates vars = Some [8]
         /\ run (@CompressedClip.read_segment_data sample_io
                   (CompressedClip.c_clip_header ctx)
                   (CompressedClip.c_segment_range_reduction ctx)
                   (CompressedClip.c_range_count ctx)
                   (SegmentHeader.of_bytes 68
                      (SegmentHeader.to_bytes (sample_segment 1 111 112 112))))
                two_segment_clip pos2
            = Returned (CompressedClip.bit_rates clip, segment_range_data,
                        CompressedClip.track_data clip) pos3.
Proof.
  destruct (run (@CompressedClip.read sample_io) two_segment_clip 0)
    as [clip p|e p] eqn:Erun; [|vm_compute in Erun; discriminate].
  exists clip.
  assert (Ep : p = 145) by (vm_compute in Erun; congruence). subst p.
  split; [reflexivity|].
  split; [vm_compute in Erun; inversion Erun; reflexivity|].
  destruct (C9_bit_rates_of_last_segment sample_io two_segment_clip 0 clip 145
              [SegmentHeader.of_bytes 48
                 (SegmentHeader.to_bytes (sample_segment 1 104 106 108))]
              (SegmentHeader.of_bytes 68
                 (SegmentHeader.to_bytes (sample_segment 1 111 112 112)))
              Erun
              ltac:(vm_compute in Erun; inversion Erun; reflexivity))
    as (ctx & pos1 & vars & pos2 & srd & pos3 & E1 & E2 & E3).
  exists ctx, pos1, vars, pos2, srd, pos3.
  repeat split; try assumption.
  vm_compute in E1. inversion E1; subst. clear E1.
  vm_compute in E2. inversion E2; subst. reflexivity.
Defined.

(* ================================================================== *)
(** * What [read] has computed when it reaches the segments *)
(* ================================================================== *)

Lemma run_read_tracks_returned {io : IoUtil} data pos ctx pos' :
  run CompressedClip.read_tracks data pos = Returned ctx pos' ->
  let h := CompressedClip.c_clip_header ctx in
  let num_attributes := 2 + ClipHeader.has_scale h in
  CompressedClip.set_tracks_flags (range (ClipHeader.num_bones h))
    (CompressedClip.get_tracks_flags
       (CompressedClip.c_default_tracks_bitset ctx)
       (ClipHeader.num_bones h) num_attributes)
    (CompressedClip.get_tracks_flags
       (CompressedClip.c_constant_tracks_bitset ctx)
       (ClipHeader.num_bones h) num_attributes)
    num_attributes (CompressedClip.c_constant_tracks_data ctx) 0 0
  = (CompressedClip.c_bone_tracks ctx, CompressedClip.c_constant_count ctx,
     CompressedClip.c_range_count ctx)
  /\ len (CompressedClip.c_constant_tracks_data ctx)
     = ClipHeader.get_constant_tracks_data_size h / 4
  /\ length (CompressedClip.c_range_data ctx)
     = Z.to_nat (CompressedClip.c_range_count ctx)
  /\ CompressedClip.check_formats h
     = Ok (CompressedClip.c_segment_range_reduction ctx)
  /\ CompressedClip.c_offset ctx = pos.
Proof.
  unfold CompressedClip.read_tracks. intros H.
  run_bind_in H as pre p0 Epre. destruct pre as [[offset size] data_hash].
  run_bind_in H as clip_header p1 Ehdr.
  run_bind_in H as segment_headers p2 Esegs.
  run_bind_in H as segment_range_reduction p3 Efmt.
  apply run_lift_returned in Efmt. destruct Efmt as [Efmt ->].
  run_bind_in H as default_tracks_bitset p4 Edef.
  run_bind_in H as constant_tracks_bitset p5 Econ.
  run_bind_in H as constant_tracks_data p6 Ecd.
  destruct (CompressedClip.set_tracks_flags _ _ _ _ _ 0 0)
    as [[bone_tracks constant_count] range_count] eqn:Eflags.
  run_bind_in H as pos0 p7 Etell.
  run_bind_in H as u p8 Echeck.
  run_bind_in H as range_data p9 Erd.
  simpl in H. inversion H; subst; simpl. clear H.
  split; [exact Eflags|].
  split.
  { unfold read_float32_array in Ecd.
    run_bind_in Ecd as ws pw Ews.
    apply run_read_uint_array_returned in Ews.
    simpl in Ecd. inversion Ecd; subst.
    unfold len in *. rewrite length_map. apply Ews. }
  split.
  { unfold read_array in Erd.
    now apply run_read_times_returned in Erd. }
  split; [exact Efmt|].
  unfold CompressedClip.read_preamble in Epre.
  run_bind_in Epre as off q0 Eoff. simpl in Eoff. inversion Eoff; subst.
  repeat (run_step Epre). simpl in Epre. inversion Epre; reflexivity.
Qed.

(* ================================================================== *)
(** * A bit rate of 0 before [max_int] is assigned (C10) *)
(* ================================================================== *)

Lemma run_padding_returned {A} n (k : reader A) data pos a pos' :
  run (Padding n k) data pos = Returned a pos' ->
  f_read data pos n = repeat PAD_BYTE (Z.to_nat n)
  /\ run k data (pos + len (f_read data pos n)) = Returned a pos'.
Proof.
  simpl. destruct (list_eqb _ _) eqn:Eq; [|discriminate].
  apply list_eqb_eq in Eq. auto.
Qed.

(** The bit rates an iteration reads are as many as [range_count]. *)
Lemma run_read_segment_data_returned {io : IoUtil} clip_header
      segment_range_reduction range_count h data pos
      bit_rates segment_range_data track_data pos' :
  run (CompressedClip.read_segment_data clip_header segment_range_reduction
         range_count h) data pos
  = Returned (bit_rates, segment_range_data, track_data) pos' ->
  0 <= range_count /\ len bit_rates = range_count.
Proof.
  unfold CompressedClip.read_segment_data. intros H.
  run_bind_in H as u0 p0 Echk.
  run_bind_in H as raw p1 Eraw.
  run_bind_in H as rates p2 Erates.
  run_bind_in H as pos1 p3 Etell.
  apply run_padding_returned in H. destruct H as [_ H].
  run_bind_in H as srd p4 Esrd.
  run_bind_in H as pos2 p5 Etell2.
  apply run_padding_returned in H. destruct H as [_ H].
  run_bind_in H as u1 p6 Echk2.
  run_bind_in H as td p7 Etd.
  simpl in H. inversion H; subst. clear H.
  apply run_read_uint_array_returned in Eraw. destruct Eraw as [Hrc Hraw].
  apply run_lift_returned in Erates. destruct Erates as [Erates _].
  apply rmap_length in Erates.
  split; [assumption|]. unfold len in *. lia.
Qed.

(** With no [max_int] assigned, a component of bit rate 0 raises as soon
    as there is a sample to normalize. *)
Lemma unpack_component_zero_unassigned binary track_data_size num_samples
      segment_range_data idx rd rid :
  0 < num_samples ->
  CompressedClip.unpack_component binary track_data_size num_samples
    segment_range_data None idx 0 rd rid
  = Err (NameError "max_int").
Proof.
  intros Hn. unfold CompressedClip.unpack_component.
  cbn [Z.eqb negb rbind].
  unfold list_mul.
  destruct (Z.to_nat num_samples) as [|k] eqn:Ek; [lia|].
  reflexivity.
Qed.

(** C10, as the code has it: when the first range-reduced component of
    the first segment has bit rate 0 and the segment has at least one
    sample, decode raises the [NameError] of the unassigned local
    [max_int], at the end of what the iteration reads of the file. *)
Theorem C10_zero_bit_rate_first :
  forall (io : IoUtil) data pos ctx pos1 h rest bit_rates
         segment_range_data track_data pos2,
    run CompressedClip.read_tracks data pos = Returned ctx pos1 ->
    CompressedClip.c_segment_headers ctx = h :: rest ->
    run (CompressedClip.read_segment_data
           (CompressedClip.c_clip_header ctx)
           (CompressedClip.c_segment_range_reduction ctx)
           (CompressedClip.c_range_count ctx) h) data pos1
    = Returned (0 :: bit_rates, segment_range_data, track_data) pos2 ->
    0 < SegmentHeader.num_samples h ->
    run CompressedClip.read data pos = Raised (NameError "max_int") pos2.
Proof.
  intros io data pos ctx pos1 h rest bit_rates srd td pos2 Htr Hsegs Hseg Hn.
  pose proof (run_read_tracks_returned _ _ _ _ Htr) as (_ & _ & Hrd & _).
  pose proof (run_read_segment_data_returned _ _ _ _ _ _ _ _ _ _ Hseg)
    as [Hrc Hlen].
  unfold len in Hlen. cbn [length] in Hlen.
  unfold CompressedClip.read.
  rewrite run_bind, Htr, run_bind, Hsegs. cbn [CompressedClip.read_segments].
  rewrite run_bind. unfold CompressedClip.read_segment at 1.
  rewrite run_bind, Hseg. rewrite run_bind, run_lift.
  destruct (CompressedClip.c_range_data ctx) as [|rd rds]; [simpl in Hrd; lia|].
  unfold range.
  destruct (Z.to_nat (CompressedClip.c_range_count ctx)) as [|k] eqn:Ek;
    [lia|].
  cbn [seq map zip3 combine CompressedClip.unpack_components
       CompressedClip.init_locals CompressedClip.l_max_int].
  rewrite unpack_component_zero_unassigned by assumption.
  reflexivity.
Qed.

Lemma C10_zero_bit_rate_first_witness :
  run (@CompressedClip.read sample_io) zero_rate_clip 0
  = Raised (NameError "max_int") 104.
Proof.
  destruct (run (@CompressedClip.read_tracks sample_io) zero_rate_clip 0)
    as [ctx p1|e p1] eqn:Etr; [|vm_compute in Etr; discriminate].
  assert (Ep : p1 = 100) by (vm_compute in Etr; congruence). subst p1.
  apply (C10_zero_bit_rate_first sample_io zero_rate_clip 0 ctx 100
           (SegmentHeader.of_bytes 48
              (SegmentHeader.to_bytes (sample_segment 1 84 86 88)))
           [] [] [None] []).
  - exact Etr.
  - vm_compute in Etr. inversion Etr. reflexivity.
  - vm_compute in Etr. inversion Etr. vm_compute. reflexivity.
  - reflexivity.
Defined.

(** The counterexample to C10 as stated: the first component of the first
    segment has bit rate 0, the segment has no sample, and decode returns
    a clip. *)
Lemma C10_counterexample :
  exists clip,
    run (@CompressedClip.read sample_io) zero_rate_empty_clip 0
    = Returned clip 119
    /\ CompressedClip.bit_rates clip = [0].
Proof.
  destruct (run (@CompressedClip.read sample_io) zero_rate_empty_clip 0)
    as [clip p|e p] eqn:Erun; [|vm_compute in Erun; discriminate].
  exists clip.
  vm_compute in Erun. inversion Erun. split; reflexivity.
Qed.

(* ================================================================== *)
(** * The clip-range-reduction flag (C6) *)
(* ================================================================== *)

(** A flag of the table other than [AllTracks] is rejected with the
    [RuntimeError] of [read]. *)
Lemma check_formats_flag_in_table (h : ClipHeader.t) :
  0 <= ClipHeader.clip_range_reduction h < 7 ->
  exists name,
    CompressedClip.check_formats h
    = Err (CompressedClip.unsupported "clip range reduction" name).
Proof.
  intros Hc. unfold CompressedClip.check_formats.
  assert (Hcase : ClipHeader.clip_range_reduction h = 0
                  \/ ClipHeader.clip_range_reduction h = 1
                  \/ ClipHeader.clip_range_reduction h = 2
                  \/ ClipHeader.clip_range_reduction h = 3
                  \/ ClipHeader.clip_range_reduction h = 4
                  \/ ClipHeader.clip_range_reduction h = 5
                  \/ ClipHeader.clip_range_reduction h = 6) by lia.
  destruct Hcase as [E|[E|[E|[E|[E|[E|E]]]]]]; rewrite E;
    eexists; reflexivity.
Qed.

(** A flag beyond the table makes the lookup itself raise. *)
Lemma check_formats_flag_out_of_table (h : ClipHeader.t) :
  8 <= ClipHeader.clip_range_reduction h ->
  CompressedClip.check_formats h = Err IndexError.
Proof.
  intros Hc. unfold CompressedClip.check_formats, index.
  destruct (Z.ltb_spec (ClipHeader.clip_range_reduction h) 0); [lia|].
  destruct (nth_error ClipHeader.RANGE_REDUCTION_FLAGS
                      (Z.to_nat (ClipHeader.clip_range_reduction h)))
    eqn:En; [|reflexivity].
  assert (Hlt : (Z.to_nat (ClipHeader.clip_range_reduction h)
                 < length ClipHeader.RANGE_REDUCTION_FLAGS)%nat)
    by (apply nth_error_Some; congruence).
  simpl in Hlt. lia.
Qed.

(** C6, where the code departs from it: the record [bad_flag_clip] has the
    clip-range-reduction flag 8, which is not [AllTracks]; decode stops at
    the end of the segment headers (position 68), but with the
    [IndexError] of the table lookup, not with the [RuntimeError] that
    rejects an unsupported clip. *)
Theorem C6_flag_beyond_table_raises_IndexError :
  run (@CompressedClip.read sample_io) bad_flag_clip 0 = Raised IndexError 68
  /\ ClipHeader.clip_range_reduction
       (ClipHeader.of_bytes 16 (firstn 32 (skipn 16 bad_flag_clip))) = 8.
Proof. split; vm_compute; reflexivity. Qed.

(** For comparison, the same record with the flag of [Rotations]. *)
Example flag_in_table_raises_RuntimeError :
  run (@CompressedClip.read sample_io)
      (sample_record (sample_header 1 1 0 1 0) [sample_segment 1 60 60 60]
         (flags_word 6 ++ flags_word 6)) 0
  = Raised (RuntimeError
              "Unsupported animation clip (clip range reduction: Rotations)")
           68.
Proof. vm_compute. reflexivity. Qed.

(* ================================================================== *)
(** * Round trip (C1) *)
(* ================================================================== *)

(** C1, where the code departs from it: [static_clip] decodes, and
    [write] of the decoded clip gives four bytes more than the record
    has: with no range-reduced component, [write] still puts
    [4 - 0 % 4 = 4] bytes of padding after the (empty) bit rates, where
    [read] consumed none. *)
Theorem C1_round_trip_fails_on_static_clip :
  exists clip out,
    run (@CompressedClip.read sample_io) static_clip 0 = Returned clip 91
    /\ CompressedClip.write clip = Ok out
    /\ len static_clip = 91
    /\ len out = 95
    /\ out <> static_clip.
Proof.
  destruct (run (@CompressedClip.read sample_io) static_clip 0)
    as [clip p|e p] eqn:Erun; [|vm_compute in Erun; discriminate].
  destruct (CompressedClip.write clip) as [out|e] eqn:Ew.
  - exists clip, out.
    vm_compute in Erun. inversion Erun; subst. clear Erun.
    vm_compute in Ew. inversion Ew; subst. clear Ew.
    repeat split; try reflexivity.
    intros E. apply (f_equal (@length Z)) in E. vm_compute in E.
    discriminate.
  - exfalso. vm_compute in Erun. inversion Erun; subst. clear Erun.
    vm_compute in Ew. discriminate.
Qed.

(** A record with one range-reduced component does come back from
    [write] byte for byte. *)
Example round_trip_unit_clip :
  match run (@CompressedClip.read sample_io) unit_clip 0 with
  | Returned clip _ => CompressedClip.write clip = Ok unit_clip
  | Raised _ _ => False
  end.
Proof. vm_compute. reflexivity. Qed.

(* ================================================================== *)
(** * The count of range-reduced components (C2) *)
(* ================================================================== *)

(** The counterexample to C2 as stated: the bone of [default_only_clip]
    has its rotation flagged default and not constant; [get_range_count]
    counts three components where two are neither default nor constant. *)
Lemma C2_counterexample :
  exists clip tr,
    run (@CompressedClip.read sample_io) default_only_clip 0
    = Returned clip 176
    /\ CompressedClip.bone_tracks clip = [tr]
    /\ BoneTrack.use_default tr = [true; false; false]
    /\ BoneTrack.use_constant tr = [false; false; false]
    /\ BoneTrack.get_range_count tr = 3
    /\ neither_count tr = 2.
Proof.
  destruct (run (@CompressedClip.read sample_io) default_only_clip 0)
    as [clip p|e p] eqn:Erun; [|vm_compute in Erun; discriminate].
  vm_compute in Erun. inversion Erun; subst. clear Erun.
  eexists. eexists. repeat split; reflexivity.
Qed.

(** C2, as the code has it: [get_range_count] is 3 minus the number of
    components flagged constant, whatever the default flags; on a track
    with three flags of each kind whose default components are all flagged
    constant too, that is the number of components that are neither
    default nor constant. *)
Theorem C2_range_count :
  forall tr : BoneTrack.t,
    BoneTrack.get_range_count tr
    = 3 - len (filter (fun b : bool => b) (BoneTrack.use_constant tr))
    /\ (length (BoneTrack.use_default tr) = 3%nat ->
        length (BoneTrack.use_constant tr) = 3%nat ->
        (forall k, nth k (BoneTrack.use_default tr) false = true ->
                   nth k (BoneTrack.use_constant tr) false = true) ->
        BoneTrack.get_range_count tr = neither_count tr).
Proof.
  intros [ud uc cl td]. unfold BoneTrack.get_range_count, neither_count.
  cbn [BoneTrack.use_default BoneTrack.use_constant].
  assert (Hsum : forall (l : list bool) acc,
             fold_left Z.add (map (fun b : bool => if b then 1 else 0) l) acc
             = acc + len (filter (fun b : bool => b) l)).
  { induction l as [|b l IH]; intros acc; cbn [map fold_left filter].
    - unfold len; simpl; lia.
    - rewrite IH. destruct b; unfold len; cbn [length]; lia. }
  split.
  - unfold sum. rewrite Hsum. lia.
  - intros Hd Hc Himp.
    destruct ud as [|d0 [|d1 [|d2 [|]]]]; try discriminate.
    destruct uc as [|c0 [|c1 [|c2 [|]]]]; try discriminate.
    pose proof (Himp 0%nat) as H0. pose proof (Himp 1%nat) as H1.
    pose proof (Himp 2%nat) as H2. cbn [nth] in H0, H1, H2.
    destruct d0, c0; try (specialize (H0 eq_refl); discriminate);
      destruct d1, c1; try (specialize (H1 eq_refl); discriminate);
      destruct d2, c2; try (specialize (H2 eq_refl); discriminate);
      reflexivity.
Qed.

Lemma C2_range_count_witness :
  BoneTrack.get_range_count
    (BoneTrack.mk [true; false; false] [true; true; false] [] [])
  = neither_count
      (BoneTrack.mk [true; false; false] [true; true; false] [] []).
Proof.
  apply (C2_range_count
           (BoneTrack.mk [true; false; false] [true; true; false] [] [])).
  - reflexivity.
  - reflexivity.
  - intros [|[|[|k]]]; cbn [nth BoneTrack.use_default BoneTrack.use_constant];
      try reflexivity; try discriminate.
    destruct k; discriminate.
Defined.

(* ================================================================== *)
(** * The constants of the tracks (C3) *)
(* ================================================================== *)

Lemma slice_nonneg {A} (l : list A) a b :
  0 <= a -> 0 <= b ->
  slice l a b = firstn (Z.to_nat b - Z.to_nat a) (skipn (Z.to_nat a) l).
Proof.
  intros Ha Hb. unfold slice, slice_bound, len.
  destruct (Z.ltb_spec a 0); [lia|]. destruct (Z.ltb_spec b 0); [lia|].
  destruct (Z.le_gt_cases a (Z.of_nat (length l))) as [Hal|Hal].
  - rewrite (Z.min_l a) by assumption.
    destruct (Z.le_gt_cases b (Z.of_nat (length l))) as [Hbl|Hbl].
    + rewrite (Z.min_l b) by assumption. f_equal. lia.
    + rewrite (Z.min_r b) by lia.
      rewrite !firstn_all2; auto; rewrite length_skipn; lia.
  - rewrite (Z.min_r a) by lia.
    rewrite !skipn_all2 by lia. now rewrite !firstn_nil.
Qed.

Lemma firstn_plus {A} (n m : nat) (l : list A) :
  firstn (n + m) l = firstn n l ++ firstn m (skipn n l).
Proof.
  revert l; induction n as [|n IH]; intros [|a l]; simpl;
    try reflexivity.
  - now rewrite firstn_nil.
  - now rewrite IH.
Qed.

Lemma slice_app {A} (l : list A) a b c :
  0 <= a <= b -> b <= c -> slice l a b ++ slice l b c = slice l a c.
Proof.
  intros Hab Hbc. rewrite !slice_nonneg by lia.
  replace (Z.to_nat c - Z.to_nat a)%nat
    with ((Z.to_nat b - Z.to_nat a) + (Z.to_nat c - Z.to_nat b))%nat by lia.
  rewrite firstn_plus, skipn_skipn. do 3 f_equal. lia.
Qed.

Lemma sum_cons a l : sum (a :: l) = a + sum l.
Proof.
  unfold sum. simpl.
  assert (H : forall l x y, fold_left Z.add l (x + y)
                            = x + fold_left Z.add l y).
  { clear. induction l as [|b l IH]; intros x y; simpl; [reflexivity|].
    rewrite <- IH. f_equal. lia. }
  rewrite <- H. f_equal. lia.
Qed.

Lemma get_constant_count_nonneg tr : 0 <= BoneTrack.get_constant_count tr.
Proof. unfold BoneTrack.get_constant_count, len. lia. Qed.

(** The loop over the bones: the cursor into the constant data advances
    by what each bone demands, and each bone is given the slice at the
    cursor; nothing depends on the length of the data. *)
Lemma set_tracks_flags_constants idxs dflags cflags na cdata :
  forall cc rc tracks cc' rc',
    0 <= cc ->
    CompressedClip.set_tracks_flags idxs dflags cflags na cdata cc rc
    = (tracks, cc', rc') ->
    cc' = cc + sum (map BoneTrack.get_constant_count tracks)
    /\ concat (map BoneTrack.constant_list tracks) = slice cdata cc cc'
    /\ rc' = rc + sum (map BoneTrack.get_range_count tracks)
    /\ length tracks = length idxs.
Proof.
  induction idxs as [|i idxs IH]; intros cc rc tracks cc' rc' Hcc H.
  - simpl in H. inversion H; subst. simpl.
    repeat split; try (unfold sum; simpl; lia).
    rewrite slice_nonneg by lia. rewrite Nat.sub_diag. reflexivity.
  - cbn [CompressedClip.set_tracks_flags] in H.
    unfold BoneTrack.set_constants in H.
    set (tr0 := BoneTrack.set_use_constant _ _) in H.
    set (n := BoneTrack.get_constant_count tr0) in H.
    set (tr := BoneTrack.mk _ _ _ _) in H.
    assert (Hn : 0 <= n) by apply get_constant_count_nonneg.
    destruct (CompressedClip.set_tracks_flags idxs dflags cflags na cdata
                (cc + n) (rc + BoneTrack.get_range_count tr))
      as [[tracks1 cc1] rc1] eqn:Erec.
    inversion H; subst. clear H.
    assert (Hcn : 0 <= cc + n) by lia.
    destruct (IH _ _ _ _ _ Hcn Erec) as (Hcc1 & Hcat & Hrc1 & Hlen).
    assert (Etr : BoneTrack.get_constant_count tr = n) by reflexivity.
    pose proof (get_constant_count_nonneg tr).
    assert (Hs : 0 <= sum (map BoneTrack.get_constant_count tracks1)).
    { clear. induction tracks1 as [|t l IH]; [unfold sum; simpl; lia|].
      cbn [map]. rewrite sum_cons.
      pose proof (get_constant_count_nonneg t). lia. }
    cbn [map concat length]. rewrite !sum_cons, Etr.
    repeat split; try lia.
    rewrite Hcat. change (BoneTrack.constant_list tr)
      with (slice cdata cc (cc + n)).
    apply slice_app; lia.
Qed.

(** The last loop of [read] leaves the flags and the constants of the
    tracks as they are. *)
Lemma set_tracks_data_keeps tracks floats :
  forall idx tracks' idx',
    CompressedClip.set_tracks_data tracks floats idx = (tracks', idx') ->
    map BoneTrack.constant_list tracks' = map BoneTrack.constant_list tracks
    /\ map BoneTrack.get_constant_count tracks'
       = map BoneTrack.get_constant_count tracks
    /\ map BoneTrack.use_default tracks' = map BoneTrack.use_default tracks
    /\ map BoneTrack.use_constant tracks' = map BoneTrack.use_constant tracks.
Proof.
  induction tracks as [|tr tracks IH]; intros idx tracks' idx' H.
  - simpl in H. inversion H; subst. auto.
  - cbn [CompressedClip.set_tracks_data] in H.
    unfold BoneTrack.set_track_data in H.
    destruct (CompressedClip.set_tracks_data tracks floats _)
      as [tracks1 idx1] eqn:Erec.
    inversion H; subst. clear H.
    destruct (IH _ _ _ Erec) as (H1 & H2 & H3 & H4).
    cbn [map]. rewrite H1, H2, H3, H4. auto.
Qed.

(** The counterexample to C3 as stated: the flags of
    [short_constants_clip] demand six constant floats, its constant-data
    section is empty, and decode returns a clip. *)
Lemma C3_counterexample :
  exists clip,
    run (@CompressedClip.read sample_io) short_constants_clip 0
    = Returned clip 91
    /\ sum (map BoneTrack.get_constant_count
                (CompressedClip.bone_tracks clip)) = 6
    /\ ClipHeader.get_constant_tracks_data_size
         (CompressedClip.clip_header clip) / 4 = 0.
Proof.
  destruct (run (@CompressedClip.read sample_io) short_constants_clip 0)
    as [clip p|e p] eqn:Erun; [|vm_compute in Erun; discriminate].
  vm_compute in Erun. inversion Erun; subst. clear Erun.
  eexists. repeat split; reflexivity.
Qed.

(** C3, as the code has it: decode does not compare the number [D] of
    constant floats that the flags demand (the sum of
    [get_constant_count] over the bones) with the length [N] of the
    constant-data section (its size divided by 4).  On every decode that
    succeeds, the constants given to the bones are, in bone order, the
    first [D] floats of the section, or all of them when [D] exceeds
    [N]. *)
Theorem C3_constants_given_to_bones :
  forall (io : IoUtil) data pos clip pos',
    run CompressedClip.read data pos = Returned clip pos' ->
    exists ctx pos1,
      run CompressedClip.read_tracks data pos = Returned ctx pos1
      /\ len (CompressedClip.c_constant_tracks_data ctx)
         = ClipHeader.get_constant_tracks_data_size
             (CompressedClip.clip_header clip) / 4
      /\ CompressedClip.c_constant_count ctx
         = sum (map BoneTrack.get_constant_count
                    (CompressedClip.bone_tracks clip))
      /\ concat (map BoneTrack.constant_list
                     (CompressedClip.bone_tracks clip))
         = firstn (Z.to_nat (CompressedClip.c_constant_count ctx))
                  (CompressedClip.c_constant_tracks_data ctx).
Proof.
  intros io data pos clip pos' Hrun.
  destruct (run_read_returned _ _ _ _ Hrun)
    as (ctx & pos1 & vars & pos2 & E1 & E2 & E3).
  exists ctx, pos1. split; [exact E1|].
  apply run_read_finish_returned in E3.
  destruct E3 as (_ & Hh & _ & _ & Hset & _).
  pose proof (run_read_tracks_returned _ _ _ _ E1)
    as (Hflags & Hlen & _).
  apply set_tracks_data_keeps in Hset. destruct Hset as (Hcl & Hcc & _).
  apply set_tracks_flags_constants in Hflags; [|lia].
  destruct Hflags as (Hd & Hcat & _).
  rewrite Hh, Hcl, Hcc.
  split; [exact Hlen|]. split; [lia|].
  rewrite Hcat, slice_nonneg.
  - rewrite Nat.sub_0_r. reflexivity.
  - lia.
  - rewrite Hd.
    assert (Hs : forall l, 0 <= sum (map BoneTrack.get_constant_count l)).
    { clear. induction l as [|t l IH]; [unfold sum; simpl; lia|].
      cbn [map]. rewrite sum_cons.
      pose proof (get_constant_count_nonneg t). lia. }
    specialize (Hs (CompressedClip.c_bone_tracks ctx)). lia.
Qed.

Lemma C3_constants_given_to_bones_witness :
  exists ctx pos1,
    run (@CompressedClip.read_tracks sample_io) short_constants_clip 0
    = Returned ctx pos1
    /\ CompressedClip.c_constant_count ctx = 6
    /\ len (CompressedClip.c_constant_tracks_data ctx) = 0.
Proof.
  destruct (run (@CompressedClip.read sample_io) short_constants_clip 0)
    as [clip p|e p] eqn:Erun; [|vm_compute in Erun; discriminate].
  destruct (C3_constants_given_to_bones sample_io short_constants_clip 0
              clip p Erun) as (ctx & pos1 & Etr & Hlen & Hcc & _).
  exists ctx, pos1. split; [exact Etr|].
  vm_compute in Erun. inversion Erun; subst. clear Erun.
  split; [exact Hcc|exact Hlen].
Defined.

(* ================================================================== *)
(** * Binary text *)
(* ================================================================== *)

Lemma pos_bits_acc p : forall acc, pos_bits p acc = pos_bits p [] ++ acc.
Proof.
  induction p as [p IH|p IH|]; intros acc; simpl.
  - rewrite IH, (IH ["1"%char]), <- app_assoc. reflexivity.
  - rewrite IH, (IH ["0"%char]), <- app_assoc. reflexivity.
  - reflexivity.
Qed.

Lemma pos_bits_head p : exists s, pos_bits p [] = "1"%char :: s.
Proof.
  induction p as [p [s IH]|p [s IH]|]; simpl.
  - rewrite pos_bits_acc, IH. eexists; reflexivity.
  - rewrite pos_bits_acc, IH. eexists; reflexivity.
  - eexists; reflexivity.
Qed.

Lemma length_msb_bits n : forall w, length (msb_bits n w) = n.
Proof.
  induction n as [|n IH]; intros w; simpl; [reflexivity|].
  rewrite length_app, IH. simpl. lia.
Qed.

Lemma msb_bits_zero n : msb_bits n 0 = repeat "0"%char n.
Proof.
  induction n as [|n IH]; [reflexivity|].
  cbn [msb_bits]. change (Z.div2 0) with 0. rewrite IH.
  change [bit_char (Z.odd 0)] with (repeat "0"%char 1).
  rewrite <- repeat_app. f_equal. lia.
Qed.

(** A positive number below [2 ^ n], padded with zeros to [n] digits. *)
Lemma pos_bits_msb p :
  forall n : nat,
    Zpos p < 2 ^ Z.of_nat n ->
    repeat "0"%char (n - length (pos_bits p [])) ++ pos_bits p []
    = msb_bits n (Zpos p).
Proof.
  induction p as [p IH|p IH|]; intros n Hn.
  - destruct n as [|n]; [simpl in Hn; lia|].
    cbn [pos_bits msb_bits]. rewrite pos_bits_acc.
    change (Z.div2 (Zpos p~1)) with (Zpos p).
    change (Z.odd (Zpos p~1)) with true.
    rewrite <- IH by (rewrite Nat2Z.inj_succ, Z.pow_succ_r in Hn; lia).
    rewrite length_app, app_assoc. cbn [length bit_char].
    do 2 f_equal. f_equal. lia.
  - destruct n as [|n]; [simpl in Hn; lia|].
    cbn [pos_bits msb_bits]. rewrite pos_bits_acc.
    change (Z.div2 (Zpos p~0)) with (Zpos p).
    change (Z.odd (Zpos p~0)) with false.
    rewrite <- IH by (rewrite Nat2Z.inj_succ, Z.pow_succ_r in Hn; lia).
    rewrite length_app, app_assoc. cbn [length bit_char].
    do 2 f_equal. f_equal. lia.
  - destruct n as [|n]; [simpl in Hn; lia|].
    cbn [pos_bits msb_bits length].
    change (Z.div2 1) with 0. rewrite msb_bits_zero.
    f_equal. f_equal. lia.
Qed.

(** [format(w, "b").zfill(n)] is the text of the [n] low bits of [w]. *)
Lemma zfill_format_b (n : nat) (w : Z) :
  (0 < n)%nat -> 0 <= w < 2 ^ Z.of_nat n ->
  zfill (format_b w) n = msb_bits n w.
Proof.
  intros Hn Hw. destruct w as [|p|p]; [| |lia].
  - rewrite msb_bits_zero. unfold zfill, format_b.
    change (("0" =? "-")%char || ("0" =? "+")%char) with false. cbv iota.
    change (length ["0"%char]) with 1%nat.
    change ["0"%char] with (repeat "0"%char 1).
    rewrite <- repeat_app. f_equal. lia.
  - unfold format_b, zfill. rewrite <- (pos_bits_msb p n) by lia.
    destruct (pos_bits_head p) as [s Hs]. rewrite Hs. reflexivity.
Qed.

Lemma nth_error_msb_bits n :
  forall w k,
    (k < n)%nat ->
    nth_error (msb_bits n w) k
    = Some (bit_char (Z.testbit w (Z.of_nat (n - 1 - k)))).
Proof.
  induction n as [|n IH]; intros w k Hk; [lia|].
  cbn [msb_bits].
  destruct (Nat.eq_dec k n) as [->|Hne].
  - rewrite nth_error_app2 by (rewrite length_msb_bits; lia).
    rewrite length_msb_bits, Nat.sub_diag.
    replace (S n - 1 - n)%nat with 0%nat by lia.
    cbn [nth_error Z.of_nat]. now rewrite Z.bit0_odd.
  - rewrite nth_error_app1 by (rewrite length_msb_bits; lia).
    rewrite IH by lia.
    replace (Z.of_nat (S n - 1 - k)) with (Z.succ (Z.of_nat (n - 1 - k)))
      by lia.
    rewrite Z.div2_spec, Z.shiftr_spec by lia.
    do 3 f_equal.
Qed.

Lemma fold_left_app_flat_map {A B} (f : A -> list B) (l : list A) :
  forall init,
    fold_left (fun acc i => acc ++ f i) l init = init ++ flat_map f l.
Proof.
  induction l as [|a l IH]; intros init; simpl.
  - now rewrite app_nil_r.
  - rewrite IH, app_assoc. reflexivity.
Qed.

(** The text made of the words of [l], [width] digits each. *)
Lemma words_text (width : nat) (l : list Z) :
  (0 < width)%nat ->
  Forall (fun w => 0 <= w < 2 ^ Z.of_nat width) l ->
  fold_left (fun acc i => acc ++ zfill (format_b i) width) l []
  = flat_map (msb_bits width) l.
Proof.
  intros Hw Hl. rewrite fold_left_app_flat_map. cbn [app].
  induction Hl as [|w l Hwl Hl IH]; [reflexivity|].
  cbn [flat_map]. rewrite IH, zfill_format_b by assumption. reflexivity.
Qed.

Lemma length_flat_map_msb_bits width l :
  length (flat_map (msb_bits width) l) = (width * length l)%nat.
Proof.
  induction l as [|w l IH]; simpl; [lia|].
  rewrite length_app, length_msb_bits, IH. lia.
Qed.

(** Digit [k] of that text is bit [k] of the words, counting from the
    most significant bit of the first word. *)
Lemma nth_error_words_text width l :
  (0 < width)%nat ->
  forall k,
    (k < width * length l)%nat ->
    nth_error (flat_map (msb_bits width) l) k
    = Some (bit_char (word_bit width l k)).
Proof.
  intros Hw. induction l as [|w l IH]; intros k Hk; [simpl in Hk; lia|].
  cbn [flat_map]. unfold word_bit.
  destruct (Nat.lt_ge_cases k width) as [Hlt|Hge].
  - rewrite nth_error_app1 by (rewrite length_msb_bits; lia).
    rewrite nth_error_msb_bits by assumption.
    rewrite Nat.div_small, Nat.mod_small by assumption. reflexivity.
  - rewrite nth_error_app2 by (rewrite length_msb_bits; lia).
    rewrite length_msb_bits.
    rewrite IH by (cbn [length] in Hk; nia).
    unfold word_bit.
    replace k with ((k - width) + 1 * width)%nat at 3 4 by lia.
    rewrite Nat.div_add, Nat.Div0.mod_add by lia.
    replace ((k - width) / width + 1)%nat with (S ((k - width) / width))
      by lia.
    reflexivity.
Qed.

Lemma eqb_bit_char b : Ascii.eqb (bit_char b) "1" = b.
Proof. destruct b; reflexivity. Qed.

(* ================================================================== *)
(** * The flags of the bit sets (C7) *)
(* ================================================================== *)

(** C7.  For a bit set of 32-bit words and an index [i] below
    [num_bones * num_attributes], the flag at position [i] of the text
    that [get_tracks_flags] returns, and so the boolean a track is given
    for it, is bit [i] of the words put end to end, each word from its
    most significant bit; the text stops at [num_bones * num_attributes]
    (or at the end of the words, if they are fewer), so that what lies
    beyond is dropped. *)
Theorem C7_bitset_flags :
  forall (bitset : list Z) (num_bones num_attributes i : Z),
    Forall (fun w => 0 <= w < 2 ^ 32) bitset ->
    0 <= i < num_bones * num_attributes ->
    let flags :=
      CompressedClip.get_tracks_flags bitset num_bones num_attributes in
    len flags = Z.min (32 * len bitset) (num_bones * num_attributes)
    /\ (i < 32 * len bitset ->
        nth_error flags (Z.to_nat i)
        = Some (bit_char (word_bit 32 bitset (Z.to_nat i)))
        /\ nth_error (map (fun flag => Ascii.eqb flag "1") flags)
                     (Z.to_nat i)
           = Some (word_bit 32 bitset (Z.to_nat i))).
Proof.
  intros bitset nb na i Hws Hi flags. subst flags.
  unfold CompressedClip.get_tracks_flags.
  rewrite (words_text 32) by (auto; lia).
  rewrite slice_nonneg by lia.
  change (Z.to_nat 0) with 0%nat. rewrite Nat.sub_0_r. cbn [skipn].
  split.
  - unfold len. rewrite length_firstn, length_flat_map_msb_bits. lia.
  - intros Hlt.
    assert (E : nth_error (firstn (Z.to_nat (nb * na))
                                  (flat_map (msb_bits 32) bitset))
                          (Z.to_nat i)
                = Some (bit_char (word_bit 32 bitset (Z.to_nat i)))).
    { rewrite nth_error_firstn.
      destruct (Nat.ltb_spec (Z.to_nat i) (Z.to_nat (nb * na))); [|lia].
      apply nth_error_words_text; [lia|]. unfold len in Hlt. lia. }
    split; [exact E|].
    rewrite nth_error_map, E. cbn [option_map]. now rewrite eqb_bit_char.
Qed.

Lemma C7_bitset_flags_witness :
  len (CompressedClip.get_tracks_flags [2684354560; 1] 12 3) = 36
  /\ nth_error (CompressedClip.get_tracks_flags [2684354560; 1] 12 3)
               (Z.to_nat 2)
     = Some (bit_char (word_bit 32 [2684354560; 1] (Z.to_nat 2))).
Proof.
  assert (Hws : Forall (fun w => 0 <= w < 2 ^ 32) [2684354560; 1])
    by (repeat constructor; cbv; congruence).
  assert (Hi : 0 <= 2 < 12 * 3) by (split; cbv; congruence).
  destruct (C7_bitset_flags [2684354560; 1] 12 3 2 Hws Hi) as [Hlen Hnth].
  split; [exact Hlen|].
  apply Hnth. reflexivity.
Defined.

(* ================================================================== *)
(** * The codes of the samples *)
(* ================================================================== *)

Lemma binary_of_text track_data :
  all_bytes track_data ->
  CompressedClip.binary_of track_data = flat_map (msb_bits 8) track_data.
Proof.
  intros H. unfold CompressedClip.binary_of.
  apply (words_text 8); [lia|exact H].
Qed.

Lemma skipn_nth_error {A} (l : list A) n x :
  nth_error l n = Some x -> skipn n l = x :: skipn (S n) l.
Proof.
  revert l; induction n as [|n IH]; intros [|a l] E; try discriminate.
  - simpl in E. inversion E. reflexivity.
  - simpl in E. apply IH in E. exact E.
Qed.

(** A piece of the text of the track data, as bits. *)
Lemma text_piece track_data (width : nat) :
  forall start : nat,
    (start + width <= 8 * length track_data)%nat ->
    firstn width (skipn start (flat_map (msb_bits 8) track_data))
    = map bit_char (map (word_bit 8 track_data) (seq start width)).
Proof.
  induction width as [|width IH]; intros start H; [reflexivity|].
  rewrite (skipn_nth_error _ start (bit_char (word_bit 8 track_data start)))
    by (apply nth_error_words_text; lia).
  cbn [firstn seq map]. f_equal. apply IH. lia.
Qed.

Lemma int2_digits_bits bs :
  forall acc, int2_digits (map bit_char bs) acc = Ok (bits_value bs acc).
Proof.
  induction bs as [|b bs IH]; intros acc; [reflexivity|].
  cbn [map int2_digits bits_value]. destruct b; cbn; rewrite IH;
    do 2 f_equal; lia.
Qed.

Lemma int2_bits bs :
  bs <> [] -> int2 (map bit_char bs) = Ok (bits_value bs 0).
Proof.
  intros H. destruct bs as [|b bs]; [congruence|].
  unfold int2. cbn [map]. apply (int2_digits_bits (b :: bs)).
Qed.

Lemma bits_value_bound bs :
  forall acc,
    0 <= acc ->
    acc * 2 ^ Z.of_nat (length bs) <= bits_value bs acc
    < (acc + 1) * 2 ^ Z.of_nat (length bs).
Proof.
  induction bs as [|b bs IH]; intros acc Hacc.
  - simpl. lia.
  - cbn [bits_value length]. rewrite Nat2Z.inj_succ, Z.pow_succ_r by lia.
    specialize (IH (2 * acc + (if b then 1 else 0))).
    destruct b; nia.
Qed.

Lemma code_at_bound bytes start width :
  0 <= code_at bytes start width < 2 ^ Z.of_nat width.
Proof.
  unfold code_at.
  pose proof (bits_value_bound (map (word_bit 8 bytes) (seq start width)) 0)
    as H.
  rewrite length_map, length_seq in H. lia.
Qed.

Lemma firstn_skipn_firstn {A} (n m k : nat) (l : list A) :
  (m + n <= k)%nat ->
  firstn n (skipn m (firstn k l)) = firstn n (skipn m l).
Proof.
  intros H. rewrite skipn_firstn_comm, firstn_firstn.
  f_equal. lia.
Qed.

Lemma in_range i n : In i (range n) -> 0 <= i < n.
Proof.
  unfold range. rewrite in_map_iff. intros (k & <- & Hk).
  apply in_seq in Hk. lia.
Qed.

(** The text the decoder cuts out for sub-channel [c] of sample [i] reads,
    as a binary number, the code of that sub-channel. *)
Lemma int2_piece track_data track_data_size num_samples idx bits i c :
  all_bytes track_data ->
  0 < bits -> 0 <= idx -> 0 <= track_data_size ->
  idx + 3 * bits <= track_data_size ->
  num_samples * track_data_size <= 8 * len track_data ->
  0 <= i < num_samples ->
  In c [0; 1; 2] ->
  int2 (slice (CompressedClip.get_frame_bin i
                 (CompressedClip.binary_of track_data)
                 track_data_size idx bits)
              (c * bits) ((c + 1) * bits))
  = Ok (sample_code track_data track_data_size idx bits i c).
Proof.
  intros Hb Hbits Hidx Htds Hfit Hlen Hi Hc.
  assert (Hc' : 0 <= c <= 2) by (simpl in Hc; lia).
  assert (Hin : i * track_data_size + idx + 3 * bits
                <= 8 * len track_data) by nia.
  assert (H0 : 0 <= i * track_data_size) by nia.
  unfold CompressedClip.get_frame_bin, sample_code, code_at.
  rewrite binary_of_text by assumption.
  rewrite !slice_nonneg by nia.
  set (s := Z.to_nat (i * track_data_size + idx)).
  set (nb := Z.to_nat bits).
  replace (Z.to_nat (i * track_data_size + idx + bits * 3) - s)%nat
    with (3 * nb)%nat by (subst s nb; lia).
  replace (Z.to_nat ((c + 1) * bits) - Z.to_nat (c * bits))%nat
    with nb by (subst nb; nia).
  replace (Z.to_nat (c * bits)) with (Z.to_nat c * nb)%nat
    by (subst nb; nia).
  rewrite firstn_skipn_firstn by nia.
  rewrite skipn_skipn.
  unfold len in Hin.
  rewrite text_piece by (subst s nb; nia).
  replace (Z.to_nat (i * track_data_size + idx + c * bits))
    with (Z.to_nat c * nb + s)%nat by (subst s nb; nia).
  apply int2_bits.
  destruct nb eqn:E; [subst nb; lia|]. discriminate.
Qed.

(** ** List comprehensions over the samples *)

Lemma rmap_app_ok {A B} (f : A -> result B) l1 l2 r1 r2 :
  rmap f l1 = Ok r1 -> rmap f l2 = Ok r2 ->
  rmap f (l1 ++ l2) = Ok (r1 ++ r2).
Proof.
  revert r1; induction l1 as [|a l1 IH]; intros r1 H1 H2; simpl in *.
  - inversion H1; subst. exact H2.
  - destruct (f a); [|discriminate].
    destruct (rmap f l1) as [r|] eqn:E; [|discriminate].
    inversion H1; subst. rewrite (IH r eq_refl H2). reflexivity.
Qed.

Lemma rmap_ok_map {A B} (f : A -> result B) (g : A -> B) l :
  (forall a, In a l -> f a = Ok (g a)) -> rmap f l = Ok (map g l).
Proof.
  induction l as [|a l IH]; intros H; simpl; [reflexivity|].
  rewrite (H a) by (now left). rewrite IH by (intros; apply H; now right).
  reflexivity.
Qed.

(** A comprehension over three values per sample. *)
Lemma rmap_triples {A B} (f : A -> result B)
      (P : Z -> Z -> A) (C : Z -> Z -> B) (l : list Z) :
  (forall i, In i l -> forall c, In c [0; 1; 2] -> f (P i c) = Ok (C i c)) ->
  rmap f (concat (map (fun i => map (P i) [0; 1; 2]) l))
  = Ok (concat (map (fun i => map (C i) [0; 1; 2]) l)).
Proof.
  induction l as [|i l IH]; intros H; [reflexivity|].
  cbn [map concat]. apply rmap_app_ok.
  - cbn [rmap].
    rewrite !(H i) by (simpl; auto). reflexivity.
  - apply IH. intros j Hj. apply H. now right.
Qed.

Lemma sum_lists_concat {A} (ll : list (list A)) : sum_lists ll = concat ll.
Proof.
  unfold sum_lists.
  assert (H : forall init, fold_left (fun acc l => acc ++ l) ll init
                           = init ++ concat ll).
  { induction ll as [|l ll IH]; intros init; simpl.
    - now rewrite app_nil_r.
    - rewrite IH, app_assoc. reflexivity. }
  apply H.
Qed.

Lemma firstn3_skipn_concat {A} (ll : list (list A)) :
  (forall l, In l ll -> length l = 3%nat) ->
  forall k, (k < length ll)%nat ->
    firstn 3 (skipn (3 * k) (concat ll)) = nth k ll [].
Proof.
  induction ll as [|l ll IH]; intros H k Hk; [simpl in Hk; lia|].
  assert (Hl : length l = 3%nat) by (apply H; now left).
  destruct k as [|k].
  - cbn [concat nth]. change (3 * 0)%nat with 0%nat. cbn [skipn].
    rewrite firstn_app, Hl, Nat.sub_diag, firstn_O, app_nil_r.
    apply firstn_all2. lia.
  - cbn [concat nth].
    rewrite skipn_app, Hl.
    rewrite (skipn_all2 l) by lia. cbn [app].
    replace (3 * S k - 3)%nat with (3 * k)%nat by lia.
    apply IH; [intros; apply H; now right|simpl in Hk; lia].
Qed.

(** Cutting the flat list of floats back in triples. *)
Lemma slice_triples {A} (T : Z -> list A) (n : Z) :
  (forall i, length (T i) = 3%nat) ->
  map (fun i => slice (concat (map T (range n))) (i * 3) ((i + 1) * 3))
      (range n)
  = map T (range n).
Proof.
  intros HT. apply map_ext_in. intros i Hi.
  pose proof (in_range _ _ Hi) as Hr.
  rewrite slice_nonneg by lia.
  replace (Z.to_nat ((i + 1) * 3) - Z.to_nat (i * 3))%nat with 3%nat by lia.
  replace (Z.to_nat (i * 3)) with (3 * Z.to_nat i)%nat by lia.
  rewrite firstn3_skipn_concat.
  - unfold range. rewrite map_map.
    rewrite (nth_indep _ [] (T (Z.of_nat 0)))
      by (rewrite length_map, length_seq; lia).
    rewrite (map_nth (fun k => T (Z.of_nat k))), seq_nth by lia.
    f_equal. lia.
  - intros l Hl. apply in_map_iff in Hl. destruct Hl as (j & <- & _).
    apply HT.
  - unfold range. rewrite !length_map, length_seq. lia.
Qed.

(* ================================================================== *)
(** * Quantized samples (C4) *)
(* ================================================================== *)

Lemma shiftl_1_pos bits : 0 <= bits -> 0 < Z.shiftl 1 bits.
Proof.
  intros H. rewrite Z.shiftl_1_l. apply Z.pow_pos_nonneg; lia.
Qed.

Lemma range_3 : range 3 = [0; 1; 2].
Proof. reflexivity. Qed.

(** C4.  For a component of bit width [bits] with [0 < bits < 32], whose
    bits start at [idx] in each sample of [track_data_size] bits, the
    iteration of the unpacking loop assigns [(1 << bits) - 1] to
    [max_int] and produces, for each sample [i] and each sub-channel [c],
    the [bits]-bit code read from the track data most significant bit
    first, divided by [(1 << bits) - 1], mapped by the segment-level
    range triple when there is one, [v' = v * segExtent + segMin], and
    then by the clip-level range triple,
    [out = v' * clipExtent + clipMin]. *)
Theorem C4_quantized_samples :
  forall track_data track_data_size num_samples segment_range_data
         max_int idx bits rd rid srd,
    all_bytes track_data ->
    0 < bits < 32 ->
    0 <= idx -> 0 <= track_data_size ->
    idx + 3 * bits <= track_data_size ->
    num_samples * track_data_size <= 8 * len track_data ->
    index segment_range_data rid = Ok srd ->
    length (RangeData.min_xyz rd) = 3%nat ->
    length (RangeData.extent_xyz rd) = 3%nat ->
    (forall s, srd = Some s ->
               length (RangeData.min_xyz s) = 3%nat
               /\ length (RangeData.extent_xyz s) = 3%nat) ->
    CompressedClip.unpack_component
      (CompressedClip.binary_of track_data) track_data_size num_samples
      segment_range_data max_int idx bits rd rid
    = Ok (Some (Z.shiftl 1 bits - 1),
          map (fun i =>
                 [dequantized_sample srd rd bits 0
                    (sample_code track_data track_data_size idx bits i 0);
                  dequantized_sample srd rd bits 1
                    (sample_code track_data track_data_size idx bits i 1);
                  dequantized_sample srd rd bits 2
                    (sample_code track_data track_data_size idx bits i 2)])
              (range num_samples)).
Proof.
  intros td tds ns srds max_int idx bits rd rid srd
         Hb Hbits Hidx Htds Hfit Hlen Hsrd Hmin Hext Hseg.
  unfold CompressedClip.unpack_component.
  destruct (Z.eqb_spec bits 0) as [|_]; [lia|].
  destruct (Z.eqb_spec bits 32) as [|_]; [lia|].
  cbn [negb].
  rewrite map_map, range_3, sum_lists_concat.
  rewrite (rmap_triples int2
             (fun i c =>
                slice (CompressedClip.get_frame_bin i
                         (CompressedClip.binary_of td) tds idx bits)
                      (c * bits) ((c + 1) * bits))
             (fun i c => sample_code td tds idx bits i c)).
  2:{ intros i Hi c Hc. apply in_range in Hi.
      apply (int2_piece td tds ns); auto; lia. }
  cbn [rbind].
  pose proof (shiftl_1_pos bits ltac:(lia)) as Hm.
  rewrite (rmap_triples _ (fun i c => sample_code td tds idx bits i c)
             (fun i c =>
                SFdiv 53 1024
                  (float_of_int (sample_code td tds idx bits i c))
                  (float_of_int (Z.shiftl 1 bits - 1)))).
  2:{ intros i Hi c Hc. unfold int_truediv.
      destruct (Z.eqb_spec (Z.shiftl 1 bits - 1) 0) as [E|_]; [|reflexivity].
      exfalso. rewrite Z.shiftl_1_l in E.
      assert (2 ^ 1 <= 2 ^ bits) by (apply Z.pow_le_mono_r; lia).
      change (2 ^ 1) with 2 in *. lia. }
  cbn [rbind].
  rewrite (slice_triples
             (fun i =>
                map (fun c =>
                       SFdiv 53 1024
                         (float_of_int (sample_code td tds idx bits i c))
                         (float_of_int (Z.shiftl 1 bits - 1)))
                    [0; 1; 2])) by reflexivity.
  rewrite Hsrd. cbn [rbind].
  destruct rd as [rmin rext]. cbn [RangeData.min_xyz RangeData.extent_xyz] in *.
  destruct rmin as [|m0 [|m1 [|m2 [|]]]]; try discriminate.
  destruct rext as [|e0 [|e1 [|e2 [|]]]]; try discriminate.
  destruct srd as [[smin sext]|].
  - destruct (Hseg _ eq_refl) as [Hsmin Hsext].
    cbn [RangeData.min_xyz RangeData.extent_xyz] in *.
    destruct smin as [|a0 [|a1 [|a2 [|]]]]; try discriminate.
    destruct sext as [|b0 [|b1 [|b2 [|]]]]; try discriminate.
    cbn [rbind]. rewrite !map_map. reflexivity.
  - cbn [rbind]. rewrite !map_map. reflexivity.
Qed.

(** The structural check of the spec: one component at 8 bits over the
    unit range, no segment-level triple, two samples with codes [0x00]
    and [0xFF]; the decoded values are [0.0] and [1.0], three times each.
    And the two stages in their order: with the segment-level triple of
    minimum 1 and extent 2 and the clip-level triple of minimum 5 and
    extent 4, the same codes decode to [(0 * 2 + 1) * 4 + 5 = 9] and
    [(1 * 2 + 1) * 4 + 5 = 17]. *)
Lemma C4_quantized_samples_witness :
  CompressedClip.unpack_component
    (CompressedClip.binary_of [0; 0; 0; 255; 255; 255]) 24 2 [None] None 0 8
    (RangeData.mk [S754_zero false; S754_zero false; S754_zero false]
                  [SFone 53 1024; SFone 53 1024; SFone 53 1024]) 0
  = Ok (Some 255,
        [[S754_zero false; S754_zero false; S754_zero false];
         [SFone 53 1024; SFone 53 1024; SFone 53 1024]])
  /\ CompressedClip.unpack_component
       (CompressedClip.binary_of [0; 0; 0; 255; 255; 255]) 24 2
       [Some (RangeData.mk
                [float_of_int 1; float_of_int 1; float_of_int 1]
                [float_of_int 2; float_of_int 2; float_of_int 2])]
       None 0 8
       (RangeData.mk [float_of_int 5; float_of_int 5; float_of_int 5]
                     [float_of_int 4; float_of_int 4; float_of_int 4]) 0
     = Ok (Some 255,
           [[float_of_int 9; float_of_int 9; float_of_int 9];
            [float_of_int 17; float_of_int 17; float_of_int 17]]).
Proof.
  split.
  - rewrite (C4_quantized_samples [0; 0; 0; 255; 255; 255] 24 2 [None] None
               0 8
               (RangeData.mk
                  [S754_zero false; S754_zero false; S754_zero false]
                  [SFone 53 1024; SFone 53 1024; SFone 53 1024]) 0 None).
    + vm_compute. reflexivity.
    + repeat constructor; cbv; congruence.
    + split; reflexivity.
    + discriminate.
    + discriminate.
    + discriminate.
    + discriminate.
    + reflexivity.
    + reflexivity.
    + reflexivity.
    + intros s Hs. discriminate.
  - rewrite (C4_quantized_samples [0; 0; 0; 255; 255; 255] 24 2
               [Some (RangeData.mk
                        [float_of_int 1; float_of_int 1; float_of_int 1]
                        [float_of_int 2; float_of_int 2; float_of_int 2])]
               None 0 8
               (RangeData.mk
                  [float_of_int 5; float_of_int 5; float_of_int 5]
                  [float_of_int 4; float_of_int 4; float_of_int 4]) 0
               (Some (RangeData.mk
                        [float_of_int 1; float_of_int 1; float_of_int 1]
                        [float_of_int 2; float_of_int 2; float_of_int 2]))).
    + vm_compute. reflexivity.
    + repeat constructor; cbv; congruence.
    + split; reflexivity.
    + discriminate.
    + discriminate.
    + discriminate.
    + discriminate.
    + reflexivity.
    + reflexivity.
    + reflexivity.
    + intros s Hs. inversion Hs; subst. split; reflexivity.
Defined.

(** The same through the whole decoder, on the record [unit_clip]. *)
Example unit_clip_decoded :
  match run (@CompressedClip.read sample_io) unit_clip 0 with
  | Returned clip _ =>
      map BoneTrack.track_data (CompressedClip.bone_tracks clip)
      = [[[[S754_zero false; S754_zero false; S754_zero false];
           [SFone 53 1024; SFone 53 1024; SFone 53 1024]]]]
  | Raised _ _ => False
  end.
Proof. vm_compute. reflexivity. Qed.

(* ================================================================== *)
(** * Binary32 numbers as floats *)
(* ================================================================== *)

Lemma iter_pos_iter {A} (f : A -> A) p :
  forall x, iter_pos f p x = Pos.iter f x p.
Proof.
  induction p as [p IH|p IH|]; intros x; simpl.
  - rewrite !IH. rewrite <- !Pos.iter_swap. reflexivity.
  - rewrite !IH. reflexivity.
  - reflexivity.
Qed.

Lemma iter_xO_succ M p : Pos.iter xO M (Pos.succ p) = Pos.iter xO (xO M) p.
Proof. rewrite Pos.iter_succ, Pos.iter_swap. reflexivity. Qed.

Lemma digits2_pos_iter_xO M p :
  Zpos (digits2_pos (Pos.iter xO M p)) = Zpos (digits2_pos M) + Zpos p.
Proof.
  revert M. induction p as [|p IH] using Pos.peano_ind; intros M.
  - simpl. lia.
  - rewrite iter_xO_succ, IH. simpl. lia.
Qed.

Lemma shr_iter_xO M p :
  iter_pos shr_1 p (Build_shr_record (Zpos (Pos.iter xO M p)) false false)
  = Build_shr_record (Zpos M) false false.
Proof.
  rewrite iter_pos_iter.
  revert M. induction p as [|p IH] using Pos.peano_ind; intros M.
  - reflexivity.
  - rewrite Pos.iter_succ, iter_xO_succ, IH. reflexivity.
Qed.

Lemma fexp_53 e : -1074 <= e - 53 -> fexp 53 1024 e = e - 53.
Proof. unfold fexp, emin. lia. Qed.

Lemma fexp_24 e : fexp 24 128 e = Z.max (e - 24) (-149).
Proof. unfold fexp, emin. lia. Qed.

(** A shift by nothing. *)
Ltac shr_by_0 :=
  match goal with
  | |- context [shr _ _ ?n] => replace n with 0 by lia
  end;
  cbn [shr shr_record_of_loc shr_m loc_of_shr_record round_nearest_even].

(** Widening a binary32 number with mantissa [M] to the 53 bits of a
    float shifts the mantissa left and rounds nothing. *)
Lemma widen_round s M ex p :
  Zpos p = 53 - Zpos (digits2_pos M) ->
  -1074 <= ex - Zpos p <= 971 ->
  binary_round 53 1024 s M ex
  = S754_finite s (Pos.iter xO M p) (ex - Zpos p).
Proof.
  intros Hp He.
  unfold binary_round, shl_align. rewrite fexp_53 by lia.
  replace (Zpos (digits2_pos M) + ex - 53 - ex) with (Zneg p) by lia.
  replace (Zpos (digits2_pos M) + ex - 53) with (ex - Zpos p) by lia.
  unfold binary_round_aux, shr_fexp, Zdigits2.
  rewrite digits2_pos_iter_xO, fexp_53 by lia. shr_by_0.
  rewrite digits2_pos_iter_xO, fexp_53 by lia. shr_by_0.
  destruct (Z.leb_spec (ex - Zpos p) (1024 - 53)); [reflexivity|lia].
Qed.

(** Narrowing it back shifts the same bits out. *)
Lemma narrow_round s M ex p :
  Zpos p = 53 - Zpos (digits2_pos M) ->
  Z.max (Zpos (digits2_pos M) + ex - 24) (-149) = ex ->
  ex <= 104 ->
  binary_round 24 128 s (Pos.iter xO M p) (ex - Zpos p) = S754_finite s M ex.
Proof.
  intros Hp Hc He.
  assert (Hf : fexp 24 128 (Zpos (digits2_pos M) + Zpos p + (ex - Zpos p))
               = ex) by (rewrite fexp_24; lia).
  unfold binary_round, shl_align.
  rewrite digits2_pos_iter_xO, Hf.
  replace (ex - (ex - Zpos p)) with (Zpos p) by lia.
  unfold binary_round_aux, shr_fexp, Zdigits2.
  rewrite digits2_pos_iter_xO, Hf.
  replace (ex - (ex - Zpos p)) with (Zpos p) by lia.
  cbn [shr shr_record_of_loc]. rewrite shr_iter_xO.
  cbn [shr_m loc_of_shr_record round_nearest_even].
  replace (ex - Zpos p + Zpos p) with ex by lia.
  assert (Hf' : fexp 24 128 (Zpos (digits2_pos M) + ex) = ex)
    by (rewrite fexp_24; lia).
  rewrite Hf'. shr_by_0.
  destruct (Z.leb_spec ex (128 - 24)); [reflexivity|lia].
Qed.

Lemma digits2_pos_bounds M :
  2 ^ (Zpos (digits2_pos M) - 1) <= Zpos M < 2 ^ Zpos (digits2_pos M).
Proof.
  induction M as [M IH|M IH|].
  - cbn [digits2_pos]. rewrite Pos2Z.inj_succ.
    replace (Z.succ (Zpos (digits2_pos M)) - 1)
      with (Z.succ (Zpos (digits2_pos M) - 1)) by lia.
    rewrite !Z.pow_succ_r by lia. lia.
  - cbn [digits2_pos]. rewrite Pos2Z.inj_succ.
    replace (Z.succ (Zpos (digits2_pos M)) - 1)
      with (Z.succ (Zpos (digits2_pos M) - 1)) by lia.
    rewrite !Z.pow_succ_r by lia. lia.
  - simpl. lia.
Qed.

Lemma digits2_pos_le M n :
  0 <= n -> Zpos M < 2 ^ n -> Zpos (digits2_pos M) <= n.
Proof.
  intros Hn H. pose proof (digits2_pos_bounds M) as [Hlo _].
  destruct (Z.le_gt_cases (Zpos (digits2_pos M)) n) as [|Hgt]; [assumption|].
  exfalso.
  assert (2 ^ n <= 2 ^ (Zpos (digits2_pos M) - 1))
    by (apply Z.pow_le_mono_r; lia).
  lia.
Qed.

Lemma digits2_pos_ge M n :
  0 <= n -> 2 ^ n <= Zpos M -> n < Zpos (digits2_pos M).
Proof.
  intros Hn H. pose proof (digits2_pos_bounds M) as [_ Hhi].
  destruct (Z.lt_ge_cases n (Zpos (digits2_pos M))) as [|Hle]; [assumption|].
  exfalso.
  assert (2 ^ Zpos (digits2_pos M) <= 2 ^ n)
    by (apply Z.pow_le_mono_r; lia).
  lia.
Qed.

(** A binary32 number that is widened to a float narrows back to itself. *)
Lemma narrow_widen s M ex :
  Zpos M < 2 ^ 24 ->
  Z.max (Zpos (digits2_pos M) + ex - 24) (-149) = ex ->
  ex <= 104 ->
  bits_of_f32 (binary_round 53 1024 s M ex)
  = Ok (sign_bit s + (ex + 149) * 2 ^ 23 + Zpos M).
Proof.
  intros HM Hc He.
  pose proof (digits2_pos_le M 24 ltac:(lia) HM) as Hd.
  assert (Hp : Zpos (Z.to_pos (53 - Zpos (digits2_pos M)))
               = 53 - Zpos (digits2_pos M))
    by (rewrite Z2Pos.id; lia).
  rewrite (widen_round s M ex _ Hp) by lia.
  unfold bits_of_f32.
  rewrite (narrow_round s M ex _ Hp Hc He). reflexivity.
Qed.

(** The three fields of a binary32 bit pattern. *)
Lemma f32_fields w :
  0 <= w < 2 ^ 32 ->
  let s := Z.testbit w 31 in
  let e := Z.land (Z.shiftr w 23) 255 in
  let m := Z.land w (2 ^ 23 - 1) in
  0 <= e <= 255 /\ 0 <= m < 2 ^ 23 /\ w = sign_bit s + e * 2 ^ 23 + m.
Proof.
  intros Hw s e m.
  assert (Ee : e = (w / 2 ^ 23) mod 2 ^ 8).
  { subst e. change 255 with (Z.ones 8).
    rewrite Z.land_ones, Z.shiftr_div_pow2 by lia. reflexivity. }
  assert (Em : m = w mod 2 ^ 23).
  { subst m. change (2 ^ 23 - 1) with (Z.ones 23).
    rewrite Z.land_ones by lia. reflexivity. }
  assert (Es : sign_bit s = (w / 2 ^ 31) * 2 ^ 31).
  { subst s. unfold sign_bit.
    pose proof (Z.testbit_spec' w 31 ltac:(lia)) as Hs.
    assert (Hq : 0 <= w / 2 ^ 31 < 2).
    { split; [apply Z.div_pos; lia|].
      apply Z.div_lt_upper_bound; lia. }
    rewrite Z.mod_small in Hs by lia.
    destruct (Z.testbit w 31); cbn [Z.b2z] in Hs; lia. }
  rewrite Ee, Em, Es.
  change (2 ^ 8) with 256. change (2 ^ 23) with 8388608.
  change (2 ^ 31) with 2147483648. change (2 ^ 32) with 4294967296 in Hw.
  clear Ee Em Es. clearbody s e m.
  replace (w / 2147483648) with (w / 8388608 / 256)
    by (rewrite Z.div_div by lia; reflexivity).
  pose proof (Z.div_mod w 8388608 ltac:(lia)).
  pose proof (Z.mod_pos_bound w 8388608 ltac:(lia)).
  pose proof (Z.div_mod (w / 8388608) 256 ltac:(lia)).
  pose proof (Z.mod_pos_bound (w / 8388608) 256 ltac:(lia)).
  lia.
Qed.

(** [struct.pack('<f', x)] gives back the bit pattern [x] was unpacked
    from, unless it is the pattern of a NaN. *)
Lemma f32_round_trip w :
  0 <= w < 2 ^ 32 -> is_nan32 w = false ->
  bits_of_f32 (f32_of_bits w) = Ok w.
Proof.
  intros Hw Hnan.
  destruct (f32_fields w Hw) as (He & Hm & Ew).
  unfold f32_of_bits, is_nan32 in *.
  set (s := Z.testbit w 31) in *.
  set (e := Z.land (Z.shiftr w 23) 255) in *.
  set (m := Z.land w (2 ^ 23 - 1)) in *.
  destruct (Z.eqb_spec e 255) as [E255|N255].
  - destruct (Z.eqb_spec m 0) as [Em0|]; [|discriminate].
    cbn [bits_of_f32]. f_equal. lia.
  - destruct (Z.eqb_spec e 0) as [E0|N0].
    + destruct m as [|M|M] eqn:EM; [| |lia].
      * replace (if s then - 0 else 0) with 0 by (destruct s; reflexivity).
        cbn [binary_normalize bits_of_f32]. f_equal. lia.
      * replace (binary_normalize 53 1024 (if s then - Zpos M else Zpos M)
                                  (-149) s)
          with (binary_round 53 1024 s M (-149))
          by (destruct s; reflexivity).
        rewrite narrow_widen; [f_equal; lia|lia| |lia].
        pose proof (digits2_pos_le M 23 ltac:(lia) ltac:(lia)). lia.
    + assert (Hpos : 0 < m + 2 ^ 23) by lia.
      destruct (m + 2 ^ 23) as [|M|M] eqn:EM; [lia| |lia].
      replace (binary_normalize 53 1024 (if s then - Zpos M else Zpos M)
                                (e - 150) s)
        with (binary_round 53 1024 s M (e - 150))
        by (destruct s; reflexivity).
      rewrite narrow_widen; [f_equal; lia|lia| |lia].
      pose proof (digits2_pos_le M 24 ltac:(lia) ltac:(lia)).
      pose proof (digits2_pos_ge M 23 ltac:(lia) ltac:(lia)). lia.
Qed.

Lemma le_combine_split n :
  forall w, le_combine (le_split n w) = w mod 256 ^ Z.of_nat n.
Proof.
  induction n as [|n IH]; intros w.
  - simpl. now rewrite Z.mod_1_r.
  - cbn [le_split le_combine]. rewrite IH.
    rewrite Nat2Z.inj_succ, Z.pow_succ_r by lia.
    rewrite Z.rem_mul_r by (try apply Z.pow_pos_nonneg; lia).
    reflexivity.
Qed.

(** [struct.unpack('>f', w.to_bytes(4, byteorder="big"))] reads the bit
    pattern [w]. *)
Lemma unpack_f32_be_to_bytes w :
  0 <= w < 2 ^ 32 ->
  exists b, to_bytes_big 4 w = Ok b /\ unpack_f32_be b = f32_of_bits w.
Proof.
  intros Hw. unfold to_bytes_big.
  destruct (Z.ltb_spec w 0); [lia|].
  change (2 ^ (8 * Z.of_nat 4)) with (2 ^ 32).
  destruct (Z.leb_spec (2 ^ 32) w); [lia|].
  cbn [orb]. eexists. split; [reflexivity|].
  unfold unpack_f32_be. rewrite rev_involutive, le_combine_split.
  change (256 ^ Z.of_nat 4) with (2 ^ 32).
  now rewrite Z.mod_small.
Qed.

(* ================================================================== *)
(** * Samples at 32 bits (C5) *)
(* ================================================================== *)

Lemma to_bytes_big_4 w :
  0 <= w < 2 ^ 32 -> to_bytes_big 4 w = Ok (rev (le_split 4 w)).
Proof.
  intros Hw. unfold to_bytes_big.
  destruct (Z.ltb_spec w 0); [lia|].
  change (2 ^ (8 * Z.of_nat 4)) with (2 ^ 32).
  destruct (Z.leb_spec (2 ^ 32) w); [lia|]. reflexivity.
Qed.

Lemma unpack_f32_be_rev_split w :
  0 <= w < 2 ^ 32 -> unpack_f32_be (rev (le_split 4 w)) = f32_of_bits w.
Proof.
  intros Hw. unfold unpack_f32_be. rewrite rev_involutive, le_combine_split.
  change (256 ^ Z.of_nat 4) with (2 ^ 32).
  now rewrite Z.mod_small.
Qed.

Lemma sample_code_32 track_data track_data_size idx i c :
  0 <= sample_code track_data track_data_size idx 32 i c < 2 ^ 32.
Proof. unfold sample_code. apply code_at_bound. Qed.

(** C5.  For a component of bit width 32, the iteration of the unpacking
    loop produces, for each sample [i] and each sub-channel [c], the float
    whose binary32 bit pattern is the 32 bits read from the track data
    most significant bit first: nothing is divided, and neither the
    segment-level triples nor the clip-level triple [rd] take part.  The
    bit pattern of each sample is recovered by packing it, whenever it is
    not the pattern of a NaN. *)
Theorem C5_raw_samples :
  forall track_data track_data_size num_samples segment_range_data
         max_int idx rd rid,
    all_bytes track_data ->
    0 <= idx -> 0 <= track_data_size ->
    idx + 3 * 32 <= track_data_size ->
    num_samples * track_data_size <= 8 * len track_data ->
    CompressedClip.unpack_component
      (CompressedClip.binary_of track_data) track_data_size num_samples
      segment_range_data max_int idx 32 rd rid
    = Ok (Some (Z.shiftl 1 32 - 1),
          map (fun i =>
                 [f32_of_bits
                    (sample_code track_data track_data_size idx 32 i 0);
                  f32_of_bits
                    (sample_code track_data track_data_size idx 32 i 1);
                  f32_of_bits
                    (sample_code track_data track_data_size idx 32 i 2)])
              (range num_samples))
    /\ forall i c,
         let w := sample_code track_data track_data_size idx 32 i c in
         is_nan32 w = false -> bits_of_f32 (f32_of_bits w) = Ok w.
Proof.
  intros td tds ns srds max_int idx rd rid Hb Hidx Htds Hfit Hlen.
  split.
  - unfold CompressedClip.unpack_component.
    change (negb (32 =? 0)) with true. change (negb (32 =? 32)) with false.
    cbv iota.
    rewrite map_map, range_3, sum_lists_concat.
    rewrite (rmap_triples int2
               (fun i c =>
                  slice (CompressedClip.get_frame_bin i
                           (CompressedClip.binary_of td) tds idx 32)
                        (c * 32) ((c + 1) * 32))
               (fun i c => sample_code td tds idx 32 i c)).
    2:{ intros i Hi c Hc. apply in_range in Hi.
        apply (int2_piece td tds ns); auto; lia. }
    cbn [rbind].
    rewrite (rmap_triples (to_bytes_big 4)
               (fun i c => sample_code td tds idx 32 i c)
               (fun i c => rev (le_split 4 (sample_code td tds idx 32 i c)))).
    2:{ intros i Hi c Hc. apply to_bytes_big_4, sample_code_32. }
    cbn [rbind].
    rewrite concat_map, map_map.
    rewrite (map_ext
               (fun i => map unpack_f32_be
                             (map (fun c => rev (le_split 4
                                      (sample_code td tds idx 32 i c)))
                                  [0; 1; 2]))
               (fun i => map (fun c => f32_of_bits
                                         (sample_code td tds idx 32 i c))
                             [0; 1; 2])).
    2:{ intros i. cbn [map].
        rewrite !unpack_f32_be_rev_split by apply sample_code_32.
        reflexivity. }
    rewrite (slice_triples
               (fun i => map (fun c => f32_of_bits
                                         (sample_code td tds idx 32 i c))
                             [0; 1; 2])) by reflexivity.
    reflexivity.
  - intros i c w Hnan. apply f32_round_trip; [|exact Hnan].
    apply sample_code_32.
Qed.

(** A negative number, the negative zero and the smallest denormal. *)
Lemma C5_raw_samples_witness :
  CompressedClip.unpack_component
    (CompressedClip.binary_of
       [193; 35; 69; 103; 128; 0; 0; 0; 0; 0; 0; 1]) 96 1 [] None 0 32
    (RangeData.mk [] []) 0
  = Ok (Some 4294967295,
        [[f32_of_bits 3240314215; f32_of_bits 2147483648; f32_of_bits 1]])
  /\ bits_of_f32 (f32_of_bits 3240314215) = Ok 3240314215
  /\ bits_of_f32 (f32_of_bits 2147483648) = Ok 2147483648
  /\ bits_of_f32 (f32_of_bits 1) = Ok 1.
Proof.
  assert (Hb : all_bytes [193; 35; 69; 103; 128; 0; 0; 0; 0; 0; 0; 1])
    by (repeat constructor; cbv; congruence).
  destruct (C5_raw_samples
              [193; 35; 69; 103; 128; 0; 0; 0; 0; 0; 0; 1] 96 1 [] None 0
              (RangeData.mk [] []) 0 Hb
              ltac:(discriminate) ltac:(discriminate)
              ltac:(discriminate) ltac:(discriminate)) as [Hrun Hpack].
  split.
  - rewrite Hrun. vm_compute. reflexivity.
  - split; [exact (Hpack 0 0 eq_refl)|].
    split; [exact (Hpack 0 1 eq_refl)|exact (Hpack 0 2 eq_refl)].
Defined.

(** The same through the whole decoder, on the record [raw_float_clip]:
    the clip range triple of the record is not applied. *)
Example raw_float_clip_decoded :
  match run (@CompressedClip.read sample_io) raw_float_clip 0 with
  | Returned clip _ =>
      map BoneTrack.track_data (CompressedClip.bone_tracks clip)
      = [[[[f32_of_bits 3240314215; f32_of_bits 2147483648;
            f32_of_bits 1]]]]
  | Raised _ _ => False
  end.
Proof. vm_compute. reflexivity. Qed.

(* ================================================================== *)
(** * Where the padding runs of [read] are *)
(* ================================================================== *)

Lemma no_padding_runs {A} (p : reader A) data :
  no_padding p -> forall pos, padding_runs p data pos = [].
Proof.
  induction p as [a|e|k IH|n k IH|n k IH]; simpl; intros H pos; auto.
  contradiction.
Qed.

Lemma no_padding_bind {A B} (p : reader A) (f : A -> reader B) :
  no_padding p -> (forall a, no_padding (f a)) -> no_padding (bind p f).
Proof.
  induction p as [a|e|k IH|n k IH|n k IH]; simpl; intros Hp Hf; auto.
Qed.

Lemma no_padding_lift {A} (r : result A) : no_padding (lift r).
Proof. destruct r; exact I. Qed.

Lemma no_padding_check_int a e msg : no_padding (check_int a e msg).
Proof. unfold check_int. destruct (a =? e); exact I. Qed.

Lemma no_padding_read_uint_array n length :
  no_padding (read_uint_array n length).
Proof.
  unfold read_uint_array. destruct (length <? 0); [exact I|].
  intros bs. destruct (_ =? _); exact I.
Qed.

Lemma no_padding_read_times {A} (p : reader A) n :
  no_padding p -> no_padding (read_times p n).
Proof.
  intros Hp. induction n as [|n IH]; [exact I|].
  cbn [read_times]. apply no_padding_bind; [exact Hp|]. intros a.
  apply no_padding_bind; [exact IH|]. intros l. exact I.
Qed.

Lemma no_padding_read_float32_array length :
  no_padding (read_float32_array length).
Proof.
  unfold read_float32_array.
  apply no_padding_bind; [apply no_padding_read_uint_array|].
  intros ws. exact I.
Qed.

Lemma no_padding_read_vec3_i8 {io : IoUtil} : no_padding read_vec3_i8.
Proof. unfold read_vec3_i8. intros bs. destruct (_ =? _); exact I. Qed.

Lemma no_padding_range_data_read {io : IoUtil} segment :
  no_padding (RangeData.read segment).
Proof.
  unfold RangeData.read, read_vec3_f32. destruct segment.
  - apply no_padding_bind; [apply no_padding_read_vec3_i8|]. intros a.
    apply no_padding_bind; [apply no_padding_read_vec3_i8|]. intros b.
    exact I.
  - apply no_padding_bind; [apply no_padding_read_float32_array|]. intros a.
    apply no_padding_bind; [apply no_padding_read_float32_array|]. intros b.
    exact I.
Qed.

(** An iteration of the loop over the segments that returns has two
    padding runs: to an even offset (from the header of the clip) after
    the bit rates, at [p1], and to a multiple of 4 before the track data,
    at [p2]. *)
Lemma padding_runs_read_segment_data {io : IoUtil} clip_header
      segment_range_reduction range_count h data pos r pos' :
  run (CompressedClip.read_segment_data clip_header segment_range_reduction
         range_count h) data pos = Returned r pos' ->
  exists p1 p2,
    padding_runs (CompressedClip.read_segment_data clip_header
                    segment_range_reduction range_count h) data pos
    = [(p1, (2 - (p1 - ClipHeader.offset clip_header) mod 2) mod 2);
       (p2, (4 - (p2 - ClipHeader.offset clip_header) mod 4) mod 4)].
Proof.
  unfold CompressedClip.read_segment_data. intros H.
  rewrite padding_runs_bind.
  run_bind_in H as u0 p0 Echk. rewrite Echk.
  rewrite no_padding_runs
    by (destruct (negb _);
        [apply no_padding_bind; [exact (fun _ => I)|];
         intros; apply no_padding_check_int|exact I]).
  cbn [app]. rewrite padding_runs_bind.
  run_bind_in H as raw q1 Eraw. rewrite Eraw.
  rewrite no_padding_runs by apply no_padding_read_uint_array.
  cbn [app]. rewrite padding_runs_bind.
  run_bind_in H as rates q2 Erates. rewrite Erates.
  rewrite padding_runs_lift. cbn [app]. rewrite padding_runs_bind.
  run_bind_in H as pos1 q3 Etell. rewrite Etell.
  simpl in Etell. inversion Etell; subst. clear Etell.
  cbn [padding_runs app].
  apply run_padding_returned in H. destruct H as [Epad1 H].
  apply list_eqb_eq in Epad1. rewrite Epad1.
  exists q3. rewrite padding_runs_bind.
  run_bind_in H as srd q4 Esrd. rewrite Esrd.
  rewrite no_padding_runs.
  2:{ destruct (flag_eqb _ _); [|exact I].
      apply no_padding_bind; [exact (fun _ => I)|]. intros ?.
      apply no_padding_bind; [apply no_padding_check_int|]. intros ?.
      apply no_padding_bind;
        [apply no_padding_read_times, no_padding_range_data_read|].
      intros ?. exact I. }
  cbn [app]. rewrite padding_runs_bind.
  run_bind_in H as pos2 q5 Etell2. rewrite Etell2.
  simpl in Etell2. inversion Etell2; subst. clear Etell2.
  cbn [padding_runs app].
  apply run_padding_returned in H. destruct H as [Epad2 H].
  apply list_eqb_eq in Epad2. rewrite Epad2.
  exists q5. do 2 f_equal.
  rewrite padding_runs_bind.
  run_bind_in H as u1 q6 Echk2. rewrite Echk2.
  rewrite no_padding_runs
    by (destruct (negb _);
        [apply no_padding_bind; [exact (fun _ => I)|];
         intros; apply no_padding_check_int|exact I]).
  cbn [app]. rewrite padding_runs_bind.
  run_bind_in H as td q7 Etd. rewrite Etd.
  rewrite no_padding_runs by apply no_padding_read_uint_array.
  reflexivity.
Qed.

(* ================================================================== *)
(** * What [read] hands to the unpacking loop *)
(* ================================================================== *)

(** A range triple that was read has three minima and three extents. *)
Lemma run_range_data_read_returned {io : IoUtil} segment data pos r pos' :
  run (RangeData.read segment) data pos = Returned r pos' ->
  length (RangeData.min_xyz r) = 3%nat
  /\ length (RangeData.extent_xyz r) = 3%nat.
Proof.
  unfold RangeData.read. destruct segment; intros H.
  - run_bind_in H as a p1 Ea. run_bind_in H as b p2 Eb.
    simpl in H. inversion H; subst. clear H. cbn.
    unfold read_vec3_i8 in Ea, Eb. cbn [run] in Ea, Eb.
    destruct (Z.eqb_spec (len (f_read data pos 3)) 3) as [La|];
      [|discriminate].
    destruct (Z.eqb_spec (len (f_read data p1 3)) 3) as [Lb|];
      [|discriminate].
    simpl in Ea, Eb. inversion Ea; inversion Eb; subst.
    rewrite !length_map. unfold len in *. lia.
  - run_bind_in H as a p1 Ea. run_bind_in H as b p2 Eb.
    simpl in H. inversion H; subst. clear H. cbn.
    unfold read_vec3_f32, read_float32_array in Ea, Eb.
    run_bind_in Ea as wa qa Ewa. run_bind_in Eb as wb qb Ewb.
    apply run_read_uint_array_returned in Ewa, Ewb.
    simpl in Ea, Eb. inversion Ea; inversion Eb; subst.
    rewrite !length_map. unfold len in *. lia.
Qed.

(** The bytes of the track data hold all the bits of the samples, as long
    as their number is below [2 ^ 53]. *)
Lemma ceil_div8_covers n : 0 <= n < 2 ^ 53 -> n <= 8 * ceil_div8 n.
Proof.
  intros Hn. unfold ceil_div8, round53.
  destruct (Z.ltb_spec n (2 ^ 53)); [|lia].
  pose proof (Z.div_mod (n + 7) 8 ltac:(lia)).
  pose proof (Z.mod_pos_bound (n + 7) 8 ltac:(lia)).
  lia.
Qed.

Lemma run_read_segment_data_track_data {io : IoUtil} clip_header
      segment_range_reduction range_count h data pos
      bit_rates segment_range_data track_data pos' :
  run (CompressedClip.read_segment_data clip_header segment_range_reduction
         range_count h) data pos
  = Returned (bit_rates, segment_range_data, track_data) pos' ->
  len track_data
  = ceil_div8 (sum bit_rates * 3 * SegmentHeader.num_samples h).
Proof.
  unfold CompressedClip.read_segment_data. intros H.
  run_bind_in H as u0 p0 Echk.
  run_bind_in H as raw p1 Eraw.
  run_bind_in H as rates p2 Erates.
  run_bind_in H as pos1 p3 Etell.
  apply run_padding_returned in H. destruct H as [_ H].
  run_bind_in H as srd p4 Esrd.
  run_bind_in H as pos2 p5 Etell2.
  apply run_padding_returned in H. destruct H as [_ H].
  run_bind_in H as u1 p6 Echk2.
  run_bind_in H as td p7 Etd.
  simpl in H. inversion H; subst. clear H.
  apply run_read_uint_array_returned in Etd. apply Etd.
Qed.

(* ================================================================== *)
(** * The sample records, byte by byte *)
(* ================================================================== *)

(** The record of C1. *)
Example static_clip_bytes :
  static_clip
  =
    [91; 0; 0; 0; 18; 52; 86; 120; 16; 172; 16; 172; 3; 0; 0; 0; 1; 0; 1;
     0; 4; 3; 3; 7; 0; 0; 1; 0; 1; 0; 0; 0; 30; 0; 0; 0; 32; 0; 52; 0; 56;
     0; 60; 0; 60; 0; 0; 0; 1; 0; 0; 0; 0; 0; 0; 0; 60; 0; 0; 0; 60; 0; 0;
     0; 60; 0; 0; 0; 0; 0; 0; 192; 0; 0; 0; 192; 205; 205; 205; 205; 205;
     205; 205; 205; 205; 205; 205; 205; 205; 205; 205].
Proof. vm_compute. reflexivity. Qed.

(** The record of the counterexample to C3. *)
Example short_constants_clip_bytes :
  short_constants_clip
  =
    [91; 0; 0; 0; 18; 52; 86; 120; 16; 172; 16; 172; 3; 0; 0; 0; 1; 0; 1;
     0; 4; 3; 3; 7; 0; 0; 1; 0; 1; 0; 0; 0; 30; 0; 0; 0; 32; 0; 52; 0; 56;
     0; 60; 0; 60; 0; 0; 0; 1; 0; 0; 0; 0; 0; 0; 0; 60; 0; 0; 0; 60; 0; 0;
     0; 60; 0; 0; 0; 0; 0; 0; 0; 0; 0; 0; 192; 205; 205; 205; 205; 205;
     205; 205; 205; 205; 205; 205; 205; 205; 205; 205].
Proof. vm_compute. reflexivity. Qed.

(** The record of the counterexample to C2. *)
Example default_only_clip_bytes :
  default_only_clip
  =
    [176; 0; 0; 0; 18; 52; 86; 120; 16; 172; 16; 172; 3; 0; 0; 0; 1; 0; 1;
     0; 4; 3; 3; 7; 0; 1; 1; 0; 1; 0; 0; 0; 30; 0; 0; 0; 32; 0; 52; 0; 56;
     0; 60; 0; 60; 0; 0; 0; 1; 0; 0; 0; 0; 0; 0; 0; 132; 0; 0; 0; 136; 0;
     0; 0; 136; 0; 0; 0; 0; 0; 0; 128; 0; 0; 0; 0; 0; 0; 0; 0; 0; 0; 0; 0;
     0; 0; 0; 0; 0; 0; 128; 63; 0; 0; 128; 63; 0; 0; 128; 63; 0; 0; 0; 0;
     0; 0; 0; 0; 0; 0; 0; 0; 0; 0; 128; 63; 0; 0; 128; 63; 0; 0; 128; 63;
     0; 0; 0; 0; 0; 0; 0; 0; 0; 0; 0; 0; 0; 0; 128; 63; 0; 0; 128; 63; 0;
     0; 128; 63; 6; 6; 6; 205; 1; 2; 3; 4; 5; 6; 7; 8; 9; 205; 205; 205;
     205; 205; 205; 205; 205; 205; 205; 205; 205; 205; 205; 205].
Proof. vm_compute. reflexivity. Qed.

(** The record of C6; the flag is the byte at position 23. *)
Example bad_flag_clip_bytes :
  bad_flag_clip
  =
    [91; 0; 0; 0; 18; 52; 86; 120; 16; 172; 16; 172; 3; 0; 0; 0; 1; 0; 1;
     0; 4; 3; 3; 8; 0; 0; 1; 0; 1; 0; 0; 0; 30; 0; 0; 0; 32; 0; 52; 0; 56;
     0; 60; 0; 60; 0; 0; 0; 1; 0; 0; 0; 0; 0; 0; 0; 60; 0; 0; 0; 60; 0; 0;
     0; 60; 0; 0; 0; 0; 0; 0; 192; 0; 0; 0; 192; 205; 205; 205; 205; 205;
     205; 205; 205; 205; 205; 205; 205; 205; 205; 205].
Proof. vm_compute. reflexivity. Qed.

(** The record of the counterexample to C10. *)
Example zero_rate_empty_clip_bytes :
  zero_rate_empty_clip
  =
    [119; 0; 0; 0; 18; 52; 86; 120; 16; 172; 16; 172; 3; 0; 0; 0; 1; 0; 1;
     0; 4; 3; 3; 7; 0; 1; 1; 0; 0; 0; 0; 0; 30; 0; 0; 0; 32; 0; 52; 0; 56;
     0; 60; 0; 60; 0; 0; 0; 0; 0; 0; 0; 0; 0; 0; 0; 84; 0; 0; 0; 86; 0; 0;
     0; 88; 0; 0; 0; 0; 0; 0; 192; 0; 0; 0; 192; 0; 0; 0; 0; 0; 0; 0; 0;
     0; 0; 0; 0; 0; 0; 128; 63; 0; 0; 128; 63; 0; 0; 128; 63; 0; 205; 205;
     205; 205; 205; 205; 205; 205; 205; 205; 205; 205; 205; 205; 205; 205;
     205; 205].
Proof. vm_compute. reflexivity. Qed.

(** ** All the padding runs of [read] *)

Lemma no_padding_read_uint n : no_padding (read_uint n).
Proof. intros bs. destruct (_ =? _); exact I. Qed.

Lemma no_padding_check_bytes a e msg : no_padding (check_bytes a e msg).
Proof. unfold check_bytes. destruct (list_eqb a e); exact I. Qed.

Lemma no_padding_read_preamble : no_padding CompressedClip.read_preamble.
Proof.
  unfold CompressedClip.read_preamble, read_uint32, read_uint16, read_uint8.
  repeat (apply no_padding_bind;
          [first [apply no_padding_read_uint | apply no_padding_check_bytes
                 | apply no_padding_check_int | exact (fun _ => I)]
          |intros ?]).
  exact I.
Qed.

Lemma no_padding_read_tracks {io : IoUtil} :
  no_padding CompressedClip.read_tracks.
Proof.
  unfold CompressedClip.read_tracks.
  apply no_padding_bind; [apply no_padding_read_preamble|].
  intros [[offset size] data_hash].
  apply no_padding_bind; [exact (fun _ _ => I)|]. intros clip_header.
  apply no_padding_bind;
    [apply no_padding_read_times; exact (fun _ _ => I)|].
  intros segment_headers.
  apply no_padding_bind; [apply no_padding_lift|]. intros srr.
  apply no_padding_bind; [apply no_padding_read_uint_array|]. intros dbits.
  apply no_padding_bind; [apply no_padding_read_uint_array|]. intros cbits.
  apply no_padding_bind; [apply no_padding_read_float32_array|]. intros cd.
  destruct (CompressedClip.set_tracks_flags _ _ _ _ _ 0 0) as [[tr cc] rc].
  apply no_padding_bind; [exact (fun _ => I)|]. intros p.
  apply no_padding_bind; [apply no_padding_check_int|]. intros u.
  apply no_padding_bind;
    [apply no_padding_read_times, no_padding_range_data_read|].
  intros rd. exact I.
Qed.

Lemma padding_runs_read_segment {io : IoUtil} clip_header
      segment_range_reduction range_count range_data vars h data pos
      vars' pos' :
  run (CompressedClip.read_segment clip_header segment_range_reduction
         range_count range_data vars h) data pos = Returned vars' pos' ->
  forall s n,
    In (s, n)
       (padding_runs (CompressedClip.read_segment clip_header
                        segment_range_reduction range_count range_data
                        vars h) data pos) ->
    segment_padding (ClipHeader.offset clip_header) s n.
Proof.
  unfold CompressedClip.read_segment. intros H s n Hin.
  rewrite padding_runs_bind in Hin.
  run_bind_in H as d p1 Ed. rewrite Ed in Hin.
  destruct (padding_runs_read_segment_data _ _ _ _ _ _ _ _ Ed)
    as (q1 & q2 & Eruns).
  rewrite Eruns in Hin.
  rewrite no_padding_runs in Hin.
  2:{ destruct d as [[br srd] td].
      apply no_padding_bind; [apply no_padding_lift|].
      intros [m f]. exact I. }
  cbn [app In] in Hin. unfold segment_padding.
  destruct Hin as [E|[E|[]]]; inversion E; subst; auto.
Qed.

Lemma padding_runs_read_segments {io : IoUtil} clip_header
      segment_range_reduction range_count range_data hs :
  forall vars data pos vars' pos',
    run (CompressedClip.read_segments clip_header segment_range_reduction
           range_count range_data hs vars) data pos = Returned vars' pos' ->
    forall s n,
      In (s, n)
         (padding_runs (CompressedClip.read_segments clip_header
                          segment_range_reduction range_count range_data
                          hs vars) data pos) ->
      segment_padding (ClipHeader.offset clip_header) s n.
Proof.
  induction hs as [|h hs IH]; intros vars data pos vars' pos' H s n Hin.
  - simpl in Hin. contradiction.
  - cbn [CompressedClip.read_segments] in H, Hin.
    rewrite padding_runs_bind in Hin.
    run_bind_in H as v1 p1 E1. rewrite E1 in Hin.
    apply in_app_or in Hin. destruct Hin as [Hin|Hin].
    + eapply padding_runs_read_segment; eauto.
    + eapply IH; eauto.
Qed.

(** Every padding run of a decode that succeeds is one of a segment, with
    the length that aligns its position, or the tail. *)
Lemma padding_runs_read {io : IoUtil} data pos clip pos' :
  run CompressedClip.read data pos = Returned clip pos' ->
  forall s n,
    In (s, n) (padding_runs CompressedClip.read data pos) ->
    segment_padding (ClipHeader.offset (CompressedClip.clip_header clip)) s n
    \/ (s = pos' - 15 /\ n = 15).
Proof.
  intros Hrun s n Hin.
  destruct (run_read_returned _ _ _ _ Hrun)
    as (ctx & pos1 & vars & pos2 & E1 & E2 & E3).
  unfold CompressedClip.read in Hin.
  rewrite padding_runs_bind, E1 in Hin.
  rewrite (no_padding_runs _ _ no_padding_read_tracks) in Hin.
  cbn [app] in Hin. rewrite padding_runs_bind, E2 in Hin.
  pose proof (run_read_finish_returned _ _ _ _ _ _ E3)
    as (_ & Hh & _ & _ & _ & Hp & Hruns).
  rewrite Hruns in Hin.
  apply in_app_or in Hin. destruct Hin as [Hin|Hin].
  - left. rewrite Hh. eapply padding_runs_read_segments; eauto.
  - right. cbn [In] in Hin. destruct Hin as [E|[]].
    inversion E; subst. split; [lia|reflexivity].
Qed.

(* ================================================================== *)
(** * Padding (C8) *)
(* ================================================================== *)

(** C8.  In a decode that succeeds, the padding runs that were consumed
    are the tail, 15 bytes long, and the runs of the segments, each as
    long as it takes to bring the position to an even offset (after the bit
    rates) or to a multiple of 4 (before the track data); every byte of
    every run is the sentinel [0xCD]; and once a single byte of a run is
    altered, decode raises the error of [io.check]. *)
Theorem C8_padding_runs_are_sentinel :
  forall (io : IoUtil) data pos clip pos',
    0 <= pos ->
    run CompressedClip.read data pos = Returned clip pos' ->
    In (pos' - 15, 15) (padding_runs CompressedClip.read data pos)
    /\ forall s n,
         In (s, n) (padding_runs CompressedClip.read data pos) ->
         (segment_padding
            (ClipHeader.offset (CompressedClip.clip_header clip)) s n
          \/ (s = pos' - 15 /\ n = 15))
         /\ forall i,
              s <= i < s + n ->
              nth_error data (Z.to_nat i) = Some PAD_BYTE
              /\ forall b, b <> PAD_BYTE ->
                   exists pos'',
                     run CompressedClip.read (alter data i b) pos
                     = Raised (CheckError "") pos''.
Proof.
  intros io data pos clip pos' Hpos Hrun. split.
  - destruct (run_read_returned _ _ _ _ Hrun)
      as (ctx & pos1 & vars & pos2 & E1 & E2 & E3).
    unfold CompressedClip.read.
    rewrite padding_runs_bind, E1, padding_runs_bind, E2.
    apply run_read_finish_returned in E3.
    destruct E3 as (_ & _ & _ & _ & _ & -> & ->).
    apply in_or_app; right. apply in_or_app; right.
    replace (pos2 + 15 - 15) with pos2 by lia. now left.
  - intros s n Hin. split.
    + eapply padding_runs_read; eauto.
    + intros i Hi.
      destruct (padding_runs_checked _ _ _ _ _ Hpos Hrun s n i Hin Hi)
        as (_ & Hnth & Halt).
      split; [assumption|]. exact Halt.
Qed.

Lemma C8_padding_runs_are_sentinel_witness :
  In (125 - 15, 15)
     (padding_runs (@CompressedClip.read sample_io) unit_clip 0)
  /\ segment_padding 16 101 1
  /\ nth_error unit_clip (Z.to_nat 101) = Some PAD_BYTE
  /\ exists pos'',
       run (@CompressedClip.read sample_io) (alter unit_clip 101 0) 0
       = Raised (CheckError "") pos''.
Proof.
  destruct (run (@CompressedClip.read sample_io) unit_clip 0)
    as [clip p|e p] eqn:Erun; [|vm_compute in Erun; discriminate].
  assert (Ep : p = 125) by (vm_compute in Erun; congruence). subst p.
  destruct (C8_padding_runs_are_sentinel sample_io unit_clip 0 clip 125
              ltac:(discriminate) Erun) as [Htail Hruns].
  split; [exact Htail|].
  assert (Hin : In (101, 1)
                   (padding_runs (@CompressedClip.read sample_io) unit_clip 0))
    by (vm_compute; left; reflexivity).
  pose proof (Hruns 101 1 Hin) as [_ Hbytes].
  pose proof (Hbytes 101 (conj (Z.le_refl 101) eq_refl)) as [Hnth Halt].
  split; [left; reflexivity|].
  split; [exact Hnth|].
  apply (Halt 0). discriminate.
Defined.

(** The padding runs of the sample [unit_clip]: one byte after the bit
    rate, two bytes before the track data, the tail. *)
Example padding_runs_unit_clip :
  padding_runs (@CompressedClip.read sample_io) unit_clip 0
  = [(101, 1); (102, 2); (110, 15)].
Proof. vm_compute. reflexivity. Qed.

(* ================================================================== *)
(** * More on the round trip *)
(* ================================================================== *)

(** A record with two segments does not come back either: [write] emits
    the bit rates and the track data of the last segment only. *)
Example round_trip_two_segment_clip :
  match run (@CompressedClip.read sample_io) two_segment_clip 0 with
  | Returned clip _ =>
      match CompressedClip.write clip with
      | Ok out => len two_segment_clip = 145 /\ len out = 141
      | Err _ => False
      end
  | Raised _ _ => False
  end.
Proof. vm_compute. split; reflexivity. Qed.

(* ================================================================== *)
(** * What a call sees of the file *)
(* ================================================================== *)

Lemma f_read_full data pos n :
  0 <= pos -> pos + len (f_read data pos n) < len data ->
  0 <= n /\ len (f_read data pos n) = n.
Proof.
  intros Hp H. unfold f_read, len in *.
  destruct (Z.ltb_spec n 0).
  - rewrite length_skipn in H. lia.
  - rewrite length_firstn, length_skipn in *. lia.
Qed.

Lemma f_read_prefix data pos n :
  f_read data pos n
  = firstn (length (f_read data pos n)) (skipn (Z.to_nat pos) data).
Proof.
  unfold f_read. destruct (n <? 0).
  - now rewrite firstn_all.
  - set (rest := skipn (Z.to_nat pos) data).
    rewrite <- (firstn_all (firstn (Z.to_nat n) rest)) at 1.
    rewrite firstn_firstn. f_equal. rewrite length_firstn. lia.
Qed.

(** What [f.read] returns is the slice of the file it has gone over. *)
Lemma f_read_slice data pos n :
  0 <= pos ->
  f_read data pos n = slice data pos (pos + len (f_read data pos n)).
Proof.
  intros Hp. pose proof (len_nonneg (f_read data pos n)) as Hl.
  rewrite slice_nonneg by lia.
  rewrite (f_read_prefix data pos n) at 1. f_equal. unfold len. lia.
Qed.

Lemma len_slice {A} (l : list A) a b :
  0 <= a <= b -> b <= len l -> len (slice l a b) = b - a.
Proof.
  intros Ha Hb. rewrite slice_nonneg by lia. unfold len in *.
  rewrite length_firstn, length_skipn. lia.
Qed.

Lemma slice_firstn {A} (l : list A) a b b' :
  0 <= a <= b' -> b' <= b ->
  slice l a b' = firstn (Z.to_nat (b' - a)) (slice l a b).
Proof.
  intros Ha Hb. rewrite !slice_nonneg by lia.
  rewrite firstn_firstn. f_equal. lia.
Qed.

(** A read that ends before position [q] of the file sees only the bytes
    before [q]. *)
Lemma f_read_frame data data' base pos n q :
  0 <= base <= pos ->
  pos + len (f_read data pos n) <= q -> q < len data ->
  slice data' base q = slice data base q ->
  f_read data' pos n = f_read data pos n.
Proof.
  intros Hb Hq Hlen E.
  destruct (f_read_full data pos n) as [Hn Hfull]; [lia|lia|].
  rewrite Hfull in Hq.
  rewrite !slice_nonneg in E by lia.
  unfold f_read. destruct (Z.ltb_spec n 0); [lia|].
  replace (Z.to_nat pos)
    with ((Z.to_nat pos - Z.to_nat base) + Z.to_nat base)%nat by lia.
  rewrite <- !skipn_skipn.
  rewrite <- (firstn_skipn_firstn (Z.to_nat n) (Z.to_nat pos - Z.to_nat base)
                (Z.to_nat q - Z.to_nat base) (skipn (Z.to_nat base) data'))
    by lia.
  rewrite <- (firstn_skipn_firstn (Z.to_nat n) (Z.to_nat pos - Z.to_nat base)
                (Z.to_nat q - Z.to_nat base) (skipn (Z.to_nat base) data))
    by lia.
  now rewrite E.
Qed.

(** A call that returns before the end of the file returns the same from
    any file with the same bytes between the position [base], at or before
    the start of the call, and the position the call ends at. *)
Lemma run_frame {A} (p : reader A) data data' base :
  forall pos a pos',
    0 <= base <= pos ->
    run p data pos = Returned a pos' -> pos' < len data ->
    slice data' base pos' = slice data base pos' ->
    run p data' pos = Returned a pos'.
Proof.
  induction p as [a0|e|k IH|n k IH|n k IH];
    intros pos a pos' Hb Hrun Hlen E; simpl in *.
  - exact Hrun.
  - discriminate.
  - eapply IH; eauto.
  - set (bs := f_read data pos n) in *.
    pose proof (len_nonneg bs) as Hbs.
    pose proof (run_pos_le (k bs) data (pos + len bs)) as Hle.
    rewrite Hrun in Hle.
    rewrite (f_read_frame data data' base pos n pos')
      by (fold bs; lia || assumption).
    fold bs. eapply IH; eauto. lia.
  - set (bs := f_read data pos n) in *.
    pose proof (len_nonneg bs) as Hbs.
    destruct (list_eqb bs (repeat PAD_BYTE (Z.to_nat n))) eqn:Eq;
      [|discriminate].
    pose proof (run_pos_le k data (pos + len bs)) as Hle.
    rewrite Hrun in Hle.
    rewrite (f_read_frame data data' base pos n pos')
      by (fold bs; lia || assumption).
    fold bs. rewrite Eq. eapply IH; eauto. lia.
Qed.

(* ================================================================== *)
(** * The bytes of the two headers *)
(* ================================================================== *)

Lemma all_bytes_app l1 l2 :
  all_bytes (l1 ++ l2) <-> all_bytes l1 /\ all_bytes l2.
Proof. apply Forall_app. Qed.

Lemma all_bytes_firstn n l : all_bytes l -> all_bytes (firstn n l).
Proof.
  intros H. rewrite <- (firstn_skipn n l) in H.
  now apply all_bytes_app in H.
Qed.

Lemma all_bytes_skipn n l : all_bytes l -> all_bytes (skipn n l).
Proof.
  intros H. rewrite <- (firstn_skipn n l) in H.
  now apply all_bytes_app in H.
Qed.

Lemma le_combine_bound bs :
  all_bytes bs -> 0 <= le_combine bs < 256 ^ len bs.
Proof.
  unfold len.
  induction 1 as [|b bs Hb Hbs IH]; [simpl; lia|].
  cbn [le_combine length]. rewrite Nat2Z.inj_succ, Z.pow_succ_r by lia. lia.
Qed.

(** Splitting the number that bytes combine to gives the bytes back. *)
Lemma le_split_combine bs :
  all_bytes bs -> le_split (length bs) (le_combine bs) = bs.
Proof.
  induction 1 as [|b bs Hb Hbs IH]; [reflexivity|].
  cbn [le_combine le_split length].
  rewrite (Z.mul_comm 256). f_equal.
  - rewrite Z.mod_add by lia. apply Z.mod_small; lia.
  - rewrite Z.div_add by lia. rewrite Z.div_small by lia. exact IH.
Qed.

Lemma le_split_field bs off n :
  all_bytes bs -> (off + n <= length bs)%nat ->
  le_split n (field bs off n) = firstn n (skipn off bs).
Proof.
  intros Hb Hn. unfold field.
  assert (Hl : length (firstn n (skipn off bs)) = n)
    by (rewrite length_firstn, length_skipn; lia).
  rewrite <- Hl at 1.
  apply le_split_combine, all_bytes_firstn, all_bytes_skipn, Hb.
Qed.

Lemma field_bound bs off n :
  all_bytes bs -> 0 <= field bs off n < 256 ^ Z.of_nat n.
Proof.
  intros Hb. unfold field.
  pose proof (le_combine_bound (firstn n (skipn off bs))
                (all_bytes_firstn _ _ (all_bytes_skipn _ _ Hb))) as H.
  assert (256 ^ len (firstn n (skipn off bs)) <= 256 ^ Z.of_nat n).
  { apply Z.pow_le_mono_r; [lia|]. unfold len. rewrite length_firstn. lia. }
  lia.
Qed.

Lemma of_signed32_to_signed32 u :
  0 <= u < 2 ^ 32 -> of_signed32 (to_signed32 u) = u.
Proof.
  intros Hu. unfold of_signed32, to_signed32.
  destruct (Z.ltb_spec u (2 ^ 31)).
  - apply Z.mod_small; lia.
  - replace (u - 2 ^ 32) with (u + (-1) * 2 ^ 32) by lia.
    rewrite Z.mod_add by lia. apply Z.mod_small; lia.
Qed.

Lemma clip_header_to_bytes_of_bytes off raw :
  length raw = 32%nat -> all_bytes raw ->
  ClipHeader.to_bytes (ClipHeader.of_bytes off raw) = raw.
Proof.
  intros Hl Hb.
  unfold ClipHeader.to_bytes, ClipHeader.of_bytes, readinto.
  cbn [ClipHeader.num_bones ClipHeader.num_segments
       ClipHeader.rotation_format ClipHeader.translation_format
       ClipHeader.scale_format ClipHeader.clip_range_reduction
       ClipHeader.segment_range_reduction ClipHeader.has_scale
       ClipHeader.default_scale ClipHeader.padding ClipHeader.num_samples
       ClipHeader.sample_rate ClipHeader.segment_headers_offset
       ClipHeader.default_tracks_bitset_offset
       ClipHeader.constant_tracks_bitset_offset
       ClipHeader.constant_tracks_data_offset
       ClipHeader.clip_range_data_offset ClipHeader.padding2].
  rewrite Hl, Nat.sub_diag. cbn [repeat]. rewrite app_nil_r.
  rewrite !le_split_field by (assumption || (rewrite Hl; lia)).
  do 32 (destruct raw as [|? raw]; [discriminate|]).
  destruct raw; [reflexivity|discriminate].
Qed.

Lemma segment_header_to_bytes_of_bytes off raw :
  length raw = 20%nat -> all_bytes raw ->
  SegmentHeader.to_bytes (SegmentHeader.of_bytes off raw) = raw.
Proof.
  intros Hl Hb.
  unfold SegmentHeader.to_bytes, SegmentHeader.of_bytes, readinto.
  cbn [SegmentHeader.num_samples SegmentHeader.animated_pose_bit_size
       SegmentHeader.format_per_track_data_offset
       SegmentHeader.range_data_offset SegmentHeader.track_data_offset].
  rewrite Hl, Nat.sub_diag. cbn [repeat]. rewrite app_nil_r.
  rewrite !of_signed32_to_signed32
    by (pose proof (field_bound raw 4 4 Hb);
        pose proof (field_bound raw 8 4 Hb);
        pose proof (field_bound raw 12 4 Hb);
        pose proof (field_bound raw 16 4 Hb);
        change (256 ^ Z.of_nat 4) with (2 ^ 32) in *; assumption).
  rewrite !le_split_field by (assumption || (rewrite Hl; lia)).
  do 20 (destruct raw as [|? raw]; [discriminate|]).
  destruct raw; [reflexivity|discriminate].
Qed.

(** X1.  The 32 bytes that [ClipHeader.read] takes from the file are the
    bytes that [f.write(clip_header)] writes back: every field of the
    packed little-endian structure keeps its bytes. *)
Theorem clip_header_bytes_round_trip :
  forall off raw,
    length raw = 32%nat -> all_bytes raw ->
    ClipHeader.to_bytes (ClipHeader.of_bytes off raw) = raw.
Proof. exact clip_header_to_bytes_of_bytes. Qed.

Lemma clip_header_bytes_round_trip_witness :
  ClipHeader.to_bytes
    (ClipHeader.of_bytes 16 (firstn 32 (skipn 16 unit_clip)))
  = firstn 32 (skipn 16 unit_clip).
Proof.
  apply clip_header_bytes_round_trip.
  - reflexivity.
  - vm_compute. repeat constructor; discriminate.
Defined.

(** X2.  The 20 bytes that [SegmentHeader.read] takes from the file are
    the bytes that [io.write_struct_array] writes back for the header: the
    four signed fields give back the bytes they were read from, also when
    the field is negative. *)
Theorem segment_header_bytes_round_trip :
  forall off raw,
    length raw = 20%nat -> all_bytes raw ->
    SegmentHeader.to_bytes (SegmentHeader.of_bytes off raw) = raw.
Proof. exact segment_header_to_bytes_of_bytes. Qed.

Lemma segment_header_bytes_round_trip_witness :
  SegmentHeader.to_bytes
    (SegmentHeader.of_bytes 48 [5; 0; 0; 0; 255; 255; 255; 255;
                                100; 0; 0; 0; 0; 0; 0; 128; 104; 0; 0; 0])
  = [5; 0; 0; 0; 255; 255; 255; 255;
     100; 0; 0; 0; 0; 0; 0; 128; 104; 0; 0; 0].
Proof.
  apply segment_header_bytes_round_trip.
  - reflexivity.
  - repeat constructor; discriminate.
Defined.

(* ================================================================== *)
(** * The clips [read] accepts *)
(* ================================================================== *)

Lemma index_Ok {A} (l : list A) i a :
  index l i = Ok a ->
  exists k, i = Z.of_nat k /\ nth_error l k = Some a.
Proof.
  unfold index. destruct (Z.ltb_spec i 0); [discriminate|].
  destruct (nth_error l (Z.to_nat i)) as [x|] eqn:E; [|discriminate].
  intros Hi; inversion Hi; subst.
  exists (Z.to_nat i). split; [lia|assumption].
Qed.

(** Picks the entry that an index selects in a table of 8 entries at
    most. *)
Ltac table_cases H k F :=
  apply index_Ok in H; destruct H as (k & H & F);
  do 8 (try (destruct k as [|k];
             [cbn in F; inversion F; subst; clear F
             |cbn [nth_error] in F]));
  try (destruct k; discriminate F).

(** The header fields with which the checks of the formats pass. *)
Lemma check_formats_Ok_iff :
  forall h srr,
    CompressedClip.check_formats h = Ok srr <->
    ClipHeader.clip_range_reduction h = 7
    /\ (ClipHeader.segment_range_reduction h = 0
        /\ srr = Some "None"%string
        \/ ClipHeader.segment_range_reduction h = 7
           /\ srr = Some "AllTracks"%string)
    /\ ClipHeader.rotation_format h = 4
    /\ ClipHeader.translation_format h = 3
    /\ ClipHeader.scale_format h = 3
    /\ ClipHeader.default_scale h = 1.
Proof.
  intros h srr. split.
  - unfold CompressedClip.check_formats.
    destruct (index ClipHeader.RANGE_REDUCTION_FLAGS
                (ClipHeader.clip_range_reduction h)) as [crr|] eqn:E1;
      [|discriminate].
    cbn [rbind].
    destruct (negb (flag_eqb crr "AllTracks")) eqn:F1; [discriminate|].
    destruct (index ClipHeader.RANGE_REDUCTION_FLAGS
                (ClipHeader.segment_range_reduction h)) as [s|] eqn:E2;
      [|discriminate].
    cbn [rbind].
    destruct (negb (flag_eqb s "None" || flag_eqb s "AllTracks")) eqn:F2;
      [discriminate|].
    destruct (index ClipHeader.ROTATION_FORMAT
                (ClipHeader.rotation_format h)) as [rf|] eqn:E3;
      [|discriminate].
    cbn [rbind].
    destruct (index ClipHeader.VECTOR_FORMAT
                (ClipHeader.translation_format h)) as [tf|] eqn:E4;
      [|discriminate].
    cbn [rbind].
    destruct (index ClipHeader.VECTOR_FORMAT
                (ClipHeader.scale_format h)) as [sf|] eqn:E5;
      [|discriminate].
    cbn [rbind].
    destruct (negb (rf =? "QuatDropW_Variable")%string) eqn:F3;
      [discriminate|].
    destruct (negb (tf =? "Vector3_Variable")%string) eqn:F4;
      [discriminate|].
    destruct (negb (sf =? "Vector3_Variable")%string) eqn:F5;
      [discriminate|].
    destruct (Z.eqb_spec (ClipHeader.default_scale h) 1) as [E6|];
      [|discriminate].
    cbn [negb]. intros H; inversion H; subst s; clear H.
    table_cases E1 k1 G1; try (vm_compute in F1; discriminate F1).
    table_cases E2 k2 G2; try (vm_compute in F2; discriminate F2);
      (table_cases E3 k3 G3; try (vm_compute in F3; discriminate F3);
       table_cases E4 k4 G4; try (vm_compute in F4; discriminate F4);
       table_cases E5 k5 G5; try (vm_compute in F5; discriminate F5);
       rewrite E1, E2, E3, E4, E5;
       repeat split; auto).
  - intros (H1 & H2 & H3 & H4 & H5 & H6).
    unfold CompressedClip.check_formats.
    rewrite H1, H3, H4, H5, H6.
    destruct H2 as [[-> ->]|[-> ->]]; reflexivity.
Qed.

(** X3.  The checks of the formats pass for one combination of header
    fields only: clip range reduction 7 (AllTracks), segment range
    reduction 0 (None) or 7 (AllTracks), rotation format 4, translation
    and scale format 3 (the variable formats) and default scale 1.  The
    value kept for the segments is then the name of the segment range
    reduction. *)
Theorem check_formats_accepts :
  forall h srr,
    CompressedClip.check_formats h = Ok srr <->
    ClipHeader.clip_range_reduction h = 7
    /\ (ClipHeader.segment_range_reduction h = 0
        /\ srr = Some "None"%string
        \/ ClipHeader.segment_range_reduction h = 7
           /\ srr = Some "AllTracks"%string)
    /\ ClipHeader.rotation_format h = 4
    /\ ClipHeader.translation_format h = 3
    /\ ClipHeader.scale_format h = 3
    /\ ClipHeader.default_scale h = 1.
Proof. exact check_formats_Ok_iff. Qed.

Lemma check_formats_accepts_witness :
  CompressedClip.check_formats (sample_header 1 7 1 2 0)
  = Ok (Some "None"%string).
Proof.
  apply (proj2 (check_formats_accepts (sample_header 1 7 1 2 0)
                  (Some "None"%string))).
  cbn. repeat split; auto.
Defined.

(* ================================================================== *)
(** * The stages of a decode that succeeds *)
(* ================================================================== *)

(** What [read] does from the end of the loop over the segments: the
    fields of the clip, the tail and the check of the size. *)
Lemma run_read_finish_fields ctx vars data pos clip pos' :
  run (CompressedClip.read_finish ctx vars) data pos = Returned clip pos' ->
  CompressedClip.offset clip = CompressedClip.c_offset ctx
  /\ CompressedClip.size clip = CompressedClip.c_size ctx
  /\ CompressedClip.data_hash clip = CompressedClip.c_data_hash ctx
  /\ CompressedClip.default_tracks_bitset clip
     = CompressedClip.c_default_tracks_bitset ctx
  /\ CompressedClip.constant_tracks_bitset clip
     = CompressedClip.c_constant_tracks_bitset ctx
  /\ CompressedClip.range_data clip = CompressedClip.c_range_data ctx
  /\ f_read data pos 15 = repeat PAD_BYTE 15
  /\ pos + 15 - CompressedClip.c_offset ctx = CompressedClip.c_size ctx.
Proof.
  unfold CompressedClip.read_finish.
  destruct (CompressedClip.set_tracks_data _ _ 0) as [bone_tracks idx].
  intros H.
  run_step H. run_check E. subst p.
  apply run_padding_returned in H. destruct H as [Epad H].
  assert (El : len (f_read data pos 15) = 15)
    by (rewrite Epad; reflexivity).
  rewrite El in H.
  run_step H. simpl in E. inversion E; subst v0 p. clear E.
  run_step H. run_check E. subst p.
  run_step H. apply run_local_returned in E. destruct E as [E1 ->].
  run_step H. apply run_local_returned in E. destruct E as [E2 ->].
  simpl in H. inversion H; subst; simpl.
  repeat split; auto.
Qed.

(** What [read] does up to the clip range data, call by call. *)
Lemma run_read_tracks_stages {io : IoUtil} data pos ctx pos' :
  run CompressedClip.read_tracks data pos = Returned ctx pos' ->
  let h := CompressedClip.c_clip_header ctx in
  exists p0 p1 p2 p3 p4 p5,
    run CompressedClip.read_preamble data pos
    = Returned (CompressedClip.c_offset ctx, CompressedClip.c_size ctx,
                CompressedClip.c_data_hash ctx) p0
    /\ run ClipHeader.read data p0 = Returned h p1
    /\ run (read_times SegmentHeader.read
              (Z.to_nat (ClipHeader.num_segments h))) data p1
       = Returned (CompressedClip.c_segment_headers ctx) p2
    /\ run (read_uint32_array
              (ClipHeader.get_default_tracks_bitset_size h / 4)) data p2
       = Returned (CompressedClip.c_default_tracks_bitset ctx) p3
    /\ run (read_uint32_array
              (ClipHeader.get_constant_tracks_bitset_size h / 4)) data p3
       = Returned (CompressedClip.c_constant_tracks_bitset ctx) p4
    /\ run (read_float32_array
              (ClipHeader.get_constant_tracks_data_size h / 4)) data p4
       = Returned (CompressedClip.c_constant_tracks_data ctx) p5
    /\ p5 = ClipHeader.clip_range_data_offset h + ClipHeader.offset h
    /\ run (read_times (RangeData.read false)
              (Z.to_nat (CompressedClip.c_range_count ctx))) data p5
       = Returned (CompressedClip.c_range_data ctx) pos'.
Proof.
  unfold CompressedClip.read_tracks. intros H.
  run_bind_in H as pre p0 Epre. destruct pre as [[offset size] data_hash].
  run_bind_in H as clip_header p1 Ehdr.
  run_bind_in H as segment_headers p2 Esegs.
  run_bind_in H as segment_range_reduction p3 Efmt.
  apply run_lift_returned in Efmt. destruct Efmt as [Efmt ->].
  run_bind_in H as default_tracks_bitset p4 Edef.
  run_bind_in H as constant_tracks_bitset p5 Econ.
  run_bind_in H as constant_tracks_data p6 Ecd.
  destruct (CompressedClip.set_tracks_flags _ _ _ _ _ 0 0)
    as [[bone_tracks constant_count] range_count] eqn:Eflags.
  run_bind_in H as pos0 p7 Etell.
  simpl in Etell. inversion Etell; subst pos0 p7. clear Etell.
  run_bind_in H as u p8 Echeck. run_check Echeck. subst p8.
  run_bind_in H as range_data p9 Erd.
  simpl in H. injection H as Ectx Epos. subst ctx pos'. cbv zeta.
  cbn [CompressedClip.c_offset CompressedClip.c_size
       CompressedClip.c_data_hash CompressedClip.c_clip_header
       CompressedClip.c_segment_headers
       CompressedClip.c_default_tracks_bitset
       CompressedClip.c_constant_tracks_bitset
       CompressedClip.c_constant_tracks_data CompressedClip.c_range_count
       CompressedClip.c_range_data].
  exists p0, p1, p2, p4, p5, p6. repeat split; auto.
Qed.

(** The loop over the segments: the bit rates it leaves in the locals
    are those the locals held before it, or as many as [range_count]. *)
Lemma run_read_segments_rates {io : IoUtil} clip_header
      segment_range_reduction range_count range_data hs :
  forall vars data pos vars' pos' bit_rates,
    run (CompressedClip.read_segments clip_header segment_range_reduction
           range_count range_data hs vars) data pos = Returned vars' pos' ->
    CompressedClip.l_bit_rates vars' = Some bit_rates ->
    (hs = [] /\ CompressedClip.l_bit_rates vars = Some bit_rates)
    \/ (hs <> [] /\ 0 <= range_count /\ len bit_rates = range_count).
Proof.
  induction hs as [|h hs IH]; intros vars data pos vars' pos' bit_rates H Hb.
  - simpl in H. inversion H; subst. left; auto.
  - right. split; [discriminate|].
    cbn [CompressedClip.read_segments] in H.
    run_bind_in H as vars1 p1 Eseg.
    destruct (IH _ _ _ _ _ _ H Hb) as [[_ Hb1]|(_ & H1 & H2)];
      [|split; assumption].
    apply run_read_segment_returned in Eseg.
    destruct Eseg as (br & srd & td & Edata & Ebr & _).
    apply run_read_segment_data_returned in Edata.
    rewrite Ebr in Hb1. inversion Hb1; subst. exact Edata.
Qed.

Lemma map_get_range_count tracks tracks' :
  map BoneTrack.use_constant tracks' = map BoneTrack.use_constant tracks ->
  map BoneTrack.get_range_count tracks'
  = map BoneTrack.get_range_count tracks.
Proof.
  revert tracks; induction tracks' as [|t' l' IH]; intros [|t l] E;
    try discriminate; [reflexivity|].
  cbn [map] in *. injection E as E1 E2.
  f_equal; [|auto]. unfold BoneTrack.get_range_count. now rewrite E1.
Qed.

(** X4.  A decode that succeeds has consumed exactly the bytes the
    record declares: the clip keeps the position it was read from as
    [offset], and the cursor ends [size] bytes after it, [size] being the
    first field of the record. *)
Theorem decoded_record_extent :
  forall (io : IoUtil) data pos clip pos',
    run CompressedClip.read data pos = Returned clip pos' ->
    CompressedClip.offset clip = pos
    /\ pos' = pos + CompressedClip.size clip
    /\ run read_uint32 data pos
       = Returned (CompressedClip.size clip) (pos + 4).
Proof.
  intros io data pos clip pos' H.
  apply run_read_returned in H.
  destruct H as (ctx & p1 & vars & p2 & Htracks & Hsegs & Hfin).
  pose proof (run_read_tracks_returned _ _ _ _ Htracks)
    as (_ & _ & _ & _ & Hoff).
  pose proof (run_read_finish_returned _ _ _ _ _ _ Hfin)
    as (_ & _ & _ & _ & _ & Hpos & _).
  pose proof (run_read_finish_fields _ _ _ _ _ _ Hfin)
    as (Eo & Es & _ & _ & _ & _ & _ & Hsize).
  split; [congruence|]. split; [rewrite Es; lia|].
  apply run_read_tracks_stages in Htracks.
  destruct Htracks as (p0 & q1 & q2 & q3 & q4 & q5 & Hpre & _).
  unfold CompressedClip.read_preamble in Hpre.
  run_bind_in Hpre as off q0 Eoff. simpl in Eoff. inversion Eoff; subst.
  run_bind_in Hpre as size q6 Esize.
  repeat (run_step Hpre). simpl in Hpre. inversion Hpre; subst.
  rewrite Es, Esize. f_equal.
  unfold read_uint32, read_uint in Esize. simpl in Esize.
  destruct (Z.eqb_spec (len (f_read data (CompressedClip.c_offset ctx) 4)) 4)
    as [El|]; [|discriminate].
  inversion Esize. lia.
Qed.

(** X5.  A record with no segment is never decoded: the clip is built
    from locals that only the loop over the segments assigns.  On a
    decode that succeeds the header counts at least one segment, the clip
    has as many segment headers as the header counts, and as many bone
    tracks as the header counts bones. *)
Theorem decoded_clip_has_segments :
  forall (io : IoUtil) data pos clip pos',
    run CompressedClip.read data pos = Returned clip pos' ->
    let h := CompressedClip.clip_header clip in
    1 <= ClipHeader.num_segments h
    /\ len (CompressedClip.segment_headers clip) = ClipHeader.num_segments h
    /\ length (CompressedClip.bone_tracks clip)
       = Z.to_nat (ClipHeader.num_bones h).
Proof.
  intros io data pos clip pos' H.
  apply run_read_returned in H.
  destruct H as (ctx & p1 & vars & p2 & Htracks & Hsegs & Hfin).
  pose proof (run_read_tracks_returned _ _ _ _ Htracks)
    as (Hflags & _).
  pose proof (run_read_finish_returned _ _ _ _ _ _ Hfin)
    as (Esegs & Ehdr & Ebr & _ & Eset & _).
  apply run_read_tracks_stages in Htracks.
  destruct Htracks as (p0 & q1 & q2 & q3 & q4 & q5 & _ & _ & Hsh & _).
  apply run_read_times_returned in Hsh.
  destruct (run_read_segments_rates _ _ _ _ _ _ _ _ _ _ _ Hsegs Ebr)
    as [[_ Hnone]|(Hne & _)]; [discriminate|].
  cbv zeta. rewrite Esegs, Ehdr. unfold len. rewrite Hsh.
  assert (Hpos : Z.to_nat (ClipHeader.num_segments
                             (CompressedClip.c_clip_header ctx)) <> 0%nat).
  { intros E0. rewrite E0 in Hsh.
    destruct (CompressedClip.c_segment_headers ctx); [auto|discriminate]. }
  split; [lia|]. split; [lia|].
  apply set_tracks_flags_constants in Hflags; [|lia].
  destruct Hflags as (_ & _ & _ & Hlen).
  apply set_tracks_data_keeps in Eset. destruct Eset as (_ & _ & _ & Ek).
  apply (f_equal (@length _)) in Ek. rewrite !length_map in Ek.
  rewrite Ek, Hlen. unfold range. now rewrite length_map, length_seq.
Qed.

(** X6.  On a decode that succeeds, the clip range data and the bit
    rates kept on the clip have one entry for each range-reduced
    component: as many as [get_range_count] gives over all bone tracks. *)
Theorem decoded_range_counts :
  forall (io : IoUtil) data pos clip pos',
    run CompressedClip.read data pos = Returned clip pos' ->
    len (CompressedClip.range_data clip)
    = sum (map BoneTrack.get_range_count (CompressedClip.bone_tracks clip))
    /\ len (CompressedClip.bit_rates clip)
       = len (CompressedClip.range_data clip).
Proof.
  intros io data pos clip pos' H.
  apply run_read_returned in H.
  destruct H as (ctx & p1 & vars & p2 & Htracks & Hsegs & Hfin).
  pose proof (run_read_tracks_returned _ _ _ _ Htracks)
    as (Hflags & _ & Hrd & _).
  pose proof (run_read_finish_returned _ _ _ _ _ _ Hfin)
    as (_ & _ & Ebr & _ & Eset & _).
  pose proof (run_read_finish_fields _ _ _ _ _ _ Hfin)
    as (_ & _ & _ & _ & _ & Erd & _).
  destruct (run_read_segments_rates _ _ _ _ _ _ _ _ _ _ _ Hsegs Ebr)
    as [[_ Hnone]|(_ & Hrc & Hlen)]; [discriminate|].
  apply set_tracks_flags_constants in Hflags; [|lia].
  destruct Hflags as (_ & _ & Hsum & _).
  apply set_tracks_data_keeps in Eset. destruct Eset as (_ & _ & _ & Ek).
  rewrite (map_get_range_count _ _ Ek), Erd.
  unfold len at 1 3. rewrite Hrd. lia.
Qed.

Lemma decoded_record_extent_witness :
  exists clip,
    run (@CompressedClip.read sample_io) unit_clip 0 = Returned clip 125
    /\ CompressedClip.offset clip = 0
    /\ 125 = 0 + CompressedClip.size clip.
Proof.
  destruct (run (@CompressedClip.read sample_io) unit_clip 0)
    as [clip p|e p] eqn:Erun; [|vm_compute in Erun; discriminate].
  assert (Ep : p = 125) by (vm_compute in Erun; congruence). subst p.
  exists clip. split; [reflexivity|].
  destruct (decoded_record_extent sample_io unit_clip 0 clip 125 Erun)
    as (H1 & H2 & _).
  split; assumption.
Defined.

Lemma decoded_clip_has_segments_witness :
  exists clip,
    run (@CompressedClip.read sample_io) two_segment_clip 0
    = Returned clip 145
    /\ 1 <= ClipHeader.num_segments (CompressedClip.clip_header clip)
    /\ len (CompressedClip.segment_headers clip)
       = ClipHeader.num_segments (CompressedClip.clip_header clip).
Proof.
  destruct (run (@CompressedClip.read sample_io) two_segment_clip 0)
    as [clip p|e p] eqn:Erun; [|vm_compute in Erun; discriminate].
  assert (Ep : p = 145) by (vm_compute in Erun; congruence). subst p.
  exists clip. split; [reflexivity|].
  destruct (decoded_clip_has_segments sample_io two_segment_clip 0 clip 145
              Erun) as (H1 & H2 & _).
  split; assumption.
Defined.

Lemma decoded_range_counts_witness :
  exists clip,
    run (@CompressedClip.read sample_io) unit_clip 0 = Returned clip 125
    /\ len (CompressedClip.range_data clip)
       = sum (map BoneTrack.get_range_count
                  (CompressedClip.bone_tracks clip))
    /\ len (CompressedClip.bit_rates clip)
       = len (CompressedClip.range_data clip).
Proof.
  destruct (run (@CompressedClip.read sample_io) unit_clip 0)
    as [clip p|e p] eqn:Erun; [|vm_compute in Erun; discriminate].
  assert (Ep : p = 125) by (vm_compute in Erun; congruence). subst p.
  exists clip. split; [reflexivity|].
  exact (decoded_range_counts sample_io unit_clip 0 clip 125 Erun).
Defined.

(* ================================================================== *)
(** * A decode looks at the bytes of the record only *)
(* ================================================================== *)

Lemma f_read_slice_n data pos n :
  0 <= pos -> 0 <= n -> f_read data pos n = slice data pos (pos + n).
Proof.
  intros Hp Hn. rewrite slice_nonneg by lia. unfold f_read.
  destruct (Z.ltb_spec n 0); [lia|]. f_equal. lia.
Qed.

Lemma slice_skipn {A} (l : list A) a a' b :
  0 <= a <= a' -> a' <= b ->
  slice l a' b = skipn (Z.to_nat (a' - a)) (slice l a b).
Proof.
  intros Ha Hb. rewrite !slice_nonneg by lia.
  rewrite skipn_firstn_comm, skipn_skipn.
  f_equal; [lia|f_equal; lia].
Qed.

(** The end of [read] looks at the 15 bytes of the tail only. *)
Lemma run_read_finish_frame ctx vars data data' pos clip pos' :
  run (CompressedClip.read_finish ctx vars) data pos = Returned clip pos' ->
  f_read data' pos 15 = f_read data pos 15 ->
  run (CompressedClip.read_finish ctx vars) data' pos = Returned clip pos'.
Proof.
  unfold CompressedClip.read_finish.
  destruct (CompressedClip.set_tracks_data _ _ 0) as [bone_tracks idx].
  intros H E. unfold check_int in *.
  destruct (idx =? len (CompressedClip.l_bone_track_floats vars));
    [|discriminate H].
  cbn [bind run] in *. rewrite E.
  destruct (list_eqb (f_read data pos 15) (repeat PAD_BYTE (Z.to_nat 15)));
    [|discriminate H].
  destruct (_ =? _); [|discriminate H]. cbn [bind run] in *.
  destruct (CompressedClip.l_bit_rates vars); [|discriminate H].
  cbn [CompressedClip.local bind run] in *.
  destruct (CompressedClip.l_track_data vars); [|discriminate H].
  exact H.
Qed.

(** A decode that succeeds ends inside the file, and so do its stages. *)
Lemma run_read_positions {io : IoUtil} data pos clip pos' :
  0 <= pos ->
  run CompressedClip.read data pos = Returned clip pos' ->
  exists ctx p1 vars p2,
    run CompressedClip.read_tracks data pos = Returned ctx p1
    /\ run (CompressedClip.read_segments
              (CompressedClip.c_clip_header ctx)
              (CompressedClip.c_segment_range_reduction ctx)
              (CompressedClip.c_range_count ctx)
              (CompressedClip.c_range_data ctx)
              (CompressedClip.c_segment_headers ctx)
              (CompressedClip.init_locals
                 (CompressedClip.c_range_count ctx))) data p1
       = Returned vars p2
    /\ run (CompressedClip.read_finish ctx vars) data p2
       = Returned clip pos'
    /\ pos <= p1 <= p2 /\ pos' = p2 + 15 /\ pos' <= len data.
Proof.
  intros Hpos H.
  apply run_read_returned in H.
  destruct H as (ctx & p1 & vars & p2 & Htracks & Hsegs & Hfin).
  exists ctx, p1, vars, p2.
  pose proof (run_pos_le CompressedClip.read_tracks data pos) as H1.
  rewrite Htracks in H1.
  pose proof (run_pos_le
                (CompressedClip.read_segments
                   (CompressedClip.c_clip_header ctx)
                   (CompressedClip.c_segment_range_reduction ctx)
                   (CompressedClip.c_range_count ctx)
                   (CompressedClip.c_range_data ctx)
                   (CompressedClip.c_segment_headers ctx)
                   (CompressedClip.init_locals
                      (CompressedClip.c_range_count ctx))) data p1) as H2.
  rewrite Hsegs in H2.
  pose proof (run_read_finish_returned _ _ _ _ _ _ Hfin)
    as (_ & _ & _ & _ & _ & Hp & _).
  pose proof (run_read_finish_fields _ _ _ _ _ _ Hfin)
    as (_ & _ & _ & _ & _ & _ & Hpad & _).
  repeat split; auto; try lia.
  apply (f_equal (@length Z)) in Hpad.
  unfold f_read in Hpad. cbn [Z.ltb Z.compare] in Hpad.
  rewrite length_firstn, length_skipn, repeat_length in Hpad.
  unfold len. lia.
Qed.

(** X7.  A decode that succeeds depends on the bytes of the record only:
    from any file that has the same bytes between the position the record
    starts at and the position the decode ends at, the decode returns the
    same clip and ends at the same position, whatever follows the record
    in the file. *)
Theorem decode_depends_on_record_only :
  forall (io : IoUtil) data data' pos clip pos',
    0 <= pos ->
    run CompressedClip.read data pos = Returned clip pos' ->
    slice data' pos pos' = slice data pos pos' ->
    run CompressedClip.read data' pos = Returned clip pos'.
Proof.
  intros io data data' pos clip pos' Hpos H E.
  destruct (run_read_positions data pos clip pos' Hpos H)
    as (ctx & p1 & vars & p2 & Htracks & Hsegs & Hfin & Hle & Hp & Hlen).
  assert (E1 : slice data' pos p1 = slice data pos p1).
  { rewrite (slice_firstn data' pos pos' p1) by lia.
    rewrite (slice_firstn data pos pos' p1) by lia. now rewrite E. }
  assert (E2 : slice data' pos p2 = slice data pos p2).
  { rewrite (slice_firstn data' pos pos' p2) by lia.
    rewrite (slice_firstn data pos pos' p2) by lia. now rewrite E. }
  assert (E3 : f_read data' p2 15 = f_read data p2 15).
  { rewrite !f_read_slice_n by lia. rewrite <- Hp.
    rewrite (slice_skipn data' pos p2 pos') by lia.
    rewrite (slice_skipn data pos p2 pos') by lia. now rewrite E. }
  unfold CompressedClip.read.
  rewrite run_bind.
  rewrite (run_frame _ data data' pos pos ctx p1 ltac:(lia) Htracks
             ltac:(lia) E1).
  rewrite run_bind.
  rewrite (run_frame _ data data' pos p1 vars p2 ltac:(lia) Hsegs
             ltac:(lia) E2).
  apply (run_read_finish_frame ctx vars data data' p2 clip pos' Hfin E3).
Qed.

Lemma decode_depends_on_record_only_witness :
  exists clip,
    run (@CompressedClip.read sample_io) (unit_clip ++ [1; 2; 3]) 0
    = Returned clip 125.
Proof.
  destruct (run (@CompressedClip.read sample_io) unit_clip 0)
    as [clip p|e p] eqn:Erun; [|vm_compute in Erun; discriminate].
  assert (Ep : p = 125) by (vm_compute in Erun; congruence). subst p.
  exists clip.
  apply (decode_depends_on_record_only sample_io unit_clip
           (unit_clip ++ [1; 2; 3]) 0 clip 125 (Z.le_refl 0) Erun).
  vm_compute. reflexivity.
Defined.

(* ================================================================== *)
(** * The shape of the unpacked track data *)
(* ================================================================== *)

Lemma Forall_firstn_of {A} (P : A -> Prop) n l :
  Forall P l -> Forall P (firstn n l).
Proof.
  intros H. rewrite <- (firstn_skipn n l) in H.
  now apply Forall_app in H.
Qed.

Lemma Forall_skipn_of {A} (P : A -> Prop) n l :
  Forall P l -> Forall P (skipn n l).
Proof.
  intros H. rewrite <- (firstn_skipn n l) in H.
  now apply Forall_app in H.
Qed.

Lemma Forall_slice {A} (P : A -> Prop) l a b :
  Forall P l -> Forall P (slice l a b).
Proof. intros H. unfold slice. now apply Forall_firstn_of, Forall_skipn_of. Qed.

Lemma length_list_mul_nat {A} (l : list A) n :
  length (list_mul_nat l n) = (n * length l)%nat.
Proof. induction n; simpl; [reflexivity|]. rewrite length_app. lia. Qed.

Lemma length_concat_const {A} (ll : list (list A)) c :
  Forall (fun l => length l = c) ll ->
  length (concat ll) = (c * length ll)%nat.
Proof.
  induction 1 as [|l ll Hl _ IH]; simpl; [lia|].
  rewrite length_app, IH, Hl. lia.
Qed.

(** [[floats[i * 3: (i + 1) * 3] for i in range(num_samples)]] on a list
    of three floats for each sample. *)
Lemma triples_shape (floats : list float) num_samples :
  length floats = (3 * Z.to_nat num_samples)%nat ->
  samples_of (Z.to_nat num_samples)
    (map (fun i => slice floats (i * 3) ((i + 1) * 3)) (range num_samples)).
Proof.
  intros Hl. split.
  - unfold range. now rewrite !length_map, length_seq.
  - apply Forall_forall. intros xyz Hin.
    apply in_map_iff in Hin. destruct Hin as (i & <- & Hi).
    apply in_range in Hi.
    assert (H : len (slice floats (i * 3) ((i + 1) * 3)) = 3).
    { rewrite len_slice; unfold len; lia. }
    unfold len in H. lia.
Qed.

Lemma length_unpack_zip xyz mins extents :
  length xyz = 3%nat -> length mins = 3%nat -> length extents = 3%nat ->
  length (RangeData.unpack_zip xyz mins extents) = 3%nat.
Proof.
  destruct xyz as [|? [|? [|? [|]]]]; try discriminate.
  destruct mins as [|? [|? [|? [|]]]]; try discriminate.
  destruct extents as [|? [|? [|? [|]]]]; try discriminate.
  reflexivity.
Qed.

Lemma unpack_shape r n xyzs :
  length (RangeData.min_xyz r) = 3%nat ->
  length (RangeData.extent_xyz r) = 3%nat ->
  samples_of n xyzs -> samples_of n (map (RangeData.unpack r) xyzs).
Proof.
  intros Hmin Hext [Hl Hall]. split; [now rewrite length_map|].
  apply Forall_map. revert Hall. apply Forall_impl. intros xyz Hx.
  now apply length_unpack_zip.
Qed.

Lemma index_In {A} (l : list A) i a : index l i = Ok a -> In a l.
Proof.
  intros H. apply index_Ok in H. destruct H as (k & _ & H).
  eapply nth_error_In; eauto.
Qed.

(** Every component gives one sample of three coordinates for each
    sample of the segment, whatever its bit rate. *)
Lemma unpack_component_shape binary track_data_size num_samples
      segment_range_data max_int idx bits rd rid max_int' xyzs :
  CompressedClip.unpack_component binary track_data_size num_samples
    segment_range_data max_int idx bits rd rid = Ok (max_int', xyzs) ->
  length (RangeData.min_xyz rd) = 3%nat ->
  length (RangeData.extent_xyz rd) = 3%nat ->
  (forall s, In (Some s) segment_range_data ->
             length (RangeData.min_xyz s) = 3%nat
             /\ length (RangeData.extent_xyz s) = 3%nat) ->
  samples_of (Z.to_nat num_samples) xyzs.
Proof.
  unfold CompressedClip.unpack_component. intros H Hmin Hext Hsrd.
  match type of H with
  | rbind ?P _ = _ => destruct P as [[m ints]|] eqn:EP; [|discriminate]
  end.
  cbn [rbind] in H.
  assert (Hints : length ints = (3 * Z.to_nat num_samples)%nat).
  { destruct (negb (bits =? 0)).
    - match type of EP with
      | rbind ?Q _ = _ => destruct Q as [l|] eqn:EQ; [|discriminate]
      end.
      cbn [rbind] in EP. inversion EP; subst. apply rmap_length in EQ.
      rewrite EQ, sum_lists_concat.
      rewrite (length_concat_const _ 3).
      + unfold range. rewrite !length_map, length_seq. reflexivity.
      + apply Forall_map, Forall_forall. intros b _.
        unfold range. now rewrite !length_map, length_seq.
    - inversion EP; subst. unfold list_mul.
      rewrite !length_list_mul_nat. simpl. lia. }
  match type of H with
  | rbind ?P _ = _ => destruct P as [xyzs0|] eqn:EX; [|discriminate]
  end.
  cbn [rbind] in H. inversion H; subst. clear H.
  destruct (negb (bits =? 32)).
  - match type of EX with
    | rbind ?Q _ = _ => destruct Q as [floats|] eqn:EF; [|discriminate]
    end.
    cbn [rbind] in EX. apply rmap_length in EF.
    destruct (index segment_range_data rid) as [srd|] eqn:Ei;
      [|discriminate].
    cbn [rbind] in EX. apply index_In in Ei.
    apply unpack_shape; try assumption.
    destruct srd as [s|]; inversion EX; subst.
    + destruct (Hsrd s Ei). apply unpack_shape; try assumption.
      apply triples_shape. congruence.
    + apply triples_shape. congruence.
  - match type of EX with
    | rbind ?Q _ = _ => destruct Q as [bt|] eqn:EB; [|discriminate]
    end.
    cbn [rbind] in EX. apply rmap_length in EB. inversion EX; subst.
    apply triples_shape. rewrite length_map. congruence.
Qed.

Lemma extend_at_app {A} (done : list (list A)) f todo x :
  extend_at (done ++ f :: todo) (length done) x = done ++ (f ++ x) :: todo.
Proof.
  induction done as [|d done IH]; simpl; [reflexivity|]. now rewrite IH.
Qed.

Lemma samples_of_app n m l1 l2 :
  samples_of n l1 -> samples_of m l2 -> samples_of (n + m) (l1 ++ l2).
Proof.
  intros [H1 F1] [H2 F2]. split.
  - rewrite length_app. lia.
  - apply Forall_app. auto.
Qed.

(** The loop over the components of a segment adds the samples of the
    segment to each list of [bone_track_floats] once. *)
Lemma unpack_components_shape binary track_data_size num_samples
      segment_range_data L :
  (forall s, In (Some s) segment_range_data ->
             length (RangeData.min_xyz s) = 3%nat
             /\ length (RangeData.extent_xyz s) = 3%nat) ->
  forall comps idx max_int done todo max_int' floats',
    CompressedClip.unpack_components binary track_data_size num_samples
      segment_range_data comps idx max_int (done ++ todo)
    = Ok (max_int', floats') ->
    map snd comps = map Z.of_nat (seq (length done) (length todo)) ->
    Forall (fun c : Z * RangeData.t * Z =>
              length (RangeData.min_xyz (snd (fst c))) = 3%nat
              /\ length (RangeData.extent_xyz (snd (fst c))) = 3%nat)
           comps ->
    Forall (samples_of (L + Z.to_nat num_samples)) done ->
    Forall (samples_of L) todo ->
    Forall (samples_of (L + Z.to_nat num_samples)) floats'
    /\ length floats' = length (done ++ todo).
Proof.
  intros Hsrd.
  induction comps as [|[[bits rd] rid] comps IH];
    intros idx max_int done todo max_int' floats' H Hrids Hrd Hdone Htodo.
  - destruct todo as [|f todo]; [|discriminate].
    simpl in H. inversion H; subst. rewrite app_nil_r. auto.
  - destruct todo as [|f todo]; [discriminate|].
    cbn [map snd length seq] in Hrids. injection Hrids as Hrid Hrids.
    subst rid.
    cbn [CompressedClip.unpack_components] in H.
    destruct (CompressedClip.unpack_component _ _ _ _ _ _ _ _ _)
      as [[m1 xyzs]|] eqn:Ec; [|discriminate].
    cbn [rbind] in H.
    destruct (index (done ++ f :: todo) (Z.of_nat (length done)));
      [|discriminate].
    cbn [rbind] in H.
    rewrite Nat2Z.id, extend_at_app in H.
    change (done ++ (f ++ xyzs) :: todo)
      with (done ++ [f ++ xyzs] ++ todo) in H.
    rewrite app_assoc in H.
    inversion Hrd as [|c cs Hc Hcs]; subst. cbn [fst snd] in Hc.
    destruct Hc as [Hmin Hext].
    inversion Htodo as [|f0 fs Hf Hfs]; subst.
    pose proof (unpack_component_shape _ _ _ _ _ _ _ _ _ _ _ Ec Hmin Hext
                  Hsrd) as Hx.
    apply IH in H; try assumption.
    + destruct H as [H1 H2]. split; [assumption|].
      rewrite H2, !length_app. cbn [length]. lia.
    + rewrite length_app. cbn [length]. rewrite Nat.add_1_r. exact Hrids.
    + apply Forall_app. split; [assumption|].
      constructor; [|constructor]. now apply samples_of_app.
Qed.

Lemma map_snd_combine_eq {A B} (l1 : list A) (l2 : list B) :
  length l1 = length l2 -> map snd (combine l1 l2) = l2.
Proof.
  revert l2; induction l1 as [|a l1 IH]; intros [|b l2] E;
    try discriminate; [reflexivity|].
  simpl. f_equal. apply IH. now injection E.
Qed.

Lemma In_list_mul_nat {A} (l : list A) n x :
  In x (list_mul_nat l n) -> In x l.
Proof.
  induction n as [|n IH]; simpl; [contradiction|].
  intros H. apply in_app_or in H. tauto.
Qed.

(** What holds of each value a call returns holds of all the values a
    comprehension over the call returns. *)
Lemma run_read_times_forall {A} (p : reader A) (P : A -> Prop) data :
  (forall pos a pos', run p data pos = Returned a pos' -> P a) ->
  forall n pos l pos',
    run (read_times p n) data pos = Returned l pos' -> Forall P l.
Proof.
  intros Hp. induction n as [|n IH]; simpl; intros pos l pos' E.
  - inversion E; constructor.
  - apply run_bind_returned in E. destruct E as (a & p1 & Ea & E).
    apply run_bind_returned in E. destruct E as (l1 & p2 & E1 & E).
    simpl in E. inversion E; subst. constructor; eauto.
Qed.

(** The segment-level triples an iteration reads have three numbers
    each. *)
Lemma run_read_segment_data_ranges {io : IoUtil} clip_header
      segment_range_reduction range_count h data pos
      bit_rates segment_range_data track_data pos' :
  run (CompressedClip.read_segment_data clip_header segment_range_reduction
         range_count h) data pos
  = Returned (bit_rates, segment_range_data, track_data) pos' ->
  forall s, In (Some s) segment_range_data ->
            length (RangeData.min_xyz s) = 3%nat
            /\ length (RangeData.extent_xyz s) = 3%nat.
Proof.
  unfold CompressedClip.read_segment_data. intros H.
  run_bind_in H as u0 p0 Echk.
  run_bind_in H as raw p1 Eraw.
  run_bind_in H as rates p2 Erates.
  run_bind_in H as pos1 p3 Etell.
  apply run_padding_returned in H. destruct H as [_ H].
  run_bind_in H as srd p4 Esrd.
  run_bind_in H as pos2 p5 Etell2.
  apply run_padding_returned in H. destruct H as [_ H].
  run_bind_in H as u1 p6 Echk2.
  run_bind_in H as td p7 Etd.
  simpl in H. inversion H; subst. clear H.
  intros s Hs.
  destruct (flag_eqb segment_range_reduction "AllTracks").
  - run_bind_in Esrd as q0 q1 Eq0.
    run_bind_in Esrd as q2 q3 Eq2.
    run_bind_in Esrd as l q4 El.
    simpl in Esrd. inversion Esrd; subst. clear Esrd.
    apply in_map_iff in Hs. destruct Hs as (s0 & Es0 & Hin).
    inversion Es0; subst s0.
    pose proof (run_read_times_forall (RangeData.read true)
                  (fun r => length (RangeData.min_xyz r) = 3%nat
                            /\ length (RangeData.extent_xyz r) = 3%nat)
                  data
                  (fun pos a pos' => run_range_data_read_returned
                                       true data pos a pos')
                  _ _ _ _ El) as Hall.
    rewrite Forall_forall in Hall. now apply Hall.
  - simpl in Esrd. inversion Esrd; subst.
    unfold list_mul in Hs. apply In_list_mul_nat in Hs.
    destruct Hs as [Hs|[]]; discriminate.
Qed.

Section Shapes.
Context {io : IoUtil}.
Variables (clip_header : ClipHeader.t)
          (segment_range_reduction : option string)
          (range_count : Z) (range_data : list RangeData.t).
Hypothesis range_data_length : length range_data = Z.to_nat range_count.
Hypothesis range_data_triples :
  Forall (fun rd => length (RangeData.min_xyz rd) = 3%nat
                    /\ length (RangeData.extent_xyz rd) = 3%nat)
         range_data.

(** An iteration of the loop over the segments adds the samples of its
    segment to every list of [bone_track_floats]. *)
Lemma run_read_segment_shape vars h data pos vars' pos' L :
  run (CompressedClip.read_segment clip_header segment_range_reduction
         range_count range_data vars h) data pos = Returned vars' pos' ->
  length (CompressedClip.l_bone_track_floats vars) = Z.to_nat range_count ->
  Forall (samples_of L) (CompressedClip.l_bone_track_floats vars) ->
  length (CompressedClip.l_bone_track_floats vars') = Z.to_nat range_count
  /\ Forall (samples_of (L + Z.to_nat (SegmentHeader.num_samples h)))
            (CompressedClip.l_bone_track_floats vars').
Proof.
  intros H Hlen Hall.
  apply run_read_segment_returned in H.
  destruct H as (br & srd & td & Edata & _ & _ & Eun).
  pose proof (run_read_segment_data_returned _ _ _ _ _ _ _ _ _ _ Edata)
    as [Hrc Hbr].
  pose proof (run_read_segment_data_ranges _ _ _ _ _ _ _ _ _ _ Edata)
    as Hsrd.
  change (CompressedClip.l_bone_track_floats vars)
    with ([] ++ CompressedClip.l_bone_track_floats vars) in Eun.
  apply (unpack_components_shape _ _ _ _ L Hsrd) in Eun.
  - destruct Eun as [H1 H2]. split; [|assumption].
    rewrite H2. exact Hlen.
  - unfold zip3. rewrite map_snd_combine_eq.
    + cbn [length]. rewrite Hlen. reflexivity.
    + unfold range. rewrite length_combine, length_map, length_seq.
      unfold len in Hbr. lia.
  - unfold zip3. apply Forall_forall. intros [[b rd] rid] Hin.
    apply in_combine_l in Hin. apply in_combine_r in Hin.
    rewrite Forall_forall in range_data_triples.
    now apply range_data_triples.
  - constructor.
  - exact Hall.
Qed.

Lemma run_read_segments_shape hs :
  forall vars data pos vars' pos' L,
    run (CompressedClip.read_segments clip_header segment_range_reduction
           range_count range_data hs vars) data pos = Returned vars' pos' ->
    length (CompressedClip.l_bone_track_floats vars)
    = Z.to_nat range_count ->
    Forall (samples_of L) (CompressedClip.l_bone_track_floats vars) ->
    length (CompressedClip.l_bone_track_floats vars') = Z.to_nat range_count
    /\ Forall (samples_of
                 (L + list_sum
                        (map (fun h => Z.to_nat (SegmentHeader.num_samples h))
                             hs)))
              (CompressedClip.l_bone_track_floats vars').
Proof.
  induction hs as [|h hs IH]; intros vars data pos vars' pos' L H Hlen Hall.
  - simpl in H. inversion H; subst. simpl. rewrite Nat.add_0_r. auto.
  - cbn [CompressedClip.read_segments] in H.
    run_bind_in H as vars1 p1 Eseg.
    destruct (run_read_segment_shape _ _ _ _ _ _ L Eseg Hlen Hall)
      as [Hlen1 Hall1].
    destruct (IH _ _ _ _ _ _ H Hlen1 Hall1) as [Hlen2 Hall2].
    split; [assumption|].
    cbn [map list_sum fold_right]. cbn [list_sum map fold_right] in Hall2.
    now rewrite Nat.add_assoc.
Qed.

End Shapes.

Lemma set_tracks_data_slices (P : list (list float) -> Prop) floats :
  Forall P floats ->
  forall tracks idx tracks' idx',
    CompressedClip.set_tracks_data tracks floats idx = (tracks', idx') ->
    Forall (fun tr => Forall P (BoneTrack.track_data tr)) tracks'.
Proof.
  intros Hall.
  induction tracks as [|tr tracks IH]; intros idx tracks' idx' H.
  - simpl in H. inversion H; constructor.
  - cbn [CompressedClip.set_tracks_data] in H.
    unfold BoneTrack.set_track_data in H.
    destruct (CompressedClip.set_tracks_data tracks floats _)
      as [tracks1 idx1] eqn:Erec.
    inversion H; subst. clear H.
    constructor; [|eapply IH; eauto].
    cbn [BoneTrack.track_data]. now apply Forall_slice.
Qed.

Lemma all_bytes_f_read data pos n :
  all_bytes data -> all_bytes (f_read data pos n).
Proof.
  intros H. unfold f_read. destruct (n <? 0).
  - now apply all_bytes_skipn.
  - now apply all_bytes_firstn, all_bytes_skipn.
Qed.

Lemma all_bytes_readinto size bs :
  all_bytes bs -> all_bytes (readinto size bs).
Proof.
  intros H. unfold readinto. apply all_bytes_app. split; [assumption|].
  apply Forall_forall. intros x Hx. apply repeat_spec in Hx. lia.
Qed.

Lemma run_segment_header_read_samples data pos h pos' :
  all_bytes data ->
  run SegmentHeader.read data pos = Returned h pos' ->
  0 <= SegmentHeader.num_samples h.
Proof.
  intros Hb H. simpl in H. inversion H; subst. clear H.
  cbn [SegmentHeader.of_bytes SegmentHeader.num_samples].
  apply field_bound, all_bytes_readinto, all_bytes_f_read, Hb.
Qed.

Lemma sum_nonneg_list_sum {A} (f : A -> Z) (l : list A) :
  Forall (fun a => 0 <= f a) l ->
  sum (map f l) = Z.of_nat (list_sum (map (fun a => Z.to_nat (f a)) l)).
Proof.
  induction 1 as [|a l Ha _ IH]; [reflexivity|].
  cbn [map list_sum fold_right]. rewrite sum_cons, IH.
  fold (list_sum (map (fun a => Z.to_nat (f a)) l)). lia.
Qed.

(** X8.  On a decode of a file of bytes that succeeds, every list of
    samples of every bone track has one sample for each sample of each
    segment, in all the sum of [num_samples] over the segment headers, and
    every sample has three coordinates. *)
Theorem decoded_samples_shape :
  forall (io : IoUtil) data pos clip pos',
    all_bytes data ->
    run CompressedClip.read data pos = Returned clip pos' ->
    forall track samples,
      In track (CompressedClip.bone_tracks clip) ->
      In samples (BoneTrack.track_data track) ->
      len samples
      = sum (map SegmentHeader.num_samples
                 (CompressedClip.segment_headers clip))
      /\ forall xyz, In xyz samples -> length xyz = 3%nat.
Proof.
  intros io data pos clip pos' Hb H track samples Htrack Hsamples.
  apply run_read_returned in H.
  destruct H as (ctx & p1 & vars & p2 & Htracks & Hsegs & Hfin).
  pose proof (run_read_tracks_returned _ _ _ _ Htracks)
    as (_ & _ & Hrd & _).
  pose proof (run_read_finish_returned _ _ _ _ _ _ Hfin)
    as (Esegs & _ & _ & _ & Eset & _).
  apply run_read_tracks_stages in Htracks.
  destruct Htracks
    as (p0 & q1 & q2 & q3 & q4 & q5 & _ & _ & Hsh & _ & _ & _ & _ & Hrange).
  assert (Htriples :
            Forall (fun rd => length (RangeData.min_xyz rd) = 3%nat
                              /\ length (RangeData.extent_xyz rd) = 3%nat)
                   (CompressedClip.c_range_data ctx)).
  { apply (run_read_times_forall (RangeData.read false) _ data
             (fun pos a pos' => run_range_data_read_returned
                                  false data pos a pos')
             _ _ _ _ Hrange). }
  assert (Hnn : Forall (fun h => 0 <= SegmentHeader.num_samples h)
                       (CompressedClip.c_segment_headers ctx)).
  { apply (run_read_times_forall SegmentHeader.read _ data
             (fun pos a pos' => run_segment_header_read_samples
                                  data pos a pos' Hb)
             _ _ _ _ Hsh). }
  destruct (run_read_segments_shape _ _ _ _ Hrd Htriples _ _ _ _ _ _ 0%nat
              Hsegs) as [_ Hall].
  { unfold CompressedClip.init_locals, range.
    cbn [CompressedClip.l_bone_track_floats].
    now rewrite !length_map, length_seq. }
  { unfold CompressedClip.init_locals.
    cbn [CompressedClip.l_bone_track_floats].
    apply Forall_map, Forall_forall. intros i _. split; constructor. }
  pose proof (set_tracks_data_slices _ _ Hall _ _ _ _ Eset) as Hslices.
  rewrite Forall_forall in Hslices. specialize (Hslices track Htrack).
  rewrite Forall_forall in Hslices. specialize (Hslices samples Hsamples).
  destruct Hslices as [Hlen Hxyz].
  split.
  - rewrite Esegs, (sum_nonneg_list_sum _ _ Hnn). unfold len.
    rewrite Hlen. reflexivity.
  - now apply Forall_forall.
Qed.

Lemma all_bytes_forallb l :
  forallb (fun b => (0 <=? b) && (b <? 256)) l = true -> all_bytes l.
Proof.
  intros H. apply Forall_forall. intros b Hb.
  rewrite forallb_forall in H. specialize (H b Hb). lia.
Qed.

Lemma decoded_samples_shape_witness :
  exists clip track samples,
    run (@CompressedClip.read sample_io) unit_clip 0 = Returned clip 125
    /\ In track (CompressedClip.bone_tracks clip)
    /\ In samples (BoneTrack.track_data track)
    /\ len samples
       = sum (map SegmentHeader.num_samples
                  (CompressedClip.segment_headers clip)).
Proof.
  destruct (run (@CompressedClip.read sample_io) unit_clip 0)
    as [clip p|e p] eqn:Erun; [|vm_compute in Erun; discriminate].
  assert (Ep : p = 125) by (vm_compute in Erun; congruence). subst p.
  assert (Hb : all_bytes unit_clip)
    by (apply all_bytes_forallb; vm_compute; reflexivity).
  pose proof (decoded_samples_shape sample_io unit_clip 0 clip 125 Hb Erun)
    as Hshape.
  assert (Ht : exists track l samples l',
             CompressedClip.bone_tracks clip = track :: l
             /\ BoneTrack.track_data track = samples :: l').
  { clear Hshape. vm_compute in Erun. inversion Erun; subst. clear Erun.
    vm_compute. do 4 eexists. split; reflexivity. }
  destruct Ht as (track & l & samples & l' & Et & Es).
  assert (H1 : In track (CompressedClip.bone_tracks clip))
    by (rewrite Et; left; reflexivity).
  assert (H2 : In samples (BoneTrack.track_data track))
    by (rewrite Es; left; reflexivity).
  exists clip, track, samples.
  split; [reflexivity|]. split; [exact H1|]. split; [exact H2|].
  exact (proj1 (Hshape track samples H1 H2)).
Defined.

(* ================================================================== *)
(** * The sample lists each bone is given *)
(* ================================================================== *)

Lemma length_flags_of_str s :
  (length s <= 3)%nat -> (length (BoneTrack.flags_of_str s) <= 3)%nat.
Proof.
  intros H. unfold BoneTrack.flags_of_str.
  rewrite length_app, length_map.
  destruct (Nat.eqb_spec (length s) 3); simpl; lia.
Qed.

Lemma sum_flags_bound (flags : list bool) :
  0 <= sum (map (fun b : bool => if b then 1 else 0) flags) <= len flags.
Proof.
  unfold len. induction flags as [|b flags IH]; [unfold sum; simpl; lia|].
  cbn [map length]. rewrite sum_cons. destruct b; lia.
Qed.

Lemma get_range_count_bound tr :
  (length (BoneTrack.use_constant tr) <= 3)%nat ->
  0 <= BoneTrack.get_range_count tr <= 3.
Proof.
  intros H. unfold BoneTrack.get_range_count.
  pose proof (sum_flags_bound (BoneTrack.use_constant tr)).
  unfold len in *. lia.
Qed.

Lemma length_slice_le {A} (l : list A) a b :
  0 <= a -> 0 <= b -> (length (slice l a b) <= Z.to_nat (b - a))%nat.
Proof.
  intros Ha Hb. rewrite slice_nonneg by assumption.
  rewrite length_firstn. lia.
Qed.

(** With two or three attributes for each bone, every track has three
    flags at most of each kind. *)
Lemma set_tracks_flags_lengths idxs dflags cflags na cdata :
  0 <= na <= 3 -> Forall (fun i => 0 <= i) idxs ->
  forall cc rc tracks cc' rc',
    CompressedClip.set_tracks_flags idxs dflags cflags na cdata cc rc
    = (tracks, cc', rc') ->
    Forall (fun tr => (length (BoneTrack.use_default tr) <= 3)%nat
                      /\ (length (BoneTrack.use_constant tr) <= 3)%nat)
           tracks.
Proof.
  intros Hna Hidx.
  induction Hidx as [|i idxs Hi _ IH]; intros cc rc tracks cc' rc' H.
  - simpl in H. inversion H; constructor.
  - cbn [CompressedClip.set_tracks_flags] in H.
    unfold BoneTrack.set_constants in H.
    set (tr0 := BoneTrack.set_use_constant _ _) in H.
    set (n := BoneTrack.get_constant_count tr0) in H.
    set (tr := BoneTrack.mk _ _ _ _) in H.
    destruct (CompressedClip.set_tracks_flags idxs dflags cflags na cdata
                (cc + n) (rc + BoneTrack.get_range_count tr))
      as [[tracks1 cc1] rc1] eqn:Erec.
    inversion H; subst. clear H.
    constructor; [|eapply IH; eauto].
    assert (Hs : forall flags : pystr,
               (length (slice flags (i * na) ((i + 1) * na)) <= 3)%nat).
    { intros flags.
      pose proof (length_slice_le flags (i * na) ((i + 1) * na)
                    ltac:(nia) ltac:(nia)).
      replace ((i + 1) * na - i * na) with na in * by lia. lia. }
    subst tr tr0. cbn [BoneTrack.use_default BoneTrack.use_constant
                       BoneTrack.set_use_constant BoneTrack.set_use_default].
    split; apply length_flags_of_str, Hs.
Qed.

(** The last loop of [read] gives each track the slice of
    [bone_track_floats] at the cursor, which advances by the range count
    of the track. *)
Lemma set_tracks_data_counts floats tracks :
  Forall (fun tr => 0 <= BoneTrack.get_range_count tr) tracks ->
  forall idx tracks' idx',
    0 <= idx ->
    CompressedClip.set_tracks_data tracks floats idx = (tracks', idx') ->
    idx <= idx'
    /\ (idx' <= len floats ->
        Forall (fun tr => len (BoneTrack.track_data tr)
                          = BoneTrack.get_range_count tr) tracks').
Proof.
  induction 1 as [|tr tracks Htr _ IH]; intros idx tracks' idx' Hidx H.
  - simpl in H. inversion H; subst. split; [lia|constructor].
  - cbn [CompressedClip.set_tracks_data] in H.
    unfold BoneTrack.set_track_data in H.
    destruct (CompressedClip.set_tracks_data tracks floats _)
      as [tracks1 idx1] eqn:Erec.
    inversion H; subst. clear H.
    assert (Hnext : 0 <= idx + BoneTrack.get_range_count tr) by lia.
    destruct (IH _ _ _ Hnext Erec) as [Hle Hall].
    split; [lia|]. intros Hend.
    constructor; [|apply Hall, Hend].
    cbn [BoneTrack.track_data].
    change (BoneTrack.get_range_count (BoneTrack.mk _ _ _ _))
      with (BoneTrack.get_range_count tr).
    rewrite len_slice; lia.
Qed.

Lemma run_clip_header_read_has_scale data pos h pos' :
  all_bytes data ->
  run ClipHeader.read data pos = Returned h pos' ->
  0 <= ClipHeader.has_scale h.
Proof.
  intros Hb H. simpl in H. inversion H; subst. clear H.
  cbn [ClipHeader.of_bytes ClipHeader.has_scale].
  apply field_bound, all_bytes_readinto, all_bytes_f_read, Hb.
Qed.

(** X9.  On a decode of a file of bytes that succeeds, for a header
    whose [has_scale] is 0 or 1, every bone track has between 0 and 3
    range-reduced components and holds exactly one list of samples for
    each of them. *)
Theorem decoded_track_data_counts :
  forall (io : IoUtil) data pos clip pos',
    all_bytes data ->
    run CompressedClip.read data pos = Returned clip pos' ->
    ClipHeader.has_scale (CompressedClip.clip_header clip) <= 1 ->
    forall track,
      In track (CompressedClip.bone_tracks clip) ->
      0 <= BoneTrack.get_range_count track <= 3
      /\ len (BoneTrack.track_data track) = BoneTrack.get_range_count track.
Proof.
  intros io data pos clip pos' Hb H Hscale track Htrack.
  apply run_read_returned in H.
  destruct H as (ctx & p1 & vars & p2 & Htracks & Hsegs & Hfin).
  pose proof (run_read_tracks_returned _ _ _ _ Htracks) as (Hflags & _).
  pose proof (run_read_finish_returned _ _ _ _ _ _ Hfin)
    as (_ & Ehdr & _ & _ & Eset & _).
  apply run_read_tracks_stages in Htracks.
  destruct Htracks as (p0 & q1 & q2 & q3 & q4 & q5 & _ & Hh & _).
  apply (run_clip_header_read_has_scale _ _ _ _ Hb) in Hh.
  rewrite Ehdr in Hscale.
  apply set_tracks_flags_lengths in Hflags; [|lia|].
  2:{ apply Forall_forall. intros i Hi. apply in_range in Hi. lia. }
  assert (Hrc : Forall (fun tr => 0 <= BoneTrack.get_range_count tr <= 3)
                       (CompressedClip.c_bone_tracks ctx)).
  { revert Hflags. apply Forall_impl. intros tr [_ Hc].
    now apply get_range_count_bound. }
  assert (Hrc0 : Forall (fun tr => 0 <= BoneTrack.get_range_count tr)
                        (CompressedClip.c_bone_tracks ctx)).
  { revert Hrc. apply Forall_impl. intros tr Htr. lia. }
  destruct (set_tracks_data_counts _ _ Hrc0 _ _ _ (Z.le_refl 0) Eset)
    as [_ Hcount].
  specialize (Hcount (Z.le_refl _)).
  rewrite Forall_forall in Hcount. specialize (Hcount track Htrack).
  split; [|exact Hcount].
  apply set_tracks_data_keeps in Eset. destruct Eset as (_ & _ & _ & Ek).
  apply map_get_range_count in Ek.
  assert (Hin : In (BoneTrack.get_range_count track)
                   (map BoneTrack.get_range_count
                        (CompressedClip.c_bone_tracks ctx))).
  { rewrite <- Ek. now apply in_map. }
  apply in_map_iff in Hin. destruct Hin as (tr & <- & Hin).
  rewrite Forall_forall in Hrc. now apply Hrc.
Qed.

Lemma decoded_track_data_counts_witness :
  exists clip track,
    run (@CompressedClip.read sample_io) unit_clip 0 = Returned clip 125
    /\ In track (CompressedClip.bone_tracks clip)
    /\ len (BoneTrack.track_data track) = BoneTrack.get_range_count track.
Proof.
  destruct (run (@CompressedClip.read sample_io) unit_clip 0)
    as [clip p|e p] eqn:Erun; [|vm_compute in Erun; discriminate].
  assert (Ep : p = 125) by (vm_compute in Erun; congruence). subst p.
  assert (Hb : all_bytes unit_clip)
    by (apply all_bytes_forallb; vm_compute; reflexivity).
  assert (Hs : ClipHeader.has_scale (CompressedClip.clip_header clip) <= 1).
  { vm_compute in Erun. inversion Erun; subst. discriminate. }
  pose proof (decoded_track_data_counts sample_io unit_clip 0 clip 125 Hb
                Erun Hs) as Hcounts.
  assert (Ht : exists track l, CompressedClip.bone_tracks clip = track :: l).
  { clear Hcounts Hs. vm_compute in Erun. inversion Erun; subst. clear Erun.
    vm_compute. do 2 eexists. reflexivity. }
  destruct Ht as (track & l & Et).
  assert (H1 : In track (CompressedClip.bone_tracks clip))
    by (rewrite Et; left; reflexivity).
  exists clip, track.
  split; [reflexivity|]. split; [exact H1|].
  exact (proj2 (Hcounts track H1)).
Defined.

(* ================================================================== *)
(** * The bytes behind what a call returns *)
(* ================================================================== *)

Lemma flat_map_le_split_chunks n k :
  forall bs,
    all_bytes bs -> length bs = (n * k)%nat ->
    flat_map (le_split n) (map le_combine (chunks n k bs)) = bs.
Proof.
  induction k as [|k IH]; intros bs Hb Hl.
  - rewrite Nat.mul_0_r in Hl. destruct bs; [reflexivity|discriminate].
  - cbn [chunks map flat_map].
    change (le_combine (firstn n bs)) with (field bs 0 n).
    rewrite le_split_field by (assumption || nia).
    rewrite IH.
    + apply firstn_skipn.
    + now apply all_bytes_skipn.
    + rewrite length_skipn. nia.
Qed.

Lemma chunks_words_bound n k :
  forall bs,
    all_bytes bs ->
    Forall (fun w => 0 <= w < 256 ^ Z.of_nat n)
           (map le_combine (chunks n k bs)).
Proof.
  induction k as [|k IH]; intros bs Hb; cbn [chunks map]; constructor.
  - change (le_combine (firstn n bs)) with (field bs 0 n).
    now apply field_bound.
  - now apply IH, all_bytes_skipn.
Qed.

(** The integers of an array are read from the bytes that
    [io.write_uint32_array] or [io.write_uint8_array] writes for them. *)
Lemma run_read_uint_array_bytes n length data pos l pos' :
  0 <= pos -> 0 <= n -> all_bytes data ->
  run (read_uint_array n length) data pos = Returned l pos' ->
  pos' = pos + n * length
  /\ flat_map (le_split (Z.to_nat n)) l = slice data pos pos'
  /\ Forall (fun w => 0 <= w < 256 ^ n) l.
Proof.
  intros Hpos Hn Hb. unfold read_uint_array.
  destruct (Z.ltb_spec length 0); [discriminate|].
  simpl.
  destruct (Z.eqb_spec (len (f_read data pos (n * length))) (n * length))
    as [El|]; [|discriminate].
  intros E. inversion E; subst. clear E.
  pose proof (all_bytes_f_read data pos (n * length) Hb) as Hbs.
  split; [lia|]. split.
  - rewrite flat_map_le_split_chunks.
    + rewrite <- El. now apply f_read_slice.
    + assumption.
    + unfold len in El. nia.
  - pose proof (chunks_words_bound (Z.to_nat n) (Z.to_nat length) _ Hbs) as H1.
    now rewrite Z2Nat.id in H1.
Qed.

Lemma f32_of_bits_not_nan w :
  f32_of_bits w <> S754_nan -> is_nan32 w = false.
Proof.
  unfold f32_of_bits, is_nan32. cbv zeta.
  destruct (Z.land (Z.shiftr w 23) 255 =? 255); [|reflexivity].
  destruct (Z.land w (2 ^ 23 - 1) =? 0); [reflexivity|].
  intros H. now contradiction H.
Qed.

(** Numbers unpacked from binary32 that are not NaN are packed to the
    bit patterns they were unpacked from. *)
Lemma rmap_bits_of_f32 ws :
  Forall (fun w => 0 <= w < 2 ^ 32) ws ->
  ~ In S754_nan (map f32_of_bits ws) ->
  rmap bits_of_f32 (map f32_of_bits ws) = Ok ws.
Proof.
  induction 1 as [|w ws Hw _ IH]; intros Hnan; [reflexivity|].
  cbn [map rmap].
  rewrite f32_round_trip; [|assumption|].
  - rewrite IH; [reflexivity|]. intros Hin. apply Hnan. now right.
  - apply f32_of_bits_not_nan. intros E. apply Hnan. now left.
Qed.

Lemma run_read_float32_array_bytes length data pos l pos' :
  0 <= pos -> all_bytes data ->
  run (read_float32_array length) data pos = Returned l pos' ->
  exists ws,
    l = map f32_of_bits ws
    /\ Forall (fun w => 0 <= w < 2 ^ 32) ws
    /\ pos' = pos + 4 * length
    /\ flat_map (le_split 4) ws = slice data pos pos'.
Proof.
  intros Hpos Hb H. unfold read_float32_array in H.
  run_bind_in H as ws p Ews.
  simpl in H. inversion H; subst. clear H.
  apply run_read_uint_array_bytes in Ews; try assumption; [|lia].
  destruct Ews as (Hp & Hbytes & Hws).
  exists ws. repeat split; assumption.
Qed.

Lemma write_float32_array_read length data pos l pos' :
  0 <= pos -> all_bytes data ->
  run (read_float32_array length) data pos = Returned l pos' ->
  ~ In S754_nan l ->
  write_float32_array l = Ok (slice data pos pos')
  /\ pos' = pos + 4 * length.
Proof.
  intros Hpos Hb H Hnan.
  destruct (run_read_float32_array_bytes _ _ _ _ _ Hpos Hb H)
    as (ws & -> & Hws & Hp & Hbytes).
  split; [|assumption].
  unfold write_float32_array. rewrite rmap_bits_of_f32 by assumption.
  cbn [rbind]. now rewrite Hbytes.
Qed.

(** A clip range triple is read from the bytes [RangeData.write] writes
    for it, unless one of its numbers is NaN. *)
Lemma run_range_data_read_bytes {io : IoUtil} data pos r pos' :
  0 <= pos -> all_bytes data ->
  run (RangeData.read false) data pos = Returned r pos' ->
  ~ In S754_nan (RangeData.min_xyz r ++ RangeData.extent_xyz r) ->
  RangeData.write r = Ok (slice data pos pos') /\ pos' = pos + 24.
Proof.
  intros Hpos Hb H Hnan. cbn [RangeData.read] in H.
  run_bind_in H as mins p1 Emin.
  run_bind_in H as exts p2 Eext.
  simpl in H. inversion H; subst. clear H.
  cbn [RangeData.min_xyz RangeData.extent_xyz] in Hnan.
  unfold read_vec3_f32 in *.
  apply write_float32_array_read in Emin; try assumption.
  2:{ intros Hin. apply Hnan, in_or_app. now left. }
  destruct Emin as [Emin Hp1].
  apply write_float32_array_read in Eext; try assumption; try lia.
  2:{ intros Hin. apply Hnan, in_or_app. now right. }
  destruct Eext as [Eext Hp2].
  unfold RangeData.write, write_vec3_f32.
  cbn [RangeData.min_xyz RangeData.extent_xyz].
  rewrite Emin, Eext. cbn [rbind].
  split; [|lia]. f_equal. apply slice_app; lia.
Qed.

Lemma run_read_ranges_bytes {io : IoUtil} n :
  forall data pos l pos',
    0 <= pos -> all_bytes data ->
    run (read_times (RangeData.read false) n) data pos = Returned l pos' ->
    (forall r, In r l ->
               ~ In S754_nan (RangeData.min_xyz r ++ RangeData.extent_xyz r)) ->
    exists outs,
      rmap RangeData.write l = Ok outs
      /\ concat outs = slice data pos pos'
      /\ pos' = pos + 24 * Z.of_nat n.
Proof.
  induction n as [|n IH]; intros data pos l pos' Hpos Hb H Hnan.
  - simpl in H. inversion H; subst. exists []. repeat split; [|lia].
    rewrite slice_nonneg by lia. now rewrite Nat.sub_diag.
  - cbn [read_times] in H.
    run_bind_in H as r p1 Er.
    run_bind_in H as l1 p2 El.
    simpl in H. inversion H; subst. clear H.
    apply run_range_data_read_bytes in Er; try assumption.
    2:{ apply Hnan. now left. }
    destruct Er as [Er Hp1].
    apply IH in El; try assumption; try lia.
    2:{ intros r0 Hr0. apply Hnan. now right. }
    destruct El as (outs & Eouts & Ecat & Hp2).
    exists (slice data pos p1 :: outs). cbn [rmap].
    rewrite Er, Eouts. repeat split; [|lia].
    cbn [concat]. rewrite Ecat. apply slice_app; lia.
Qed.

(** The two headers are read from the bytes that are written for them. *)
Lemma run_clip_header_read_bytes data pos h pos' :
  0 <= pos -> all_bytes data -> pos' < len data ->
  run ClipHeader.read data pos = Returned h pos' ->
  ClipHeader.to_bytes h = slice data pos pos'
  /\ pos' = pos + 32 /\ ClipHeader.offset h = pos.
Proof.
  intros Hpos Hb Hlen H. simpl in H. inversion H; subst. clear H.
  destruct (f_read_full data pos 32 Hpos Hlen) as [_ Hfull].
  rewrite clip_header_to_bytes_of_bytes.
  - split; [now apply f_read_slice|]. split; [lia|reflexivity].
  - unfold len in Hfull. lia.
  - now apply all_bytes_f_read.
Qed.

Lemma run_read_segment_headers_bytes n :
  forall data pos l pos',
    0 <= pos -> all_bytes data -> pos' < len data ->
    run (read_times SegmentHeader.read n) data pos = Returned l pos' ->
    write_struct_array SegmentHeader.to_bytes l = slice data pos pos'
    /\ pos' = pos + 20 * Z.of_nat n.
Proof.
  induction n as [|n IH]; intros data pos l pos' Hpos Hb Hlen H.
  - simpl in H. inversion H; subst. split; [|lia].
    rewrite slice_nonneg by lia. now rewrite Nat.sub_diag.
  - cbn [read_times] in H.
    run_bind_in H as h p1 Eh.
    run_bind_in H as l1 p2 El.
    simpl in H. inversion H; subst. clear H.
    pose proof (run_pos_le (read_times SegmentHeader.read n) data p1) as Hle.
    rewrite El in Hle.
    simpl in Eh. inversion Eh; subst. clear Eh.
    pose proof (len_nonneg (f_read data pos 20)) as Hnn.
    destruct (f_read_full data pos 20 Hpos ltac:(lia)) as [_ Hfull].
    apply IH in El; try assumption; try lia.
    destruct El as [El Hp].
    unfold write_struct_array in *. cbn [flat_map].
    rewrite segment_header_to_bytes_of_bytes.
    + rewrite El. split; [|lia].
      rewrite (f_read_slice data pos 20 Hpos) at 1.
      apply slice_app; lia.
    + unfold len in Hfull. lia.
    + now apply all_bytes_f_read.
Qed.

Lemma run_read_uint_bytes n data pos w pos' :
  0 <= pos -> 0 <= n -> all_bytes data ->
  run (read_uint n) data pos = Returned w pos' ->
  pos' = pos + n /\ le_split (Z.to_nat n) w = slice data pos pos'.
Proof.
  intros Hpos Hn Hb. unfold read_uint. simpl.
  destruct (Z.eqb_spec (len (f_read data pos n)) n) as [El|]; [|discriminate].
  intros E; inversion E; subst; clear E.
  split; [lia|].
  replace (Z.to_nat n) with (length (f_read data pos n))
    by (unfold len in El; lia).
  rewrite le_split_combine by now apply all_bytes_f_read.
  now apply f_read_slice.
Qed.

Lemma run_read_bytes n data pos bs pos' :
  0 <= pos ->
  run (Read n Ret) data pos = Returned bs pos' ->
  bs = slice data pos pos' /\ pos <= pos'.
Proof.
  intros Hpos H. simpl in H. inversion H; subst.
  pose proof (len_nonneg (f_read data pos n)).
  split; [now apply f_read_slice|lia].
Qed.

Lemma run_check_bytes_returned actual expected msg data pos u pos' :
  run (check_bytes actual expected msg) data pos = Returned u pos' ->
  actual = expected /\ pos' = pos.
Proof.
  unfold check_bytes. destruct (list_eqb actual expected) eqn:E; simpl;
    intros H; inversion H. split; [now apply list_eqb_eq|reflexivity].
Qed.

(** The fixed fields in front of the headers are read from the bytes
    [write] puts there. *)
Lemma run_read_preamble_bytes data pos offset size data_hash pos' :
  0 <= pos -> all_bytes data ->
  run CompressedClip.read_preamble data pos
  = Returned (offset, size, data_hash) pos' ->
  write_uint32 size ++ data_hash ++ CompressedClip.BUFFER_TAG
  ++ write_uint32 3 = slice data pos pos'
  /\ pos <= pos'.
Proof.
  intros Hpos Hb H. unfold CompressedClip.read_preamble in H.
  run_bind_in H as off q0 Eoff. simpl in Eoff. inversion Eoff; subst off q0.
  clear Eoff.
  run_bind_in H as size1 q1 Esize.
  apply run_read_uint_bytes in Esize; try assumption; [|lia].
  destruct Esize as [Hq1 Esize].
  run_bind_in H as dh q2 Edh.
  apply run_read_bytes in Edh; [|lia]. destruct Edh as [Edh Hq2].
  run_bind_in H as tag q3 Etag.
  apply run_read_bytes in Etag; [|lia]. destruct Etag as [Etag Hq3].
  run_bind_in H as u0 q4 Echk.
  apply run_check_bytes_returned in Echk. destruct Echk as [Etag' ->].
  run_bind_in H as version q5 Ever.
  apply run_read_uint_bytes in Ever; try assumption; [|lia|lia].
  destruct Ever as [Hq5 Ever].
  run_bind_in H as u1 q6 Echk1. run_check Echk1. subst q6 version.
  run_bind_in H as algorithm q7 Ealg.
  apply run_read_uint_bytes in Ealg; try assumption; [|lia|lia].
  destruct Ealg as [Hq7 Ealg].
  run_bind_in H as u2 q8 Echk2. run_check Echk2. subst q8 algorithm.
  run_bind_in H as pad q9 Epad.
  apply run_read_uint_bytes in Epad; try assumption; [|lia|lia].
  destruct Epad as [Hq9 Epad].
  run_bind_in H as u3 q10 Echk3. run_check Echk3. subst q10 pad.
  simpl in H. injection H as Eo Es Ed Ep. subst offset size data_hash pos'.
  split; [|lia].
  change (write_uint32 3)
    with (le_split (Z.to_nat 2) 3 ++ le_split (Z.to_nat 1) 0
          ++ le_split (Z.to_nat 1) 0).
  unfold write_uint32. change 4%nat with (Z.to_nat 4).
  rewrite Esize, Edh, <- Etag', Etag, Ever.
  rewrite Epad at 2. rewrite Ealg.
  rewrite !slice_app by lia. reflexivity.
Qed.

Lemma list_index_table i b :
  index CompressedClip.BIT_RATE_NUM_BITS i = Ok b ->
  list_index CompressedClip.BIT_RATE_NUM_BITS b = Ok i.
Proof.
  intros H. apply index_Ok in H. destruct H as (k & -> & H).
  do 19 (destruct k as [|k]; [cbn in H; inversion H; subst; reflexivity|]).
  destruct k; discriminate H.
Qed.

(** The bit rates kept on the clip are found in the table at the indices
    they were read as. *)
Lemma rmap_list_index_table raw :
  forall bit_rates,
    rmap (index CompressedClip.BIT_RATE_NUM_BITS) raw = Ok bit_rates ->
    rmap (list_index CompressedClip.BIT_RATE_NUM_BITS) bit_rates = Ok raw.
Proof.
  induction raw as [|i raw IH]; intros bit_rates H.
  - simpl in H. inversion H; reflexivity.
  - cbn [rmap] in H.
    destruct (index CompressedClip.BIT_RATE_NUM_BITS i) as [b|] eqn:Ei;
      [|discriminate].
    destruct (rmap (index CompressedClip.BIT_RATE_NUM_BITS) raw)
      as [bs|] eqn:Er; [|discriminate].
    inversion H; subst. cbn [rmap].
    now rewrite (list_index_table _ _ Ei), (IH _ eq_refl).
Qed.

(** After [r] bit rates that start at a multiple of 4 from the header,
    the two padding runs of a segment with no segment range data have
    [(4 - r % 4) % 4] bytes together. *)
Lemma segment_padding_total a r :
  a mod 4 = 0 ->
  let n1 := (2 - (a + r) mod 2) mod 2 in
  let n2 := (4 - (a + r + n1) mod 4) mod 4 in
  0 <= n1 /\ 0 <= n2 /\ n1 + n2 = (4 - r mod 4) mod 4.
Proof.
  intros Ha. cbv zeta.
  pose proof (Z.div_mod a 4 ltac:(lia)) as Da.
  pose proof (Z.div_mod r 4 ltac:(lia)) as Dr.
  pose proof (Z.mod_pos_bound r 4 ltac:(lia)) as Br.
  rewrite Ha in Da.
  set (k := r mod 4) in *. set (qa := a / 4) in *. set (qr := r / 4) in *.
  assert (E1 : (a + r) mod 2 = k mod 2).
  { replace (a + r) with (k + (2 * (qa + qr)) * 2) by lia.
    apply Z.mod_add. lia. }
  rewrite E1.
  assert (Hk : k = 0 \/ k = 1 \/ k = 2 \/ k = 3) by lia.
  destruct Hk as [Hk|[Hk|[Hk|Hk]]]; rewrite Hk in *.
  - change ((2 - 0 mod 2) mod 2) with 0.
    assert (E2 : (a + r + 0) mod 4 = 0).
    { replace (a + r + 0) with (0 + (qa + qr) * 4) by lia.
      now rewrite Z.mod_add by lia. }
    rewrite E2. cbn. lia.
  - change ((2 - 1 mod 2) mod 2) with 1.
    assert (E2 : (a + r + 1) mod 4 = 2).
    { replace (a + r + 1) with (2 + (qa + qr) * 4) by lia.
      now rewrite Z.mod_add by lia. }
    rewrite E2. cbn. lia.
  - change ((2 - 2 mod 2) mod 2) with 0.
    assert (E2 : (a + r + 0) mod 4 = 2).
    { replace (a + r + 0) with (2 + (qa + qr) * 4) by lia.
      now rewrite Z.mod_add by lia. }
    rewrite E2. cbn. lia.
  - change ((2 - 3 mod 2) mod 2) with 1.
    assert (E2 : (a + r + 1) mod 4 = 0).
    { replace (a + r + 1) with (0 + (qa + qr + 1) * 4) by lia.
      now rewrite Z.mod_add by lia. }
    rewrite E2. cbn. lia.
Qed.

(** What an iteration with no segment range data reads, when the bit
    rates start at a multiple of 4 from the header: the bytes
    [io.write_uint8_array] writes for the indices of the bit rates, then
    [(4 - n % 4) % 4] bytes of padding for [n] bit rates, then the bytes
    of the track data. *)
Lemma run_read_segment_data_bytes {io : IoUtil} clip_header
      segment_range_reduction range_count h data pos
      bit_rates segment_range_data track_data pos' :
  0 <= pos -> all_bytes data ->
  flag_eqb segment_range_reduction "AllTracks" = false ->
  (pos - ClipHeader.offset clip_header) mod 4 = 0 ->
  run (CompressedClip.read_segment_data clip_header segment_range_reduction
         range_count h) data pos
  = Returned (bit_rates, segment_range_data, track_data) pos' ->
  exists idxs q1 q2,
    rmap (list_index CompressedClip.BIT_RATE_NUM_BITS) bit_rates = Ok idxs
    /\ len idxs = len bit_rates
    /\ write_uint8_array idxs = slice data pos q1
    /\ repeat PAD_BYTE (Z.to_nat ((4 - len idxs mod 4) mod 4))
       = slice data q1 q2
    /\ write_uint8_array track_data = slice data q2 pos'
    /\ pos <= q1 <= q2 /\ q2 <= pos'.
Proof.
  intros Hpos Hb Hsrr Halign H.
  pose proof (run_read_segment_data_returned _ _ _ _ _ _ _ _ _ _ H)
    as [_ Hlbr].
  unfold CompressedClip.read_segment_data in H. rewrite Hsrr in H.
  run_bind_in H as u0 p0 Echk.
  assert (p0 = pos).
  { destruct (negb (range_count =? 0)).
    - run_bind_in Echk as t0 t1 Et. simpl in Et. inversion Et; subst.
      run_check Echk. assumption.
    - simpl in Echk. now inversion Echk. }
  subst p0. clear Echk.
  run_bind_in H as raw p1 Eraw.
  pose proof (run_read_uint_array_returned _ _ _ _ _ _ Eraw) as [Hrc0 Hlraw].
  apply run_read_uint_array_bytes in Eraw; try assumption; [|lia].
  destruct Eraw as (Hp1 & Eraw & _).
  run_bind_in H as rates p2 Erates.
  apply run_lift_returned in Erates. destruct Erates as [Erates ->].
  apply rmap_list_index_table in Erates.
  run_bind_in H as pos1 p3 Etell. simpl in Etell.
  inversion Etell; subst pos1 p3. clear Etell.
  pose proof (segment_padding_total
                (pos - ClipHeader.offset clip_header) range_count
                Halign) as Hpad.
  cbv zeta in Hpad.
  replace (pos - ClipHeader.offset clip_header + range_count)
    with (p1 - ClipHeader.offset clip_header) in Hpad by lia.
  set (n1 := (2 - (p1 - ClipHeader.offset clip_header) mod 2) mod 2) in *.
  apply run_padding_returned in H. destruct H as [Epad1 H].
  assert (El1 : len (f_read data p1 n1) = n1).
  { rewrite Epad1. unfold len. rewrite repeat_length. lia. }
  rewrite El1 in H.
  run_bind_in H as srd p4 Esrd. simpl in Esrd.
  inversion Esrd; subst srd p4. clear Esrd.
  run_bind_in H as pos2 p5 Etell2. simpl in Etell2.
  inversion Etell2; subst pos2 p5. clear Etell2.
  replace (p1 - ClipHeader.offset clip_header + n1)
    with (p1 + n1 - ClipHeader.offset clip_header) in Hpad by lia.
  set (n2 := (4 - (p1 + n1 - ClipHeader.offset clip_header) mod 4) mod 4)
    in *.
  apply run_padding_returned in H. destruct H as [Epad2 H].
  assert (El2 : len (f_read data (p1 + n1) n2) = n2).
  { rewrite Epad2. unfold len. rewrite repeat_length. lia. }
  rewrite El2 in H.
  run_bind_in H as u1 p6 Echk2.
  assert (p6 = p1 + n1 + n2).
  { destruct (negb (range_count =? 0)).
    - run_bind_in Echk2 as t0 t1 Et. simpl in Et. inversion Et; subst.
      run_check Echk2. assumption.
    - simpl in Echk2. now inversion Echk2. }
  subst p6. clear Echk2.
  run_bind_in H as td p7 Etd.
  pose proof (run_read_uint_array_returned _ _ _ _ _ _ Etd) as [Hlen0 _].
  apply run_read_uint_array_bytes in Etd; try assumption; [|lia|lia].
  destruct Etd as (Hp7 & Etd & _).
  simpl in H. injection H as Er Es Et Ep.
  subst bit_rates segment_range_data track_data pos'.
  exists raw, p1, (p1 + n1 + n2).
  split; [assumption|]. split; [lia|].
  unfold write_uint8_array. change 1%nat with (Z.to_nat 1).
  split; [exact Eraw|].
  destruct Hpad as (H1 & H2 & Htot).
  split.
  { rewrite Hlraw, <- Htot.
    rewrite Z2Nat.inj_add, repeat_app by assumption.
    rewrite <- Epad1, <- Epad2.
    rewrite (f_read_slice data p1 n1), (f_read_slice data (p1 + n1) n2)
      by lia.
    rewrite El1, El2. apply slice_app; lia. }
  split; [exact Etd|]. lia.
Qed.

(* ================================================================== *)
(** * [write] after [read] *)
(* ================================================================== *)

Lemma sum_constant_counts_nonneg tracks :
  0 <= sum (map BoneTrack.get_constant_count tracks).
Proof.
  induction tracks as [|t l IH]; [unfold sum; simpl; lia|].
  cbn [map]. rewrite sum_cons.
  pose proof (get_constant_count_nonneg t). lia.
Qed.

Lemma slice_all {A} (l : list A) b :
  0 <= b -> len (slice l 0 b) = len l -> slice l 0 b = l.
Proof.
  intros Hb H. rewrite slice_nonneg in * by lia. unfold len in H.
  cbn [Z.to_nat skipn] in *. rewrite Nat.sub_0_r in *.
  rewrite length_firstn in H. apply firstn_all2. lia.
Qed.

(** The position a stage of a call that returned ends at is not before
    the position it starts at. *)
Ltac pos_le H :=
  match type of H with
  | run ?p ?d ?s = Returned _ _ =>
      let L := fresh "Hle" in
      pose proof (run_pos_le p d s) as L; rewrite H in L
  end.

(** [write] on the clip decoded from a record of bytes with one segment
    and no segment range reduction, whose constant data are all given to
    the bones and whose constants and clip ranges hold no NaN: the record
    and what [write] writes are the same up to the end of the [n] bit
    rates, [head], and from the track data on, [tail]; between them the
    record has [(4 - n % 4) % 4] bytes of padding, and [write] puts
    [4 - n % 4]. *)
Lemma write_single_segment {io : IoUtil} data pos clip pos' :
  0 <= pos -> all_bytes data ->
  run CompressedClip.read data pos = Returned clip pos' ->
  ClipHeader.num_segments (CompressedClip.clip_header clip) = 1 ->
  ClipHeader.segment_range_reduction (CompressedClip.clip_header clip) = 0 ->
  len (sum_lists (map BoneTrack.constant_list
                      (CompressedClip.bone_tracks clip)))
  = ClipHeader.get_constant_tracks_data_size
      (CompressedClip.clip_header clip) / 4 ->
  ~ In S754_nan (sum_lists (map BoneTrack.constant_list
                                (CompressedClip.bone_tracks clip))) ->
  (forall r, In r (CompressedClip.range_data clip) ->
             ~ In S754_nan (RangeData.min_xyz r ++ RangeData.extent_xyz r)) ->
  exists head tail,
    slice data pos pos'
    = head
      ++ repeat PAD_BYTE
           (Z.to_nat ((4 - len (CompressedClip.bit_rates clip) mod 4) mod 4))
      ++ tail
    /\ CompressedClip.write clip
       = Ok (head
             ++ repeat PAD_BYTE
                  (Z.to_nat (4 - len (CompressedClip.bit_rates clip) mod 4))
             ++ tail).
Proof.
  intros Hpos Hb H Hone Hsrr Hheld Hnanc Hnanr.
  destruct (run_read_positions data pos clip pos' Hpos H)
    as (ctx & p1 & vars & p2 & Htracks & Hsegs & Hfin & Hle & Hp & Hlen).
  pose proof (run_read_tracks_returned _ _ _ _ Htracks)
    as (Hflags & Hcd & Hrd & Hfmt & Hoff).
  pose proof (run_read_finish_returned _ _ _ _ _ _ Hfin)
    as (Esegs & Ehdr & Ebr & Etd & Eset & _).
  pose proof (run_read_finish_fields _ _ _ _ _ _ Hfin)
    as (Eo & Es & Edh & Edef & Econ & Erd & Epad & Hsize).
  destruct (run_read_tracks_stages _ _ _ _ Htracks)
    as (q0 & q1 & q2 & q3 & q4 & q5
        & Hpre & Hh & Hsh & Hdb & Hcb & Hcdata & Hq5 & Hranges).
  cbv zeta in *. rewrite Ehdr in *.
  set (hdr := CompressedClip.c_clip_header ctx) in *.
  (* the stages are in order *)
  pos_le Hpre. pos_le Hh. pos_le Hsh. pos_le Hdb. pos_le Hcb. pos_le Hcdata.
  pos_le Hranges.
  (* the constants are those of the section *)
  assert (Econst : sum_lists (map BoneTrack.constant_list
                                  (CompressedClip.bone_tracks clip))
                   = CompressedClip.c_constant_tracks_data ctx).
  { pose proof (set_tracks_data_keeps _ _ _ _ _ Eset) as (Ek & _).
    pose proof (set_tracks_flags_constants _ _ _ _ _ _ _ _ _ _
                  (Z.le_refl 0) Hflags) as (Hcc & Hcat & _).
    rewrite sum_lists_concat, Ek, Hcat in *.
    apply slice_all.
    - rewrite Hcc.
      pose proof (sum_constant_counts_nonneg
                    (CompressedClip.c_bone_tracks ctx)). lia.
    - congruence. }
  rewrite Econst in Hnanc.
  (* one segment, with no range data of its own *)
  assert (Eh : exists h, CompressedClip.c_segment_headers ctx = [h]).
  { apply run_read_times_returned in Hsh. rewrite Hone in Hsh.
    destruct (CompressedClip.c_segment_headers ctx) as [|h [|h' hs]];
      try discriminate. now exists h. }
  destruct Eh as [h Eh].
  assert (Hnone : flag_eqb (CompressedClip.c_segment_range_reduction ctx)
                           "AllTracks" = false).
  { apply check_formats_Ok_iff in Hfmt.
    destruct Hfmt as (_ & [[_ ->]|[E7 _]] & _); [reflexivity|].
    fold hdr in E7. lia. }
  rewrite Eh in Hsegs. cbn [CompressedClip.read_segments] in Hsegs.
  run_bind_in Hsegs as vars1 p3 Eseg.
  simpl in Hsegs. injection Hsegs as Ev Ep3. subst vars1 p3.
  apply run_read_segment_returned in Eseg.
  destruct Eseg as (br & srd & td & Edata & Ebr' & Etd' & _).
  rewrite Ebr in Ebr'. injection Ebr' as <-.
  rewrite Etd in Etd'. injection Etd' as <-.
  (* the bytes of each stage *)
  apply run_read_preamble_bytes in Hpre; try assumption.
  destruct Hpre as [Bpre _].
  apply run_clip_header_read_bytes in Hh; try assumption; try lia.
  destruct Hh as (Bhdr & Hq1 & Hhoff).
  apply run_read_segment_headers_bytes in Hsh; try assumption; try lia.
  destruct Hsh as [Bsegs Hq2]. rewrite Hone in Hq2.
  unfold read_uint32_array in Hdb, Hcb.
  pose proof (run_read_uint_array_returned _ _ _ _ _ _ Hdb) as [Hdb0 _].
  pose proof (run_read_uint_array_returned _ _ _ _ _ _ Hcb) as [Hcb0 _].
  apply run_read_uint_array_bytes in Hdb; try assumption; try lia.
  destruct Hdb as (Hq3 & Bdef & _).
  apply run_read_uint_array_bytes in Hcb; try assumption; try lia.
  destruct Hcb as (Hq4 & Bcon & _).
  apply write_float32_array_read in Hcdata; try assumption; try lia.
  destruct Hcdata as [Bcd Hq5'].
  rewrite <- Erd in Hranges.
  apply run_read_ranges_bytes in Hranges; try assumption; try lia.
  destruct Hranges as (outs & Bouts & Bcat & Hp1).
  set (A := ClipHeader.get_default_tracks_bitset_size hdr / 4) in *.
  set (B := ClipHeader.get_constant_tracks_bitset_size hdr / 4) in *.
  set (C := ClipHeader.get_constant_tracks_data_size hdr / 4) in *.
  set (N := Z.of_nat (Z.to_nat (CompressedClip.c_range_count ctx))) in *.
  apply run_read_segment_data_bytes in Edata; try assumption; try lia.
  2:{ rewrite Hhoff.
      replace (p1 - q0) with (0 + (13 + A + B + C + 6 * N) * 4) by lia.
      now rewrite Z.mod_add by lia. }
  destruct Edata
    as (idxs & r1 & r2 & Bidx & Hlidx & Brates & Bpad & Btrack & Hr1 & Hr2).
  rewrite Hlidx in Bpad.
  exists (slice data pos r1), (slice data r2 pos').
  split.
  { rewrite Bpad. rewrite !slice_app by lia. reflexivity. }
  (* what [write] writes *)
  unfold CompressedClip.write.
  rewrite Econst, Bcd. cbn [rbind]. rewrite Bouts. cbn [rbind].
  rewrite Bidx. cbn [rbind]. f_equal.
  rewrite Es, Edh, Ehdr, Esegs, Edef, Econ, Hlidx. fold hdr.
  unfold write_uint32_array.
  change (Z.to_nat 4) with 4%nat in Bdef, Bcon.
  rewrite Bhdr, Bsegs, Bdef, Bcon, Bcat, Brates, Btrack.
  assert (Bpre' : forall rest,
             write_uint32 (CompressedClip.c_size ctx)
             ++ CompressedClip.c_data_hash ctx
             ++ CompressedClip.BUFFER_TAG ++ write_uint32 3 ++ rest
             = slice data pos q0 ++ rest).
  { intros rest. rewrite <- Bpre, <- !app_assoc. reflexivity. }
  rewrite Bpre'.
  rewrite <- Epad, f_read_slice_n by lia. rewrite <- Hp.
  rewrite (slice_app data r2 p2 pos') by lia.
  rewrite <- (slice_app data pos p1 r1) by lia.
  rewrite <- (slice_app data pos q5 p1) by lia.
  rewrite <- (slice_app data pos q4 q5) by lia.
  rewrite <- (slice_app data pos q3 q4) by lia.
  rewrite <- (slice_app data pos q2 q3) by lia.
  rewrite <- (slice_app data pos q1 q2) by lia.
  rewrite <- (slice_app data pos q0 q1) by lia.
  rewrite <- !app_assoc. reflexivity.
Qed.

(** X10.  The round trip that does hold.  Take a record of bytes that
    decodes, with one segment, no segment range reduction, a number of
    range-reduced components that is not a multiple of 4, whose constant
    data are all given to the bones and whose constants and clip ranges
    hold no NaN.  Then [write] gives back the bytes of the record, from
    the position the decode started at to the position it ended at. *)
Theorem round_trip_single_segment :
  forall (io : IoUtil) data pos clip pos',
    0 <= pos -> all_bytes data ->
    run CompressedClip.read data pos = Returned clip pos' ->
    ClipHeader.num_segments (CompressedClip.clip_header clip) = 1 ->
    ClipHeader.segment_range_reduction (CompressedClip.clip_header clip)
    = 0 ->
    len (CompressedClip.bit_rates clip) mod 4 <> 0 ->
    len (sum_lists (map BoneTrack.constant_list
                        (CompressedClip.bone_tracks clip)))
    = ClipHeader.get_constant_tracks_data_size
        (CompressedClip.clip_header clip) / 4 ->
    ~ In S754_nan (sum_lists (map BoneTrack.constant_list
                                  (CompressedClip.bone_tracks clip))) ->
    (forall r, In r (CompressedClip.range_data clip) ->
               ~ In S754_nan (RangeData.min_xyz r
                              ++ RangeData.extent_xyz r)) ->
    CompressedClip.write clip = Ok (slice data pos pos').
Proof.
  intros io data pos clip pos' Hpos Hb H Hone Hsrr Hmod Hheld Hnanc Hnanr.
  destruct (write_single_segment data pos clip pos' Hpos Hb H Hone Hsrr
              Hheld Hnanc Hnanr) as (head & tail & Erec & Ew).
  pose proof (Z.mod_pos_bound (len (CompressedClip.bit_rates clip)) 4
                ltac:(lia)) as Bk.
  set (k := len (CompressedClip.bit_rates clip) mod 4) in *.
  rewrite (Z.mod_small (4 - k) 4) in Erec by lia.
  now rewrite Ew, Erec.
Qed.

Lemma round_trip_single_segment_witness :
  exists clip,
    run (@CompressedClip.read sample_io) unit_clip 0 = Returned clip 125
    /\ CompressedClip.write clip = Ok (slice unit_clip 0 125).
Proof.
  destruct (run (@CompressedClip.read sample_io) unit_clip 0)
    as [clip p|e p] eqn:Erun; [|vm_compute in Erun; discriminate].
  assert (Ep : p = 125) by (vm_compute in Erun; congruence). subst p.
  assert (Hb : all_bytes unit_clip)
    by (apply all_bytes_forallb; vm_compute; reflexivity).
  assert (Ec : exists c, clip = c /\
             ClipHeader.num_segments (CompressedClip.clip_header c) = 1
             /\ ClipHeader.segment_range_reduction
                  (CompressedClip.clip_header c) = 0
             /\ len (CompressedClip.bit_rates c) mod 4 <> 0
             /\ len (sum_lists (map BoneTrack.constant_list
                                    (CompressedClip.bone_tracks c)))
                = ClipHeader.get_constant_tracks_data_size
                    (CompressedClip.clip_header c) / 4
             /\ ~ In S754_nan
                    (sum_lists (map BoneTrack.constant_list
                                    (CompressedClip.bone_tracks c)))
             /\ (forall r, In r (CompressedClip.range_data c) ->
                           ~ In S754_nan (RangeData.min_xyz r
                                          ++ RangeData.extent_xyz r))).
  { vm_compute in Erun. inversion Erun; subst. clear Erun.
    eexists. split; [reflexivity|].
    vm_compute.
    split; [reflexivity|]. split; [reflexivity|].
    split; [discriminate|]. split; [reflexivity|].
    split; [intros []|].
    intros r [<-|[]] Hin.
    repeat (destruct Hin as [Hin|Hin]; [discriminate|]). exact Hin. }
  destruct Ec as (c & <- & H1 & H2 & H3 & H4 & H5 & H6).
  exists clip. split; [reflexivity|].
  exact (round_trip_single_segment sample_io unit_clip 0 clip 125
           (Z.le_refl 0) Hb Erun H1 H2 H3 H4 H5 H6).
Defined.

(** X11.  The round trip that does not hold.  Take a record of bytes
    that decodes, with one segment, no segment range reduction, whose
    constant data are all given to the bones and whose constants and clip
    ranges hold no NaN, and whose number of range-reduced components is a
    multiple of 4, none included.  Then [write] gives the bytes of the
    record with four bytes of padding added after the bit rates, where the
    record has none. *)
Theorem round_trip_adds_padding :
  forall (io : IoUtil) data pos clip pos',
    0 <= pos -> all_bytes data ->
    run CompressedClip.read data pos = Returned clip pos' ->
    ClipHeader.num_segments (CompressedClip.clip_header clip) = 1 ->
    ClipHeader.segment_range_reduction (CompressedClip.clip_header clip)
    = 0 ->
    len (CompressedClip.bit_rates clip) mod 4 = 0 ->
    len (sum_lists (map BoneTrack.constant_list
                        (CompressedClip.bone_tracks clip)))
    = ClipHeader.get_constant_tracks_data_size
        (CompressedClip.clip_header clip) / 4 ->
    ~ In S754_nan (sum_lists (map BoneTrack.constant_list
                                  (CompressedClip.bone_tracks clip))) ->
    (forall r, In r (CompressedClip.range_data clip) ->
               ~ In S754_nan (RangeData.min_xyz r
                              ++ RangeData.extent_xyz r)) ->
    exists head tail,
      slice data pos pos' = head ++ tail
      /\ CompressedClip.write clip
         = Ok (head ++ repeat PAD_BYTE 4 ++ tail).
Proof.
  intros io data pos clip pos' Hpos Hb H Hone Hsrr Hmod Hheld Hnanc Hnanr.
  destruct (write_single_segment data pos clip pos' Hpos Hb H Hone Hsrr
              Hheld Hnanc Hnanr) as (head & tail & Erec & Ew).
  rewrite Hmod in Erec, Ew.
  exists head, tail. split; [exact Erec|exact Ew].
Qed.

Lemma round_trip_adds_padding_witness :
  exists clip head tail,
    run (@CompressedClip.read sample_io) static_clip 0 = Returned clip 91
    /\ slice static_clip 0 91 = head ++ tail
    /\ CompressedClip.write clip = Ok (head ++ repeat PAD_BYTE 4 ++ tail).
Proof.
  destruct (run (@CompressedClip.read sample_io) static_clip 0)
    as [clip p|e p] eqn:Erun; [|vm_compute in Erun; discriminate].
  assert (Ep : p = 91) by (vm_compute in Erun; congruence). subst p.
  assert (Hb : all_bytes static_clip)
    by (apply all_bytes_forallb; vm_compute; reflexivity).
  assert (Ec : exists c, clip = c /\
             ClipHeader.num_segments (CompressedClip.clip_header c) = 1
             /\ ClipHeader.segment_range_reduction
                  (CompressedClip.clip_header c) = 0
             /\ len (CompressedClip.bit_rates c) mod 4 = 0
             /\ len (sum_lists (map BoneTrack.constant_list
                                    (CompressedClip.bone_tracks c)))
                = ClipHeader.get_constant_tracks_data_size
                    (CompressedClip.clip_header c) / 4
             /\ ~ In S754_nan
                    (sum_lists (map BoneTrack.constant_list
                                    (CompressedClip.bone_tracks c)))
             /\ (forall r, In r (CompressedClip.range_data c) ->
                           ~ In S754_nan (RangeData.min_xyz r
                                          ++ RangeData.extent_xyz r))).
  { vm_compute in Erun. inversion Erun; subst. clear Erun.
    eexists. split; [reflexivity|].
    vm_compute.
    split; [reflexivity|]. split; [reflexivity|].
    split; [reflexivity|]. split; [reflexivity|].
    split; [intros []|].
    intros r []. }
  destruct Ec as (c & <- & H1 & H2 & H3 & H4 & H5 & H6).
  destruct (round_trip_adds_padding sample_io static_clip 0 clip 91
              (Z.le_refl 0) Hb Erun H1 H2 H3 H4 H5 H6)
    as (head & tail & Erec & Ew).
  exists clip, head, tail. split; [reflexivity|]. split; assumption.
Defined.

(* ================================================================== *)
(** * A bit rate of 0 after [max_int] is assigned *)
(* ================================================================== *)

Lemma int_truediv_zero b :
  In b CompressedClip.BIT_RATE_NUM_BITS -> b <> 0 ->
  int_truediv 0 (Z.shiftl 1 b - 1) = Ok (S754_zero false).
Proof.
  intros Hin Hb. unfold CompressedClip.BIT_RATE_NUM_BITS in Hin.
  simpl in Hin.
  repeat (destruct Hin as [<-|Hin];
          [try (now contradiction Hb); vm_compute; reflexivity|]).
  contradiction.
Qed.

Lemma list_mul_nat_repeat {A} (x : A) k n :
  list_mul_nat (repeat x k) n = repeat x (n * k).
Proof.
  induction n as [|n IH]; simpl; [reflexivity|].
  now rewrite IH, repeat_app.
Qed.

Lemma rmap_repeat {A B} (f : A -> result B) a b n :
  f a = Ok b -> rmap f (repeat a n) = Ok (repeat b n).
Proof.
  intros E. induction n as [|n IH]; simpl; [reflexivity|].
  now rewrite E, IH.
Qed.

Lemma skipn_repeat {A} (x : A) k n :
  skipn k (repeat x n) = repeat x (n - k).
Proof.
  revert k; induction n as [|n IH]; intros [|k]; simpl; auto.
Qed.

Lemma firstn_repeat {A} (x : A) k n :
  (k <= n)%nat -> firstn k (repeat x n) = repeat x k.
Proof.
  revert k; induction n as [|n IH]; intros [|k] H; simpl; auto; try lia.
  f_equal. apply IH. lia.
Qed.

(** X12.  A component of bit rate 0 that comes after a component of
    another bit rate [b] of the table, so that [max_int] is assigned:
    every sample of the segment is the same triple, the two range maps
    applied to [+0.0] on each sub-channel, and [max_int] is left as it
    was. *)
Theorem zero_bit_rate_samples :
  forall binary track_data_size num_samples segment_range_data
         b idx rd rid srd,
    In b CompressedClip.BIT_RATE_NUM_BITS -> b <> 0 ->
    index segment_range_data rid = Ok srd ->
    length (RangeData.min_xyz rd) = 3%nat ->
    length (RangeData.extent_xyz rd) = 3%nat ->
    (forall s, srd = Some s ->
               length (RangeData.min_xyz s) = 3%nat
               /\ length (RangeData.extent_xyz s) = 3%nat) ->
    CompressedClip.unpack_component binary track_data_size num_samples
      segment_range_data (Some (Z.shiftl 1 b - 1)) idx 0 rd rid
    = Ok (Some (Z.shiftl 1 b - 1),
          map (fun _ => [dequantize srd rd 0 (S754_zero false);
                         dequantize srd rd 1 (S754_zero false);
                         dequantize srd rd 2 (S754_zero false)])
              (range num_samples)).
Proof.
  intros binary track_data_size num_samples segment_range_data
         b idx rd rid srd Hin Hb Hsrd Hmin Hext Hs.
  unfold CompressedClip.unpack_component.
  cbn [Z.eqb negb rbind].
  unfold list_mul. change [0] with (repeat 0 1).
  rewrite !list_mul_nat_repeat.
  rewrite (rmap_repeat _ 0 (S754_zero false)) by now apply int_truediv_zero.
  cbn [rbind]. rewrite Hsrd. cbn [rbind].
  assert (Ex : map (fun i => @slice float
                                (@repeat spec_float (S754_zero false)
                                   (Z.to_nat 3 * (Z.to_nat num_samples * 1)))
                                (i * 3) ((i + 1) * 3))
                   (range num_samples)
               = map (fun _ => @repeat float (S754_zero false) 3)
                     (range num_samples)).
  { apply map_ext_in. intros i Hi. apply in_range in Hi.
    rewrite slice_nonneg by lia.
    rewrite skipn_repeat, firstn_repeat by lia. f_equal. lia. }
  destruct srd as [s|]; rewrite Ex; clear Ex.
  all: destruct rd as [[|m0 [|m1 [|m2 [|]]]] [|e0 [|e1 [|e2 [|]]]]];
    try discriminate.
  - destruct s as [[|a0 [|a1 [|a2 [|]]]] [|x0 [|x1 [|x2 [|]]]]];
      try (destruct (Hs _ eq_refl); discriminate).
    cbn [rbind]. rewrite !map_map. reflexivity.
  - cbn [rbind]. rewrite !map_map. reflexivity.
Qed.

Lemma zero_bit_rate_samples_witness :
  CompressedClip.unpack_component [] 24 2 [None] (Some (Z.shiftl 1 8 - 1))
    24 0
    (RangeData.mk [SFone 53 1024; SFone 53 1024; SFone 53 1024]
                  [SFone 53 1024; SFone 53 1024; SFone 53 1024]) 0
  = Ok (Some 255,
        [[SFone 53 1024; SFone 53 1024; SFone 53 1024];
         [SFone 53 1024; SFone 53 1024; SFone 53 1024]]).
Proof.
  rewrite (zero_bit_rate_samples [] 24 2 [None] 8 24
             (RangeData.mk [SFone 53 1024; SFone 53 1024; SFone 53 1024]
                           [SFone 53 1024; SFone 53 1024; SFone 53 1024])
             0 None).
  - vm_compute. reflexivity.
  - vm_compute. tauto.
  - discriminate.
  - reflexivity.
  - reflexivity.
  - reflexivity.
  - intros s Hs. discriminate.
Defined.

(* ================================================================== *)
(** * [write] on a decoded clip *)
(* ================================================================== *)

Lemma is_nan32_f32_of_bits w : is_nan32 w = true -> f32_of_bits w = S754_nan.
Proof.
  unfold f32_of_bits, is_nan32. cbv zeta.
  destruct (Z.land (Z.shiftr w 23) 255 =? 255); [|discriminate].
  destruct (Z.land w (2 ^ 23 - 1) =? 0); [discriminate|reflexivity].
Qed.

(** Every number unpacked from binary32 can be packed as binary32. *)
Lemma bits_of_f32_total w :
  0 <= w < 2 ^ 32 -> exists w', bits_of_f32 (f32_of_bits w) = Ok w'.
Proof.
  intros Hw. destruct (is_nan32 w) eqn:E.
  - rewrite (is_nan32_f32_of_bits w E). eexists. reflexivity.
  - exists w. now apply f32_round_trip.
Qed.

Lemma rmap_total {A B} (f : A -> result B) l :
  Forall (fun a => exists b, f a = Ok b) l -> exists l', rmap f l = Ok l'.
Proof.
  induction 1 as [|a l [b Hb] _ [l' IH]]; [now exists []|].
  exists (b :: l'). cbn [rmap]. now rewrite Hb, IH.
Qed.

Lemma run_read_uint_array_words n length data pos l pos' :
  0 <= n -> all_bytes data ->
  run (read_uint_array n length) data pos = Returned l pos' ->
  Forall (fun w => 0 <= w < 256 ^ n) l.
Proof.
  intros Hn Hb. unfold read_uint_array.
  destruct (Z.ltb_spec length 0); [discriminate|].
  simpl. destruct (_ =? _); [|discriminate].
  intros E. inversion E; subst. clear E.
  pose proof (chunks_words_bound (Z.to_nat n) (Z.to_nat length) _
                (all_bytes_f_read data pos (n * length) Hb)) as H1.
  now rewrite Z2Nat.id in H1.
Qed.

Lemma run_read_float32_array_packable length data pos l pos' :
  all_bytes data ->
  run (read_float32_array length) data pos = Returned l pos' ->
  Forall (fun x => exists w, bits_of_f32 x = Ok w) l.
Proof.
  intros Hb H. unfold read_float32_array in H.
  run_bind_in H as ws p Ews.
  simpl in H. inversion H; subst. clear H.
  apply run_read_uint_array_words in Ews; [|lia|assumption].
  apply Forall_map. revert Ews. apply Forall_impl.
  intros w Hw. now apply bits_of_f32_total.
Qed.

Lemma write_float32_array_total l :
  Forall (fun x => exists w, bits_of_f32 x = Ok w) l ->
  exists out, write_float32_array l = Ok out.
Proof.
  intros H. apply rmap_total in H. destruct H as [ws E].
  unfold write_float32_array. rewrite E. eexists. reflexivity.
Qed.

Lemma run_range_data_read_writable {io : IoUtil} data :
  all_bytes data ->
  forall pos r pos',
    run (RangeData.read false) data pos = Returned r pos' ->
    exists out, RangeData.write r = Ok out.
Proof.
  intros Hb pos r pos' H. cbn [RangeData.read] in H.
  run_bind_in H as mins p1 Emin.
  run_bind_in H as exts p2 Eext.
  simpl in H. inversion H; subst. clear H.
  unfold read_vec3_f32 in *.
  apply run_read_float32_array_packable in Emin; [|assumption].
  apply run_read_float32_array_packable in Eext; [|assumption].
  apply write_float32_array_total in Emin. destruct Emin as [a Ea].
  apply write_float32_array_total in Eext. destruct Eext as [b Eb].
  unfold RangeData.write, write_vec3_f32.
  cbn [RangeData.min_xyz RangeData.extent_xyz].
  rewrite Ea, Eb. eexists. reflexivity.
Qed.

(** The bit rates an iteration leaves are entries of the table. *)
Lemma run_read_segment_data_rates {io : IoUtil} clip_header
      segment_range_reduction range_count h data pos
      bit_rates segment_range_data track_data pos' :
  run (CompressedClip.read_segment_data clip_header segment_range_reduction
         range_count h) data pos
  = Returned (bit_rates, segment_range_data, track_data) pos' ->
  exists raw,
    rmap (index CompressedClip.BIT_RATE_NUM_BITS) raw = Ok bit_rates.
Proof.
  unfold CompressedClip.read_segment_data. intros H.
  run_bind_in H as u0 p0 Echk.
  run_bind_in H as raw p1 Eraw.
  run_bind_in H as rates p2 Erates.
  run_bind_in H as pos1 p3 Etell.
  apply run_padding_returned in H. destruct H as [_ H].
  run_bind_in H as srd p4 Esrd.
  run_bind_in H as pos2 p5 Etell2.
  apply run_padding_returned in H. destruct H as [_ H].
  run_bind_in H as u1 p6 Echk2.
  run_bind_in H as td p7 Etd.
  simpl in H. inversion H; subst. clear H.
  apply run_lift_returned in Erates. destruct Erates as [Erates _].
  now exists raw.
Qed.

(** The bit rates the loop over the segments leaves in the locals are
    those the locals held before it, or those an iteration has read. *)
Lemma run_read_segments_last {io : IoUtil} clip_header
      segment_range_reduction range_count range_data hs :
  forall vars data pos vars' pos' bit_rates,
    run (CompressedClip.read_segments clip_header segment_range_reduction
           range_count range_data hs vars) data pos = Returned vars' pos' ->
    CompressedClip.l_bit_rates vars' = Some bit_rates ->
    CompressedClip.l_bit_rates vars = Some bit_rates
    \/ exists h p srd td p',
         In h hs
         /\ run (CompressedClip.read_segment_data clip_header
                   segment_range_reduction range_count h) data p
            = Returned (bit_rates, srd, td) p'.
Proof.
  induction hs as [|h hs IH]; intros vars data pos vars' pos' bit_rates H Hb.
  - simpl in H. inversion H; subst. now left.
  - right.
    cbn [CompressedClip.read_segments] in H.
    run_bind_in H as vars1 p1 Eseg.
    destruct (IH _ _ _ _ _ _ H Hb)
      as [Hb1|(h' & p & srd & td & p' & Hin & Hrun)].
    + apply run_read_segment_returned in Eseg.
      destruct Eseg as (br & srd & td & Edata & Ebr & _).
      rewrite Ebr in Hb1. inversion Hb1; subst.
      exists h, pos, srd, td, p1. split; [now left|assumption].
    + exists h', p, srd, td, p'. split; [now right|assumption].
Qed.

(** X13.  [write] never raises on a clip decoded from a file of bytes:
    the constants and the clip ranges are numbers that were unpacked
    from binary32, and the bit rates are entries of the table. *)
Theorem write_of_decoded_clip_returns :
  forall (io : IoUtil) data pos clip pos',
    all_bytes data ->
    run CompressedClip.read data pos = Returned clip pos' ->
    exists out, CompressedClip.write clip = Ok out.
Proof.
  intros io data pos clip pos' Hb H.
  apply run_read_returned in H.
  destruct H as (ctx & p1 & vars & p2 & Htracks & Hsegs & Hfin).
  pose proof (run_read_tracks_returned _ _ _ _ Htracks) as (Hflags & _).
  pose proof (run_read_finish_returned _ _ _ _ _ _ Hfin)
    as (_ & _ & Ebr & _ & Eset & _).
  pose proof (run_read_finish_fields _ _ _ _ _ _ Hfin)
    as (_ & _ & _ & _ & _ & Erd & _).
  destruct (run_read_tracks_stages _ _ _ _ Htracks)
    as (q0 & q1 & q2 & q3 & q4 & q5 & _ & _ & _ & _ & _ & Hcdata & _
        & Hranges).
  cbv zeta in *.
  (* the constants *)
  assert (Hc : exists constants,
             write_float32_array
               (sum_lists (map BoneTrack.constant_list
                               (CompressedClip.bone_tracks clip)))
             = Ok constants).
  { apply write_float32_array_total.
    pose proof (set_tracks_data_keeps _ _ _ _ _ Eset) as (Ek & _).
    pose proof (set_tracks_flags_constants _ _ _ _ _ _ _ _ _ _
                  (Z.le_refl 0) Hflags) as (_ & Hcat & _).
    rewrite sum_lists_concat, Ek, Hcat.
    apply Forall_slice.
    eapply run_read_float32_array_packable; eauto. }
  (* the clip ranges *)
  assert (Hr : exists ranges,
             rmap RangeData.write (CompressedClip.range_data clip)
             = Ok ranges).
  { rewrite Erd. apply rmap_total.
    apply (run_read_times_forall (RangeData.read false) _ data
             (run_range_data_read_writable data Hb) _ _ _ _ Hranges). }
  (* the bit rates *)
  assert (Hi : exists idxs,
             rmap (list_index CompressedClip.BIT_RATE_NUM_BITS)
                  (CompressedClip.bit_rates clip) = Ok idxs).
  { destruct (run_read_segments_last _ _ _ _ _ _ _ _ _ _ _ Hsegs Ebr)
      as [Hnone|(h & p & srd & td & p' & _ & Hrun)]; [discriminate|].
    apply run_read_segment_data_rates in Hrun. destruct Hrun as [raw Hraw].
    exists raw. now apply rmap_list_index_table. }
  destruct Hc as [constants Hc]. destruct Hr as [ranges Hr].
  destruct Hi as [idxs Hi].
  unfold CompressedClip.write. rewrite Hc. cbn [rbind].
  rewrite Hr. cbn [rbind]. rewrite Hi. cbn [rbind].
  eexists. reflexivity.
Qed.

Lemma write_of_decoded_clip_returns_witness :
  exists clip out,
    run (@CompressedClip.read sample_io) two_segment_clip 0
    = Returned clip 145
    /\ CompressedClip.write clip = Ok out.
Proof.
  destruct (run (@CompressedClip.read sample_io) two_segment_clip 0)
    as [clip p|e p] eqn:Erun; [|vm_compute in Erun; discriminate].
  assert (Ep : p = 145) by (vm_compute in Erun; congruence). subst p.
  assert (Hb : all_bytes two_segment_clip)
    by (apply all_bytes_forallb; vm_compute; reflexivity).
  destruct (write_of_decoded_clip_returns sample_io two_segment_clip 0
              clip 145 Hb Erun) as [out Hout].
  exists clip, out. split; [reflexivity|exact Hout].
Defined.

(* ================================================================== *)
(** * The offsets a decode checks *)
(* ================================================================== *)

Lemma run_read_uint_pos n data pos w pos' :
  run (read_uint n) data pos = Returned w pos' -> pos' = pos + n.
Proof.
  unfold read_uint. simpl.
  destruct (Z.eqb_spec (len (f_read data pos n)) n) as [El|]; [|discriminate].
  intros E; inversion E; subst. lia.
Qed.

(** The clip header starts 16 bytes into the record. *)
Lemma run_read_preamble_end data pos x q0 :
  0 <= pos ->
  run CompressedClip.read_preamble data pos = Returned x q0 ->
  q0 < len data -> q0 = pos + 16.
Proof.
  intros Hpos H Hlen. unfold CompressedClip.read_preamble in H.
  run_bind_in H as off p0 Eoff. simpl in Eoff. inversion Eoff; subst off p0.
  clear Eoff.
  run_bind_in H as size1 p1 Esize. apply run_read_uint_pos in Esize.
  run_bind_in H as dh p2 Edh. simpl in Edh. injection Edh as Edh Ep2.
  run_bind_in H as tag p3 Etag. simpl in Etag. injection Etag as Etag Ep3.
  run_bind_in H as u0 p4 Echk.
  apply run_check_bytes_returned in Echk. destruct Echk as [_ ->].
  run_bind_in H as version p5 Ever. apply run_read_uint_pos in Ever.
  run_bind_in H as u1 p6 Echk1. run_check Echk1. subst p6.
  run_bind_in H as algorithm p7 Ealg. apply run_read_uint_pos in Ealg.
  run_bind_in H as u2 p8 Echk2. run_check Echk2. subst p8.
  run_bind_in H as pad p9 Epad. apply run_read_uint_pos in Epad.
  run_bind_in H as u3 p10 Echk3. run_check Echk3. subst p10.
  simpl in H. injection H as _ Hq0.
  pose proof (len_nonneg (f_read data p1 4)) as H2.
  pose proof (len_nonneg (f_read data p2 4)) as H3.
  destruct (f_read_full data p1 4) as [_ F2]; [lia|lia|].
  destruct (f_read_full data p2 4) as [_ F3]; [lia|lia|].
  lia.
Qed.

Lemma run_read_ranges_pos {io : IoUtil} n :
  forall data pos l pos',
    0 <= pos -> all_bytes data ->
    run (read_times (RangeData.read false) n) data pos = Returned l pos' ->
    pos' = pos + 24 * Z.of_nat n.
Proof.
  induction n as [|n IH]; intros data pos l pos' Hpos Hb H.
  - simpl in H. inversion H; subst. lia.
  - cbn [read_times] in H.
    run_bind_in H as r p1 Er.
    run_bind_in H as l1 p2 El.
    simpl in H. inversion H; subst. clear H.
    cbn [RangeData.read] in Er.
    run_bind_in Er as mins q1 Emin.
    run_bind_in Er as exts q2 Eext.
    simpl in Er. inversion Er; subst. clear Er.
    unfold read_vec3_f32 in *.
    apply run_read_float32_array_bytes in Emin; try assumption.
    destruct Emin as (_ & _ & _ & Hq1 & _).
    apply run_read_float32_array_bytes in Eext; try assumption; [|lia].
    destruct Eext as (_ & _ & _ & Hq2 & _).
    apply IH in El; try assumption; lia.
Qed.

(** X14.  What a decode of a file of bytes that succeeds has checked of
    the offsets of the header, which count from the clip header, 16 bytes
    into the record: the clip range data start where the constant data
    end, after the 32 bytes of the clip header, 20 bytes for each segment
    header and the three sections, each a whole number of 4-byte words;
    and when there are range-reduced components, the bit rates of the
    first segment start where the clip range data end, 24 bytes for each
    component further. *)
Theorem decoded_header_offsets :
  forall (io : IoUtil) data pos clip pos',
    0 <= pos -> all_bytes data ->
    run CompressedClip.read data pos = Returned clip pos' ->
    ClipHeader.offset (CompressedClip.clip_header clip) = pos + 16
    /\ ClipHeader.clip_range_data_offset (CompressedClip.clip_header clip)
       = 32 + 20 * ClipHeader.num_segments (CompressedClip.clip_header clip)
         + 4 * (ClipHeader.get_default_tracks_bitset_size
                  (CompressedClip.clip_header clip) / 4)
         + 4 * (ClipHeader.get_constant_tracks_bitset_size
                  (CompressedClip.clip_header clip) / 4)
         + 4 * (ClipHeader.get_constant_tracks_data_size
                  (CompressedClip.clip_header clip) / 4)
    /\ (len (CompressedClip.range_data clip) <> 0 ->
        forall h0 hs,
          CompressedClip.segment_headers clip = h0 :: hs ->
          SegmentHeader.format_per_track_data_offset h0
          = ClipHeader.clip_range_data_offset
              (CompressedClip.clip_header clip)
            + 24 * len (CompressedClip.range_data clip)).
Proof.
  intros io data pos clip pos' Hpos Hb H.
  destruct (run_read_positions data pos clip pos' Hpos H)
    as (ctx & p1 & vars & p2 & Htracks & Hsegs & Hfin & Hle & Hp & Hlen).
  pose proof (run_read_tracks_returned _ _ _ _ Htracks)
    as (_ & _ & Hrd & _).
  pose proof (run_read_finish_returned _ _ _ _ _ _ Hfin)
    as (Esegs & Ehdr & Ebr & _).
  pose proof (run_read_finish_fields _ _ _ _ _ _ Hfin)
    as (_ & _ & _ & _ & _ & Erd & _).
  destruct (run_read_tracks_stages _ _ _ _ Htracks)
    as (q0 & q1 & q2 & q3 & q4 & q5
        & Hpre & Hh & Hsh & Hdb & Hcb & Hcdata & Hq5 & Hranges).
  cbv zeta in *. rewrite Ehdr, Erd, Esegs.
  set (hdr := CompressedClip.c_clip_header ctx) in *.
  pos_le Hpre. pos_le Hh. pos_le Hsh. pos_le Hdb. pos_le Hcb. pos_le Hcdata.
  pos_le Hranges.
  assert (Hnseg : Z.of_nat (Z.to_nat (ClipHeader.num_segments hdr))
                  = ClipHeader.num_segments hdr).
  { destruct (run_read_segments_rates _ _ _ _ _ _ _ _ _ _ _ Hsegs Ebr)
      as [[_ Hnone]|(Hne & _)]; [discriminate|].
    apply run_read_times_returned in Hsh.
    destruct (Z.to_nat (ClipHeader.num_segments hdr)) eqn:En; [|lia].
    destruct (CompressedClip.c_segment_headers ctx);
      [now contradiction Hne|discriminate]. }
  apply run_read_preamble_end in Hpre; [|assumption|lia].
  apply run_clip_header_read_bytes in Hh; try assumption; try lia.
  destruct Hh as (_ & Hq1 & Hhoff).
  apply run_read_segment_headers_bytes in Hsh; try assumption; try lia.
  destruct Hsh as [_ Hq2]. rewrite Hnseg in Hq2.
  unfold read_uint32_array in Hdb, Hcb.
  pose proof (run_read_uint_array_returned _ _ _ _ _ _ Hdb) as [Hdb0 _].
  pose proof (run_read_uint_array_returned _ _ _ _ _ _ Hcb) as [Hcb0 _].
  apply run_read_uint_array_bytes in Hdb; try assumption; try lia.
  destruct Hdb as (Hq3 & _).
  apply run_read_uint_array_bytes in Hcb; try assumption; try lia.
  destruct Hcb as (Hq4 & _).
  apply run_read_float32_array_bytes in Hcdata; try assumption; try lia.
  destruct Hcdata as (_ & _ & _ & Hq5' & _).
  apply run_read_ranges_pos in Hranges; try assumption; try lia.
  set (A := ClipHeader.get_default_tracks_bitset_size hdr / 4) in *.
  set (B := ClipHeader.get_constant_tracks_bitset_size hdr / 4) in *.
  set (C := ClipHeader.get_constant_tracks_data_size hdr / 4) in *.
  split; [lia|]. split; [lia|].
  intros Hrc h0 hs Eh. rewrite Eh in Hsegs.
  cbn [CompressedClip.read_segments] in Hsegs.
  run_bind_in Hsegs as vars1 p3 Eseg.
  apply run_read_segment_returned in Eseg.
  destruct Eseg as (br & srd & td & Edata & _).
  unfold CompressedClip.read_segment_data in Edata.
  run_bind_in Edata as u0 p4 Echk.
  assert (Hne : (CompressedClip.c_range_count ctx =? 0) = false).
  { apply Z.eqb_neq. intros E0. apply Hrc. unfold len.
    rewrite Hrd, E0. reflexivity. }
  rewrite Hne in Echk. cbn [negb] in Echk.
  run_bind_in Echk as t0 t1 Et. simpl in Et. inversion Et; subst t0 t1.
  run_check Echk. fold hdr in Echk0.
  unfold len. rewrite Hrd. lia.
Qed.

Lemma decoded_header_offsets_witness :
  exists clip,
    run (@CompressedClip.read sample_io) unit_clip 0 = Returned clip 125
    /\ ClipHeader.offset (CompressedClip.clip_header clip) = 0 + 16.
Proof.
  destruct (run (@CompressedClip.read sample_io) unit_clip 0)
    as [clip p|e p] eqn:Erun; [|vm_compute in Erun; discriminate].
  assert (Ep : p = 125) by (vm_compute in Erun; congruence). subst p.
  assert (Hb : all_bytes unit_clip)
    by (apply all_bytes_forallb; vm_compute; reflexivity).
  exists clip. split; [reflexivity|].
  exact (proj1 (decoded_header_offsets sample_io unit_clip 0 clip 125
                  (Z.le_refl 0) Hb Erun)).
Defined.

Lemma padded_to_4 x : (x + (4 - x mod 4) mod 4) mod 4 = 0.
Proof.
  pose proof (Z.div_mod x 4 ltac:(lia)) as D.
  pose proof (Z.mod_pos_bound x 4 ltac:(lia)) as B.
  set (k := x mod 4) in *. set (q := x / 4) in *.
  assert (Hk : k = 0 \/ k = 1 \/ k = 2 \/ k = 3) by lia.
  destruct Hk as [Hk|[Hk|[Hk|Hk]]]; rewrite Hk in *.
  - change ((4 - 0) mod 4) with 0.
    replace (x + 0) with (0 + q * 4) by lia. now rewrite Z.mod_add by lia.
  - change ((4 - 1) mod 4) with 3.
    replace (x + 3) with (0 + (q + 1) * 4) by lia.
    now rewrite Z.mod_add by lia.
  - change ((4 - 2) mod 4) with 2.
    replace (x + 2) with (0 + (q + 1) * 4) by lia.
    now rewrite Z.mod_add by lia.
  - change ((4 - 3) mod 4) with 1.
    replace (x + 1) with (0 + (q + 1) * 4) by lia.
    now rewrite Z.mod_add by lia.
Qed.

Lemma padded_to_2 x : (x + (2 - x mod 2) mod 2) mod 2 = 0.
Proof.
  pose proof (Z.div_mod x 2 ltac:(lia)) as D.
  pose proof (Z.mod_pos_bound x 2 ltac:(lia)) as B.
  set (k := x mod 2) in *. set (q := x / 2) in *.
  assert (Hk : k = 0 \/ k = 1) by lia.
  destruct Hk as [Hk|Hk]; rewrite Hk in *.
  - change ((2 - 0) mod 2) with 0.
    replace (x + 0) with (0 + q * 2) by lia. now rewrite Z.mod_add by lia.
  - change ((2 - 1) mod 2) with 1.
    replace (x + 1) with (0 + (q + 1) * 2) by lia.
    now rewrite Z.mod_add by lia.
Qed.

Lemma len_padding_read data pos n :
  0 <= n -> f_read data pos n = repeat PAD_BYTE (Z.to_nat n) ->
  len (f_read data pos n) = n.
Proof.
  intros Hn E. rewrite E. unfold len. rewrite repeat_length. lia.
Qed.

(** An iteration over a segment with range-reduced components has found
    the track data at an offset that is a multiple of 4, and the segment
    range data, when there are some, at an even offset. *)
Lemma run_read_segment_data_aligned {io : IoUtil} clip_header
      segment_range_reduction range_count h data pos x pos' :
  range_count <> 0 ->
  run (CompressedClip.read_segment_data clip_header segment_range_reduction
         range_count h) data pos = Returned x pos' ->
  SegmentHeader.track_data_offset h mod 4 = 0
  /\ (flag_eqb segment_range_reduction "AllTracks" = true ->
      SegmentHeader.range_data_offset h mod 2 = 0).
Proof.
  intros Hrc H. unfold CompressedClip.read_segment_data in H.
  apply Z.eqb_neq in Hrc. rewrite Hrc in H. cbn [negb] in H.
  run_bind_in H as u0 p0 Echk.
  run_bind_in H as raw p1 Eraw.
  run_bind_in H as rates p2 Erates.
  apply run_lift_returned in Erates. destruct Erates as [_ ->].
  run_bind_in H as pos1 p3 Etell. cbn [run] in Etell.
  inversion Etell; subst pos1 p3. clear Etell.
  set (off := ClipHeader.offset clip_header) in *.
  pose proof (Z.mod_pos_bound (2 - (p1 - off) mod 2) 2 ltac:(lia)) as Hn1.
  pose proof (padded_to_2 (p1 - off)) as A2.
  set (n1 := (2 - (p1 - off) mod 2) mod 2) in *.
  apply run_padding_returned in H. destruct H as [Epad1 H].
  rewrite (len_padding_read _ _ _ (proj1 Hn1) Epad1) in H.
  run_bind_in H as srd p4 Esrd.
  run_bind_in H as pos2 p5 Etell2. cbn [run] in Etell2.
  inversion Etell2; subst pos2 p5. clear Etell2.
  pose proof (Z.mod_pos_bound (4 - (p4 - off) mod 4) 4 ltac:(lia)) as Hn2.
  pose proof (padded_to_4 (p4 - off)) as A4.
  set (n2 := (4 - (p4 - off) mod 4) mod 4) in *.
  apply run_padding_returned in H. destruct H as [Epad2 H].
  rewrite (len_padding_read _ _ _ (proj1 Hn2) Epad2) in H.
  run_bind_in H as u1 p6 Echk2.
  run_bind_in Echk2 as t0 t1 Et. cbn [run] in Et. inversion Et; subst t0 t1.
  clear Et. run_check Echk2.
  split.
  - replace (SegmentHeader.track_data_offset h)
      with (p4 - off + n2) by lia.
    exact A4.
  - intros Hall. rewrite Hall in Esrd.
    run_bind_in Esrd as t2 t3 Et2. cbn [run] in Et2.
    inversion Et2; subst t2 t3.
    clear Et2.
    run_bind_in Esrd as u2 p7 Echk3. run_check Echk3.
    replace (SegmentHeader.range_data_offset h)
      with (p1 - off + n1) by lia.
    exact A2.
Qed.

Lemma run_read_segments_aligned {io : IoUtil} clip_header
      segment_range_reduction range_count range_data hs :
  range_count <> 0 ->
  forall vars data pos vars' pos',
    run (CompressedClip.read_segments clip_header segment_range_reduction
           range_count range_data hs vars) data pos = Returned vars' pos' ->
    Forall (fun h =>
              SegmentHeader.track_data_offset h mod 4 = 0
              /\ (flag_eqb segment_range_reduction "AllTracks" = true ->
                  SegmentHeader.range_data_offset h mod 2 = 0)) hs.
Proof.
  intros Hrc.
  induction hs as [|h hs IH]; intros vars data pos vars' pos' H;
    [constructor|].
  cbn [CompressedClip.read_segments] in H.
  run_bind_in H as vars1 p1 Eseg.
  apply run_read_segment_returned in Eseg.
  destruct Eseg as (br & srd & td & Edata & _).
  constructor; [|eapply IH; eauto].
  eapply run_read_segment_data_aligned; eauto.
Qed.

(** X15.  On a decode that succeeds of a clip with range-reduced
    components, the offset of the track data in every segment header is a
    multiple of 4, and with segment range reduction (flag 7) the offset of
    the segment range data is even: the padding runs in front of them
    are counted from the clip header. *)
Theorem decoded_segment_offsets_aligned :
  forall (io : IoUtil) data pos clip pos',
    run CompressedClip.read data pos = Returned clip pos' ->
    len (CompressedClip.range_data clip) <> 0 ->
    forall h,
      In h (CompressedClip.segment_headers clip) ->
      SegmentHeader.track_data_offset h mod 4 = 0
      /\ (ClipHeader.segment_range_reduction
            (CompressedClip.clip_header clip) = 7 ->
          SegmentHeader.range_data_offset h mod 2 = 0).
Proof.
  intros io data pos clip pos' H Hrc h Hin.
  apply run_read_returned in H.
  destruct H as (ctx & p1 & vars & p2 & Htracks & Hsegs & Hfin).
  pose proof (run_read_tracks_returned _ _ _ _ Htracks)
    as (_ & _ & Hrd & Hfmt & _).
  pose proof (run_read_finish_returned _ _ _ _ _ _ Hfin)
    as (Esegs & Ehdr & _).
  pose proof (run_read_finish_fields _ _ _ _ _ _ Hfin)
    as (_ & _ & _ & _ & _ & Erd & _).
  cbv zeta in *. rewrite Ehdr, Esegs in *. rewrite Erd in Hrc.
  assert (Hne : CompressedClip.c_range_count ctx <> 0).
  { intros E0. apply Hrc. unfold len. rewrite Hrd, E0. reflexivity. }
  pose proof (run_read_segments_aligned _ _ _ _ _ Hne _ _ _ _ _ Hsegs)
    as Hall.
  rewrite Forall_forall in Hall. destruct (Hall h Hin) as [H4 H2].
  split; [assumption|]. intros H7. apply H2.
  apply check_formats_Ok_iff in Hfmt.
  destruct Hfmt as (_ & [[E0 _]|[_ ->]] & _); [lia|reflexivity].
Qed.

Lemma decoded_segment_offsets_aligned_witness :
  exists clip h,
    run (@CompressedClip.read sample_io) unit_clip 0 = Returned clip 125
    /\ In h (CompressedClip.segment_headers clip)
    /\ SegmentHeader.track_data_offset h mod 4 = 0.
Proof.
  destruct (run (@CompressedClip.read sample_io) unit_clip 0)
    as [clip p|e p] eqn:Erun; [|vm_compute in Erun; discriminate].
  assert (Ep : p = 125) by (vm_compute in Erun; congruence). subst p.
  assert (Hrc : len (CompressedClip.range_data clip) <> 0).
  { vm_compute in Erun. inversion Erun; subst. discriminate. }
  pose proof (decoded_segment_offsets_aligned sample_io unit_clip 0 clip 125
                Erun Hrc) as Hal.
  assert (Ht : exists h l, CompressedClip.segment_headers clip = h :: l).
  { clear Hal Hrc. vm_compute in Erun. inversion Erun; subst. clear Erun.
    vm_compute. do 2 eexists. reflexivity. }
  destruct Ht as (h & l & Et).
  assert (H1 : In h (CompressedClip.segment_headers clip))
    by (rewrite Et; left; reflexivity).
  exists clip, h.
  split; [reflexivity|]. split; [exact H1|].
  exact (proj1 (Hal h H1)).
Defined.

(* ================================================================== *)
(** * Records [read] turns down at once *)
(* ================================================================== *)

Lemma len_f_read_enough data pos n :
  0 <= pos -> 0 <= n -> pos + n <= len data ->
  len (f_read data pos n) = n.
Proof.
  intros Hp Hn H. unfold f_read, len in *.
  destruct (Z.ltb_spec n 0); [lia|].
  rewrite length_firstn, length_skipn. lia.
Qed.

Lemma list_eqb_neq l1 l2 : l1 <> l2 -> list_eqb l1 l2 = false.
Proof.
  intros H. destruct (list_eqb l1 l2) eqn:E; [|reflexivity].
  apply list_eqb_eq in E. contradiction.
Qed.

Lemma run_read_uint_enough n data pos :
  len (f_read data pos n) = n ->
  run (read_uint n) data pos
  = Returned (le_combine (f_read data pos n)) (pos + n).
Proof.
  intros E. unfold read_uint. cbn [run]. rewrite E, Z.eqb_refl.
  reflexivity.
Qed.

(** X16.  The tag and the version are checked before the headers are
    read.  On a file with at least 14 bytes from the start of the record:
    when the four bytes at offset 8 are not the tag [10 ac 10 ac], decode
    raises the error of [io.check] with the message of line 267 and
    leaves the cursor after the tag; when they are the tag and the two
    bytes at offset 12 are not the number 3, it raises the error with the
    message of line 271 and leaves the cursor after the version. *)
Theorem unsupported_tag_or_version :
  forall (io : IoUtil) data pos,
    0 <= pos -> pos + 14 <= len data ->
    (slice data (pos + 8) (pos + 12) <> CompressedClip.BUFFER_TAG ->
     run CompressedClip.read data pos
     = Raised (CheckError "Unsupported ACL format.") (pos + 12))
    /\ (slice data (pos + 8) (pos + 12) = CompressedClip.BUFFER_TAG ->
        le_combine (slice data (pos + 12) (pos + 14)) <> 3 ->
        run CompressedClip.read data pos
        = Raised (CheckError "Unsupported ACL version.") (pos + 14)).
Proof.
  intros io data pos Hpos Hlen.
  assert (L1 : len (f_read data pos 4) = 4)
    by (apply len_f_read_enough; lia).
  assert (L2 : len (f_read data (pos + 4) 4) = 4)
    by (apply len_f_read_enough; lia).
  assert (L3 : len (f_read data (pos + 4 + 4) 4) = 4)
    by (apply len_f_read_enough; lia).
  assert (L4 : len (f_read data (pos + 4 + 4 + 4) 2) = 2)
    by (apply len_f_read_enough; lia).
  assert (S3 : f_read data (pos + 4 + 4) 4 = slice data (pos + 8) (pos + 12)).
  { rewrite f_read_slice_n by lia. f_equal; lia. }
  assert (S4 : f_read data (pos + 4 + 4 + 4) 2
               = slice data (pos + 12) (pos + 14)).
  { rewrite f_read_slice_n by lia. f_equal; lia. }
  assert (Hrun : forall e q,
             run CompressedClip.read_preamble data pos = Raised e q ->
             run CompressedClip.read data pos = Raised e q).
  { intros e q E. unfold CompressedClip.read, CompressedClip.read_tracks.
    now rewrite !run_bind, E. }
  split.
  - intros Htag. apply Hrun. unfold CompressedClip.read_preamble.
    rewrite run_bind. cbn [run].
    rewrite run_bind. unfold read_uint32.
    rewrite run_read_uint_enough by assumption.
    rewrite run_bind. cbn [run]. rewrite L2.
    rewrite run_bind. cbn [run]. rewrite L3, S3.
    rewrite run_bind. unfold check_bytes.
    rewrite (list_eqb_neq _ _ Htag). cbn [run].
    unfold check_failed. f_equal. lia.
  - intros Htag Hver. apply Hrun. unfold CompressedClip.read_preamble.
    rewrite run_bind. cbn [run].
    rewrite run_bind. unfold read_uint32.
    rewrite run_read_uint_enough by assumption.
    rewrite run_bind. cbn [run]. rewrite L2.
    rewrite run_bind. cbn [run]. rewrite L3, S3.
    rewrite run_bind. unfold check_bytes. rewrite Htag.
    replace (list_eqb CompressedClip.BUFFER_TAG CompressedClip.BUFFER_TAG)
      with true by reflexivity.
    cbn [run].
    rewrite run_bind. unfold read_uint16.
    rewrite run_read_uint_enough by assumption.
    rewrite run_bind, S4. unfold check_int.
    destruct (Z.eqb_spec (le_combine (slice data (pos + 12) (pos + 14))) 3)
      as [E3|_]; [contradiction|].
    cbn [run]. unfold check_failed. f_equal. lia.
Qed.

Lemma unsupported_tag_or_version_witness :
  run (@CompressedClip.read sample_io) (alter unit_clip 8 17) 0
  = Raised (CheckError "Unsupported ACL format.") (0 + 12).
Proof.
  apply (proj1 (unsupported_tag_or_version sample_io (alter unit_clip 8 17) 0
                  (Z.le_refl 0) ltac:(vm_compute; discriminate))).
  vm_compute. discriminate.
Defined.

(* ================================================================== *)
(** * More on what a decode keeps *)
(* ================================================================== *)

(** X17.  A clip range triple is read from the bytes [RangeData.write]
    writes for it: for a triple read from a file of bytes with
    [segment=False], none of whose six numbers is NaN, [write] gives back
    the 24 bytes it was read from. *)
Theorem range_data_round_trip :
  forall (io : IoUtil) data pos r pos',
    0 <= pos -> all_bytes data ->
    run (RangeData.read false) data pos = Returned r pos' ->
    ~ In S754_nan (RangeData.min_xyz r ++ RangeData.extent_xyz r) ->
    RangeData.write r = Ok (slice data pos pos') /\ pos' = pos + 24.
Proof. intros io. exact (@run_range_data_read_bytes io). Qed.

Lemma range_data_round_trip_witness :
  exists r,
    run (@RangeData.read sample_io false) unit_range 0 = Returned r 24
    /\ RangeData.write r = Ok (slice unit_range 0 24).
Proof.
  destruct (run (@RangeData.read sample_io false) unit_range 0)
    as [r p|e p] eqn:Erun; [|vm_compute in Erun; discriminate].
  assert (Ep : p = 24) by (vm_compute in Erun; congruence). subst p.
  assert (Hb : all_bytes unit_range)
    by (apply all_bytes_forallb; vm_compute; reflexivity).
  assert (Hn : ~ In S754_nan (RangeData.min_xyz r ++ RangeData.extent_xyz r)).
  { vm_compute in Erun. inversion Erun; subst. clear Erun.
    vm_compute. intros Hin.
    repeat (destruct Hin as [Hin|Hin]; [discriminate|]). exact Hin. }
  exists r. split; [reflexivity|].
  exact (proj1 (range_data_round_trip sample_io unit_range 0 r 24
                  (Z.le_refl 0) Hb Erun Hn)).
Defined.

Lemma rmap_forall {A B} (f : A -> result B) (P : B -> Prop) l :
  (forall a b, f a = Ok b -> P b) ->
  forall l', rmap f l = Ok l' -> Forall P l'.
Proof.
  intros Hf. induction l as [|a l IH]; intros l' H.
  - simpl in H. inversion H; constructor.
  - cbn [rmap] in H.
    destruct (f a) as [b|] eqn:Ea; [|discriminate].
    destruct (rmap f l) as [bs|]; [|discriminate].
    inversion H; subst. constructor; eauto.
Qed.

(** X18.  The bit rates kept on a decoded clip are entries of the table
    [BIT_RATE_NUM_BITS]: 0, 3 to 19, or 32. *)
Theorem decoded_bit_rates_in_table :
  forall (io : IoUtil) data pos clip pos',
    run CompressedClip.read data pos = Returned clip pos' ->
    Forall (fun b => In b CompressedClip.BIT_RATE_NUM_BITS)
           (CompressedClip.bit_rates clip).
Proof.
  intros io data pos clip pos' H.
  apply run_read_returned in H.
  destruct H as (ctx & p1 & vars & p2 & Htracks & Hsegs & Hfin).
  pose proof (run_read_finish_returned _ _ _ _ _ _ Hfin)
    as (_ & _ & Ebr & _).
  destruct (run_read_segments_last _ _ _ _ _ _ _ _ _ _ _ Hsegs Ebr)
    as [Hnone|(h & p & srd & td & p' & _ & Hrun)]; [discriminate|].
  apply run_read_segment_data_rates in Hrun. destruct Hrun as [raw Hraw].
  revert Hraw. apply rmap_forall. intros i b. apply index_In.
Qed.

Lemma decoded_bit_rates_in_table_witness :
  exists clip,
    run (@CompressedClip.read sample_io) unit_clip 0 = Returned clip 125
    /\ Forall (fun b => In b CompressedClip.BIT_RATE_NUM_BITS)
              (CompressedClip.bit_rates clip).
Proof.
  destruct (run (@CompressedClip.read sample_io) unit_clip 0)
    as [clip p|e p] eqn:Erun; [|vm_compute in Erun; discriminate].
  assert (Ep : p = 125) by (vm_compute in Erun; congruence). subst p.
  exists clip. split; [reflexivity|].
  exact (decoded_bit_rates_in_table sample_io unit_clip 0 clip 125 Erun).
Defined.

(* ================================================================== *)
(** * Clips without scale *)
(* ================================================================== *)

Lemma flags_of_str_short s :
  (length s <= 2)%nat ->
  BoneTrack.flags_of_str s = map (fun flag => Ascii.eqb flag "1") s ++ [true].
Proof.
  intros H. unfold BoneTrack.flags_of_str.
  destruct (Nat.eqb_spec (length s) 3); [lia|reflexivity].
Qed.

Lemma sum_app l1 l2 : sum (l1 ++ l2) = sum l1 + sum l2.
Proof.
  induction l1 as [|a l1 IH]; [unfold sum at 2; simpl; lia|].
  cbn [app]. rewrite !sum_cons, IH. lia.
Qed.

Lemma get_range_count_short tr s :
  BoneTrack.use_constant tr
  = map (fun flag => Ascii.eqb flag "1") s ++ [true] ->
  BoneTrack.get_range_count tr <= 2.
Proof.
  intros E. unfold BoneTrack.get_range_count. rewrite E.
  rewrite map_app, sum_app.
  pose proof (sum_flags_bound (map (fun flag => Ascii.eqb flag "1") s)).
  replace (sum (map (fun b : bool => if b then 1 else 0) [true])) with 1
    by reflexivity.
  lia.
Qed.

Lemma length_filter_combine_default (l1 l2 : list bool) :
  (length (filter (fun '(f1, f2) => negb f1 && f2)
                  (combine (l1 ++ [true]) l2)) <= length l1)%nat.
Proof.
  revert l2; induction l1 as [|a l1 IH]; intros [|c l2]; simpl;
    try lia.
  specialize (IH l2). destruct (negb a && c); simpl; lia.
Qed.

Lemma get_constant_count_short tr s :
  (length s <= 2)%nat ->
  BoneTrack.use_default tr
  = map (fun flag => Ascii.eqb flag "1") s ++ [true] ->
  BoneTrack.get_constant_count tr <= 6.
Proof.
  intros Hs E. unfold BoneTrack.get_constant_count. rewrite E.
  pose proof (length_filter_combine_default
                (map (fun flag => Ascii.eqb flag "1") s)
                (BoneTrack.use_constant tr)) as H.
  rewrite length_map in H. unfold len. lia.
Qed.

(** With two attributes for each bone, every track is given one flag
    [True] more than its text has, so that it counts two range-reduced
    components and six constants at most. *)
Lemma set_tracks_flags_two_attributes idxs dflags cflags cdata :
  Forall (fun i => 0 <= i) idxs ->
  forall cc rc tracks cc' rc',
    CompressedClip.set_tracks_flags idxs dflags cflags 2 cdata cc rc
    = (tracks, cc', rc') ->
    Forall (fun tr =>
              exists s1 s2,
                (length s1 <= 2)%nat
                /\ BoneTrack.use_default tr
                   = map (fun flag => Ascii.eqb flag "1") s1 ++ [true]
                /\ BoneTrack.use_constant tr
                   = map (fun flag => Ascii.eqb flag "1") s2 ++ [true])
           tracks.
Proof.
  intros Hidx.
  induction Hidx as [|i idxs Hi _ IH]; intros cc rc tracks cc' rc' H.
  - simpl in H. inversion H; constructor.
  - cbn [CompressedClip.set_tracks_flags] in H.
    unfold BoneTrack.set_constants in H.
    set (tr0 := BoneTrack.set_use_constant _ _) in H.
    set (n := BoneTrack.get_constant_count tr0) in H.
    set (tr := BoneTrack.mk _ _ _ _) in H.
    destruct (CompressedClip.set_tracks_flags idxs dflags cflags 2 cdata
                (cc + n) (rc + BoneTrack.get_range_count tr))
      as [[tracks1 cc1] rc1] eqn:Erec.
    inversion H; subst. clear H.
    constructor; [|eapply IH; eauto].
    assert (Hs : forall flags : pystr,
               (length (slice flags (i * 2) ((i + 1) * 2)) <= 2)%nat).
    { intros flags.
      pose proof (length_slice_le flags (i * 2) ((i + 1) * 2)
                    ltac:(lia) ltac:(lia)).
      replace ((i + 1) * 2 - i * 2) with 2 in * by lia. lia. }
    exists (slice dflags (i * 2) ((i + 1) * 2)),
           (slice cflags (i * 2) ((i + 1) * 2)).
    subst tr tr0. cbn [BoneTrack.use_default BoneTrack.use_constant
                       BoneTrack.set_use_constant BoneTrack.set_use_default].
    split; [apply Hs|].
    split; apply flags_of_str_short, Hs.
Qed.

Lemma In_map_eq2 {A B C} (f : A -> B) (g : A -> C) :
  forall l' l t',
    map f l' = map f l -> map g l' = map g l -> In t' l' ->
    exists t, In t l /\ f t = f t' /\ g t = g t'.
Proof.
  induction l' as [|a' l' IH]; intros [|a l] t' Ef Eg Hin;
    try discriminate; [contradiction|].
  cbn [map] in *. injection Ef as Ef1 Ef2. injection Eg as Eg1 Eg2.
  destruct Hin as [<-|Hin].
  - exists a. split; [now left|]. split; congruence.
  - destruct (IH l t' Ef2 Eg2 Hin) as (t & Ht & E1 & E2).
    exists t. split; [now right|]. split; assumption.
Qed.

(** X19.  On a decode that succeeds of a clip whose header has
    [has_scale] 0, so that the flags have two attributes for each bone:
    every bone track counts two range-reduced components at most and six
    constants at most, the third component, scale, being flagged both
    default and constant by the [True] that [set_use_default] and
    [set_use_constant] append. *)
Theorem decoded_tracks_without_scale :
  forall (io : IoUtil) data pos clip pos',
    run CompressedClip.read data pos = Returned clip pos' ->
    ClipHeader.has_scale (CompressedClip.clip_header clip) = 0 ->
    forall track,
      In track (CompressedClip.bone_tracks clip) ->
      BoneTrack.get_range_count track <= 2
      /\ BoneTrack.get_constant_count track <= 6
      /\ last (BoneTrack.use_default track) false = true
      /\ last (BoneTrack.use_constant track) false = true.
Proof.
  intros io data pos clip pos' H Hscale track Htrack.
  apply run_read_returned in H.
  destruct H as (ctx & p1 & vars & p2 & Htracks & Hsegs & Hfin).
  pose proof (run_read_tracks_returned _ _ _ _ Htracks) as (Hflags & _).
  pose proof (run_read_finish_returned _ _ _ _ _ _ Hfin)
    as (_ & Ehdr & _ & _ & Eset & _).
  cbv zeta in Hflags. rewrite Ehdr in Hscale. rewrite Hscale in Hflags.
  change (2 + 0) with 2 in Hflags.
  apply set_tracks_flags_two_attributes in Hflags.
  2:{ apply Forall_forall. intros i Hi. apply in_range in Hi. lia. }
  apply set_tracks_data_keeps in Eset.
  destruct Eset as (_ & _ & Ed & Ec).
  destruct (In_map_eq2 _ _ _ _ _ Ed Ec Htrack) as (tr & Hin & E1 & E2).
  rewrite Forall_forall in Hflags.
  destruct (Hflags tr Hin) as (s1 & s2 & Hs1 & Hd & Hc).
  rewrite E1 in Hd. rewrite E2 in Hc.
  split; [now apply (get_range_count_short track s2)|].
  split; [now apply (get_constant_count_short track s1)|].
  rewrite Hd, Hc, !last_last. auto.
Qed.

Lemma decoded_tracks_without_scale_witness :
  exists clip track,
    run (@CompressedClip.read sample_io) static_clip 0 = Returned clip 91
    /\ In track (CompressedClip.bone_tracks clip)
    /\ BoneTrack.get_range_count track <= 2.
Proof.
  destruct (run (@CompressedClip.read sample_io) static_clip 0)
    as [clip p|e p] eqn:Erun; [|vm_compute in Erun; discriminate].
  assert (Ep : p = 91) by (vm_compute in Erun; congruence). subst p.
  assert (Hs : ClipHeader.has_scale (CompressedClip.clip_header clip) = 0).
  { vm_compute in Erun. inversion Erun; subst. reflexivity. }
  pose proof (decoded_tracks_without_scale sample_io static_clip 0 clip 91
                Erun Hs) as Hall.
  assert (Ht : exists track l, CompressedClip.bone_tracks clip = track :: l).
  { clear Hall Hs. vm_compute in Erun. inversion Erun; subst. clear Erun.
    vm_compute. do 2 eexists. reflexivity. }
  destruct Ht as (track & l & Et).
  assert (H1 : In track (CompressedClip.bone_tracks clip))
    by (rewrite Et; left; reflexivity).
  exists clip, track.
  split; [reflexivity|]. split; [exact H1|].
  exact (proj1 (Hall track H1)).
Defined.

(* ================================================================== *)
(** * A bit rate out of the table *)
(* ================================================================== *)

Lemma chunks_bytes n :
  forall bs, length bs = n -> map le_combine (chunks 1 n bs) = bs.
Proof.
  induction n as [|n IH]; intros [|b bs] E; try discriminate;
    [reflexivity|].
  cbn [chunks map firstn skipn le_combine].
  rewrite IH by (now injection E). f_equal. lia.
Qed.

Lemma rmap_index_out_of_table {A} (table : list A) l :
  Exists (fun i => i < 0 \/ len table <= i) l ->
  rmap (index table) l = Err IndexError.
Proof.
  assert (Herr : forall i, (exists a, index table i = Ok a)
                           \/ index table i = Err IndexError).
  { intros i. unfold index. destruct (i <? 0); [now right|].
    destruct (nth_error table (Z.to_nat i)); [left; eauto|now right]. }
  induction 1 as [i l Hi|i l _ IH]; cbn [rmap].
  - replace (index table i) with (@Err A IndexError); [reflexivity|].
    unfold index. destruct (Z.ltb_spec i 0); [reflexivity|].
    destruct (nth_error table (Z.to_nat i)) eqn:E; [|reflexivity].
    exfalso. assert (Z.to_nat i < length table)%nat
      by (apply nth_error_Some; congruence).
    unfold len in Hi. lia.
  - destruct (Herr i) as [[a ->]| ->]; [|reflexivity].
    now rewrite IH.
Qed.

(** An iteration whose check of the offset passes and whose bit rates
    hold an index out of the table raises [IndexError] at the end of the
    bit rates. *)
Lemma run_read_segment_data_bad_rate {io : IoUtil} clip_header
      segment_range_reduction range_count h data pos :
  0 <= pos -> 0 < range_count -> pos + range_count <= len data ->
  pos = SegmentHeader.format_per_track_data_offset h
        + ClipHeader.offset clip_header ->
  Exists (fun b => b < 0 \/ 19 <= b) (slice data pos (pos + range_count)) ->
  run (CompressedClip.read_segment_data clip_header segment_range_reduction
         range_count h) data pos
  = Raised IndexError (pos + range_count).
Proof.
  intros Hpos Hrc Hlen Hoff Hbad.
  assert (El : len (f_read data pos (1 * range_count)) = 1 * range_count)
    by (apply len_f_read_enough; lia).
  unfold CompressedClip.read_segment_data.
  destruct (Z.eqb_spec range_count 0) as [|_]; [lia|]. cbn [negb].
  rewrite run_bind. rewrite run_bind. cbn [run].
  unfold check_int at 1. rewrite <- Hoff, Z.eqb_refl. cbn [run].
  rewrite run_bind. unfold read_uint8_array, read_uint_array.
  destruct (Z.ltb_spec range_count 0); [lia|].
  cbn [run]. rewrite El, Z.eqb_refl. cbn [run].
  rewrite run_bind, run_lift.
  change (Z.to_nat 1) with 1%nat.
  rewrite chunks_bytes by (unfold len in El; lia).
  rewrite f_read_slice_n by lia. rewrite Z.mul_1_l.
  now rewrite (rmap_index_out_of_table CompressedClip.BIT_RATE_NUM_BITS _
                 Hbad).
Qed.

(** X20.  A bit rate that is not an index of the table of 19 widths is
    not reported as a format error: on a file of bytes, when the bit rates
    of the first segment, found where the segment header says, hold a
    byte of 19 or more, decode raises [IndexError] and leaves the cursor
    at the end of the bit rates. *)
Theorem bit_rate_out_of_table_raises_IndexError :
  forall (io : IoUtil) data pos ctx pos1 h rest,
    all_bytes data ->
    run CompressedClip.read_tracks data pos = Returned ctx pos1 ->
    CompressedClip.c_segment_headers ctx = h :: rest ->
    0 <= pos1 -> 0 < CompressedClip.c_range_count ctx ->
    pos1 + CompressedClip.c_range_count ctx <= len data ->
    pos1 = SegmentHeader.format_per_track_data_offset h
           + ClipHeader.offset (CompressedClip.c_clip_header ctx) ->
    Exists (fun b => 19 <= b)
           (slice data pos1 (pos1 + CompressedClip.c_range_count ctx)) ->
    run CompressedClip.read data pos
    = Raised IndexError (pos1 + CompressedClip.c_range_count ctx).
Proof.
  intros io data pos ctx pos1 h rest _ Htr Hsegs Hpos Hrc Hlen Hoff Hbad.
  assert (Hbad' : Exists (fun b => b < 0 \/ 19 <= b)
                         (slice data pos1
                                (pos1 + CompressedClip.c_range_count ctx))).
  { revert Hbad. apply Exists_impl. intros b Hb. now right. }
  unfold CompressedClip.read.
  rewrite run_bind, Htr, run_bind, Hsegs. cbn [CompressedClip.read_segments].
  rewrite run_bind. unfold CompressedClip.read_segment at 1.
  rewrite run_bind.
  now rewrite (run_read_segment_data_bad_rate _ _ _ _ _ _ Hpos Hrc Hlen
                 Hoff Hbad').
Qed.

Lemma bit_rate_out_of_table_raises_IndexError_witness :
  run (@CompressedClip.read sample_io) (alter unit_clip 100 19) 0
  = Raised IndexError (100 + 1).
Proof.
  destruct (run (@CompressedClip.read_tracks sample_io)
                (alter unit_clip 100 19) 0)
    as [ctx p|e p] eqn:Etr; [|vm_compute in Etr; discriminate].
  assert (Ep : p = 100) by (vm_compute in Etr; congruence). subst p.
  assert (Hb : all_bytes (alter unit_clip 100 19))
    by (apply all_bytes_forallb; vm_compute; reflexivity).
  assert (Ec : exists c, ctx = c
             /\ CompressedClip.c_segment_headers c
                = [sample_segment 2 84 86 88]
             /\ CompressedClip.c_range_count c = 1
             /\ ClipHeader.offset (CompressedClip.c_clip_header c) = 16).
  { vm_compute in Etr. inversion Etr; subst. clear Etr.
    eexists. split; [reflexivity|]. vm_compute. repeat split. }
  destruct Ec as (c & <- & Hs & Hr & Ho).
  pose proof (bit_rate_out_of_table_raises_IndexError sample_io
                (alter unit_clip 100 19) 0 ctx 100
                (sample_segment 2 84 86 88) [] Hb Etr Hs) as Hx.
  rewrite Hr, Ho in Hx.
  apply Hx.
  - discriminate.
  - reflexivity.
  - vm_compute. discriminate.
  - reflexivity.
  - vm_compute. constructor. discriminate.
Defined.

(* ================================================================== *)
(** * The loop over the segments only appends *)
(* ================================================================== *)

(** The loop over the components of a segment leaves each list of
    [bone_track_floats] as it is and appends the samples of the segment
    to it. *)
Lemma unpack_components_appends binary track_data_size num_samples
      segment_range_data :
  (forall s, In (Some s) segment_range_data ->
             length (RangeData.min_xyz s) = 3%nat
             /\ length (RangeData.extent_xyz s) = 3%nat) ->
  forall comps idx max_int done todo max_int' floats',
    CompressedClip.unpack_components binary track_data_size num_samples
      segment_range_data comps idx max_int (done ++ todo)
    = Ok (max_int', floats') ->
    map snd comps = map Z.of_nat (seq (length done) (length todo)) ->
    Forall (fun c : Z * RangeData.t * Z =>
              length (RangeData.min_xyz (snd (fst c))) = 3%nat
              /\ length (RangeData.extent_xyz (snd (fst c))) = 3%nat)
           comps ->
    exists added,
      floats' = done ++ map (fun p => fst p ++ snd p) (combine todo added)
      /\ length added = length todo
      /\ Forall (samples_of (Z.to_nat num_samples)) added.
Proof.
  intros Hsrd.
  induction comps as [|[[bits rd] rid] comps IH];
    intros idx max_int done todo max_int' floats' H Hrids Hrd.
  - destruct todo as [|f todo]; [|discriminate].
    simpl in H. inversion H; subst. exists []. repeat split; constructor.
  - destruct todo as [|f todo]; [discriminate|].
    cbn [map snd length seq] in Hrids. injection Hrids as Hrid Hrids.
    subst rid.
    cbn [CompressedClip.unpack_components] in H.
    destruct (CompressedClip.unpack_component _ _ _ _ _ _ _ _ _)
      as [[m1 xyzs]|] eqn:Ec; [|discriminate].
    cbn [rbind] in H.
    destruct (index (done ++ f :: todo) (Z.of_nat (length done)));
      [|discriminate].
    cbn [rbind] in H.
    rewrite Nat2Z.id, extend_at_app in H.
    change (done ++ (f ++ xyzs) :: todo)
      with (done ++ [f ++ xyzs] ++ todo) in H.
    rewrite app_assoc in H.
    inversion Hrd as [|c cs Hc Hcs]; subst. cbn [fst snd] in Hc.
    destruct Hc as [Hmin Hext].
    pose proof (unpack_component_shape _ _ _ _ _ _ _ _ _ _ _ Ec Hmin Hext
                  Hsrd) as Hx.
    apply IH in H; try assumption.
    + destruct H as (added & E & Hl & Hall).
      exists (xyzs :: added). split.
      * rewrite E, <- app_assoc. reflexivity.
      * split; [cbn [length]; lia|]. now constructor.
    + rewrite length_app. cbn [length]. rewrite Nat.add_1_r. exact Hrids.
Qed.

Lemma Forall2_appended (n : nat) (floats added : list (list (list float))) :
  length added = length floats ->
  Forall (samples_of n) added ->
  Forall2 (fun old new => exists xyzs, new = old ++ xyzs /\ samples_of n xyzs)
          floats (map (fun p => fst p ++ snd p) (combine floats added)).
Proof.
  revert added; induction floats as [|f floats IH]; intros [|a added] Hl Hall;
    try discriminate; [constructor|].
  inversion Hall; subst. cbn [combine map fst snd].
  constructor; [now exists a|]. apply IH; [now injection Hl|assumption].
Qed.

Section Appends.
Context {io : IoUtil}.
Variables (clip_header : ClipHeader.t)
          (segment_range_reduction : option string)
          (range_count : Z) (range_data : list RangeData.t).
Hypothesis range_data_length : length range_data = Z.to_nat range_count.
Hypothesis range_data_triples :
  Forall (fun rd => length (RangeData.min_xyz rd) = 3%nat
                    /\ length (RangeData.extent_xyz rd) = 3%nat)
         range_data.

Lemma run_read_segment_appends vars h data pos vars' pos' :
  run (CompressedClip.read_segment clip_header segment_range_reduction
         range_count range_data vars h) data pos = Returned vars' pos' ->
  length (CompressedClip.l_bone_track_floats vars) = Z.to_nat range_count ->
  Forall2 (fun old new =>
             exists xyzs,
               new = old ++ xyzs
               /\ samples_of (Z.to_nat (SegmentHeader.num_samples h)) xyzs)
          (CompressedClip.l_bone_track_floats vars)
          (CompressedClip.l_bone_track_floats vars').
Proof.
  intros H Hlen.
  apply run_read_segment_returned in H.
  destruct H as (br & srd & td & Edata & _ & _ & Eun).
  pose proof (run_read_segment_data_returned _ _ _ _ _ _ _ _ _ _ Edata)
    as [Hrc Hbr].
  pose proof (run_read_segment_data_ranges _ _ _ _ _ _ _ _ _ _ Edata)
    as Hsrd.
  change (CompressedClip.l_bone_track_floats vars)
    with ([] ++ CompressedClip.l_bone_track_floats vars) in Eun.
  apply (unpack_components_appends _ _ _ _ Hsrd) in Eun.
  - destruct Eun as (added & E & Hl & Hall).
    rewrite E. cbn [app]. now apply Forall2_appended.
  - unfold zip3. rewrite map_snd_combine_eq.
    + cbn [length]. rewrite Hlen. reflexivity.
    + unfold range. rewrite length_combine, length_map, length_seq.
      unfold len in Hbr. lia.
  - unfold zip3. apply Forall_forall. intros [[b rd] rid] Hin.
    apply in_combine_l in Hin. apply in_combine_r in Hin.
    rewrite Forall_forall in range_data_triples.
    now apply range_data_triples.
Qed.

Lemma run_read_segments_length hs :
  forall vars data pos vars' pos',
    run (CompressedClip.read_segments clip_header segment_range_reduction
           range_count range_data hs vars) data pos = Returned vars' pos' ->
    length (CompressedClip.l_bone_track_floats vars)
    = Z.to_nat range_count ->
    length (CompressedClip.l_bone_track_floats vars')
    = Z.to_nat range_count.
Proof.
  induction hs as [|h hs IH]; intros vars data pos vars' pos' H Hlen.
  - simpl in H. inversion H; subst. exact Hlen.
  - cbn [CompressedClip.read_segments] in H.
    run_bind_in H as vars1 p1 Eseg.
    apply (IH _ _ _ _ _ H).
    apply run_read_segment_appends in Eseg; [|exact Hlen].
    apply Forall2_length in Eseg. congruence.
Qed.

End Appends.

(** X21.  The loop over the segments only appends.  What the iteration
    for the last of the segment headers [hs ++ [h]] does to
    [bone_track_floats], as the iterations for [hs] leave it: each list
    keeps the samples it has and gets the samples of the segment [h] at
    its end, [num_samples] samples of three coordinates. *)
Theorem segment_loop_appends :
  forall (io : IoUtil) clip_header segment_range_reduction range_count
         range_data hs h vars data pos vars2 pos2,
    length range_data = Z.to_nat range_count ->
    Forall (fun rd => length (RangeData.min_xyz rd) = 3%nat
                      /\ length (RangeData.extent_xyz rd) = 3%nat)
           range_data ->
    length (CompressedClip.l_bone_track_floats vars) = Z.to_nat range_count ->
    run (CompressedClip.read_segments clip_header segment_range_reduction
           range_count range_data (hs ++ [h]) vars) data pos
    = Returned vars2 pos2 ->
    exists vars1 pos1,
      run (CompressedClip.read_segments clip_header segment_range_reduction
             range_count range_data hs vars) data pos = Returned vars1 pos1
      /\ Forall2 (fun old new =>
                    exists xyzs,
                      new = old ++ xyzs
                      /\ samples_of (Z.to_nat (SegmentHeader.num_samples h))
                                    xyzs)
                 (CompressedClip.l_bone_track_floats vars1)
                 (CompressedClip.l_bone_track_floats vars2).
Proof.
  intros io clip_header srr rc rd hs h vars data pos vars2 pos2
         Hrd Htriples Hlen H.
  rewrite run_read_segments_app in H.
  destruct (run (CompressedClip.read_segments clip_header srr rc rd hs vars)
                data pos) as [vars1 pos1|e pos1] eqn:Ehs; [|discriminate].
  exists vars1, pos1. split; [reflexivity|].
  pose proof (run_read_segments_length _ _ _ _ Hrd Htriples hs _ _ _ _ _
                Ehs Hlen) as Hlen1.
  exact (run_read_segment_appends _ _ _ _ Hrd Htriples _ _ _ _ _ _ H Hlen1).
Qed.

Lemma segment_loop_appends_witness :
  exists vars1 pos1 vars2 pos2,
    run (@CompressedClip.read_segments sample_io (sample_header 2 7 1 2 0)
           (Some "None"%string) 1
           [RangeData.mk [S754_zero false; S754_zero false; S754_zero false]
                         [SFone 53 1024; SFone 53 1024; SFone 53 1024]]
           [sample_segment 1 104 106 108] (CompressedClip.init_locals 1))
        two_segment_clip 120 = Returned vars1 pos1
    /\ run (@CompressedClip.read_segments sample_io (sample_header 2 7 1 2 0)
              (Some "None"%string) 1
              [RangeData.mk
                 [S754_zero false; S754_zero false; S754_zero false]
                 [SFone 53 1024; SFone 53 1024; SFone 53 1024]]
              ([sample_segment 1 104 106 108]
               ++ [sample_segment 1 111 112 112])
              (CompressedClip.init_locals 1))
           two_segment_clip 120 = Returned vars2 pos2
    /\ Forall2 (fun old new =>
                  exists xyzs,
                    new = old ++ xyzs
                    /\ samples_of
                         (Z.to_nat (SegmentHeader.num_samples
                                      (sample_segment 1 111 112 112)))
                         xyzs)
               (CompressedClip.l_bone_track_floats vars1)
               (CompressedClip.l_bone_track_floats vars2).
Proof.
  destruct (run (@CompressedClip.read_segments sample_io
                   (sample_header 2 7 1 2 0) (Some "None"%string) 1
                   [RangeData.mk
                      [S754_zero false; S754_zero false; S754_zero false]
                      [SFone 53 1024; SFone 53 1024; SFone 53 1024]]
                   ([sample_segment 1 104 106 108]
                    ++ [sample_segment 1 111 112 112])
                   (CompressedClip.init_locals 1))
                two_segment_clip 120)
    as [vars2 pos2|e p] eqn:Erun; [|vm_compute in Erun; discriminate].
  assert (Ht : Forall (fun rd => length (RangeData.min_xyz rd) = 3%nat
                                 /\ length (RangeData.extent_xyz rd) = 3%nat)
                      [RangeData.mk
                         [S754_zero false; S754_zero false; S754_zero false]
                         [SFone 53 1024; SFone 53 1024; SFone 53 1024]])
    by (repeat constructor).
  destruct (segment_loop_appends sample_io (sample_header 2 7 1 2 0)
              (Some "None"%string) 1
              [RangeData.mk
                 [S754_zero false; S754_zero false; S754_zero false]
                 [SFone 53 1024; SFone 53 1024; SFone 53 1024]]
              [sample_segment 1 104 106 108] (sample_segment 1 111 112 112)
              (CompressedClip.init_locals 1) two_segment_clip 120
              vars2 pos2 eq_refl Ht eq_refl Erun)
    as (vars1 & pos1 & E1 & HF).
  exists vars1, pos1, vars2, pos2.
  split; [exact E1|]. split; [reflexivity|exact HF].
Defined.

(* ================================================================== *)
(** * A check that never fails *)
(* ================================================================== *)

Lemma set_tracks_data_cursor floats tracks :
  forall idx tracks' idx',
    CompressedClip.set_tracks_data tracks floats idx = (tracks', idx') ->
    idx' = idx + sum (map BoneTrack.get_range_count tracks).
Proof.
  induction tracks as [|tr tracks IH]; intros idx tracks' idx' H.
  - simpl in H. inversion H; subst. unfold sum; simpl; lia.
  - cbn [CompressedClip.set_tracks_data] in H.
    unfold BoneTrack.set_track_data in H.
    destruct (CompressedClip.set_tracks_data tracks floats _)
      as [tracks1 idx1] eqn:Erec.
    inversion H; subst. clear H.
    apply IH in Erec. cbn [map]. rewrite sum_cons. lia.
Qed.

(** X22.  The check [io.check(idx, len(bone_track_floats))] of [read]
    never fails once the loop over the segments has run: after the
    headers, the flags and the clip range data are read and at least one
    segment is decoded, the cursor [idx] that the tracks advance by their
    range counts ends at the number of lists of [bone_track_floats]. *)
Theorem rows_check_never_fails :
  forall (io : IoUtil) data pos ctx pos1 vars pos2,
    run CompressedClip.read_tracks data pos = Returned ctx pos1 ->
    run (CompressedClip.read_segments
           (CompressedClip.c_clip_header ctx)
           (CompressedClip.c_segment_range_reduction ctx)
           (CompressedClip.c_range_count ctx)
           (CompressedClip.c_range_data ctx)
           (CompressedClip.c_segment_headers ctx)
           (CompressedClip.init_locals (CompressedClip.c_range_count ctx)))
        data pos1 = Returned vars pos2 ->
    CompressedClip.c_segment_headers ctx <> [] ->
    snd (CompressedClip.set_tracks_data (CompressedClip.c_bone_tracks ctx)
           (CompressedClip.l_bone_track_floats vars) 0)
    = len (CompressedClip.l_bone_track_floats vars).
Proof.
  intros io data pos ctx pos1 vars pos2 Htracks Hsegs Hne.
  pose proof (run_read_tracks_returned _ _ _ _ Htracks)
    as (Hflags & _ & Hrd & _).
  destruct (run_read_tracks_stages _ _ _ _ Htracks)
    as (q0 & q1 & q2 & q3 & q4 & q5 & _ & _ & _ & _ & _ & _ & _ & Hranges).
  cbv zeta in *.
  assert (Htriples :
            Forall (fun rd => length (RangeData.min_xyz rd) = 3%nat
                              /\ length (RangeData.extent_xyz rd) = 3%nat)
                   (CompressedClip.c_range_data ctx)).
  { apply (run_read_times_forall (RangeData.read false) _ data
             (fun pos a pos' => run_range_data_read_returned
                                  false data pos a pos')
             _ _ _ _ Hranges). }
  assert (Hlen : length (CompressedClip.l_bone_track_floats vars)
                 = Z.to_nat (CompressedClip.c_range_count ctx)).
  { apply (run_read_segments_length _ _ _ _ Hrd Htriples _ _ _ _ _ _ Hsegs).
    unfold CompressedClip.init_locals, range.
    cbn [CompressedClip.l_bone_track_floats].
    now rewrite !length_map, length_seq. }
  assert (Hrc : 0 <= CompressedClip.c_range_count ctx).
  { destruct (CompressedClip.c_segment_headers ctx) as [|h hs];
      [now contradiction Hne|].
    cbn [CompressedClip.read_segments] in Hsegs.
    run_bind_in Hsegs as vars1 p1 Eseg.
    apply run_read_segment_returned in Eseg.
    destruct Eseg as (br & srd & td & Edata & _).
    now apply run_read_segment_data_returned in Edata. }
  apply set_tracks_flags_constants in Hflags; [|lia].
  destruct Hflags as (_ & _ & Hsum & _).
  destruct (CompressedClip.set_tracks_data _ _ 0) as [tracks' idx'] eqn:Eset.
  apply set_tracks_data_cursor in Eset.
  cbn [snd]. unfold len. rewrite Hlen. lia.
Qed.

Lemma rows_check_never_fails_witness :
  exists ctx vars,
    run (@CompressedClip.read_tracks sample_io) two_segment_clip 0
    = Returned ctx 120
    /\ snd (CompressedClip.set_tracks_data (CompressedClip.c_bone_tracks ctx)
              (CompressedClip.l_bone_track_floats vars) 0)
       = len (CompressedClip.l_bone_track_floats vars).
Proof.
  destruct (run (@CompressedClip.read_tracks sample_io) two_segment_clip 0)
    as [ctx p|e p] eqn:Etr; [|vm_compute in Etr; discriminate].
  assert (Ep : p = 120) by (vm_compute in Etr; congruence). subst p.
  destruct (run (@CompressedClip.read_segments sample_io
                   (CompressedClip.c_clip_header ctx)
                   (CompressedClip.c_segment_range_reduction ctx)
                   (CompressedClip.c_range_count ctx)
                   (CompressedClip.c_range_data ctx)
                   (CompressedClip.c_segment_headers ctx)
                   (CompressedClip.init_locals
                      (CompressedClip.c_range_count ctx)))
                two_segment_clip 120)
    as [vars p2|e p2] eqn:Esegs.
  - assert (Hne : CompressedClip.c_segment_headers ctx <> []).
    { vm_compute in Etr. inversion Etr; subst. discriminate. }
    exists ctx, vars. split; [reflexivity|].
    exact (rows_check_never_fails sample_io two_segment_clip 0 ctx 120
             vars p2 Etr Esegs Hne).
  - exfalso. vm_compute in Etr. inversion Etr; subst. clear Etr.
    vm_compute in Esegs. discriminate.
Defined.

(* ================================================================== *)
(** * The errors a decode does not raise *)
(* ================================================================== *)

Lemma nae_bind {A B} (p : reader A) (f : A -> reader B) data :
  no_arithmetic_error p data ->
  (forall pos a pos1,
      run p data pos = Returned a pos1 -> no_arithmetic_error (f a) data) ->
  no_arithmetic_error (bind p f) data.
Proof.
  intros Hp Hf pos e pos' H. rewrite run_bind in H.
  destruct (run p data pos) as [a p1|e1 p1] eqn:E.
  - eapply Hf; eauto.
  - inversion H; subst. eapply Hp; eauto.
Qed.

Lemma nae_ret {A} (a : A) data : no_arithmetic_error (Ret a) data.
Proof. intros pos e pos' H. discriminate. Qed.

Lemma nae_raise {A} e data :
  is_arithmetic e = false -> no_arithmetic_error (@Raise A e) data.
Proof. intros He pos e' pos' H. simpl in H. now inversion H; subst. Qed.

Lemma nae_lift {A} (r : result A) data :
  (forall e, r = Err e -> is_arithmetic e = false) ->
  no_arithmetic_error (lift r) data.
Proof.
  intros Hr pos e pos' H. rewrite run_lift in H.
  destruct r; inversion H; subst. now apply Hr.
Qed.

Lemma nae_tell {A} (k : Z -> reader A) data :
  (forall pos, no_arithmetic_error (k pos) data) ->
  no_arithmetic_error (Tell k) data.
Proof. intros Hk pos e pos' H. simpl in H. eapply Hk; eauto. Qed.

Lemma nae_read {A} n (k : list Z -> reader A) data :
  (forall bs, no_arithmetic_error (k bs) data) ->
  no_arithmetic_error (Read n k) data.
Proof. intros Hk pos e pos' H. simpl in H. eapply Hk; eauto. Qed.

Lemma nae_padding {A} n (k : reader A) data :
  no_arithmetic_error k data -> no_arithmetic_error (Padding n k) data.
Proof.
  intros Hk pos e pos' H. simpl in H.
  destruct (list_eqb _ _).
  - eapply Hk; eauto.
  - inversion H; reflexivity.
Qed.

Lemma nae_check_int a b msg data : no_arithmetic_error (check_int a b msg) data.
Proof.
  unfold check_int. destruct (a =? b); [apply nae_ret|now apply nae_raise].
Qed.

Lemma nae_check_bytes a b msg data :
  no_arithmetic_error (check_bytes a b msg) data.
Proof.
  unfold check_bytes.
  destruct (list_eqb a b); [apply nae_ret|now apply nae_raise].
Qed.

Lemma nae_read_uint n data : no_arithmetic_error (read_uint n) data.
Proof.
  unfold read_uint. apply nae_read. intros bs.
  destruct (len bs =? n); [apply nae_ret|now apply nae_raise].
Qed.

Lemma nae_read_uint_array n length data :
  no_arithmetic_error (read_uint_array n length) data.
Proof.
  unfold read_uint_array. destruct (length <? 0); [now apply nae_raise|].
  apply nae_read. intros bs.
  destruct (len bs =? n * length); [apply nae_ret|now apply nae_raise].
Qed.

Lemma nae_read_float32_array length data :
  no_arithmetic_error (read_float32_array length) data.
Proof.
  unfold read_float32_array. apply nae_bind.
  - apply nae_read_uint_array.
  - intros. apply nae_ret.
Qed.

Lemma nae_read_vec3_i8 {io : IoUtil} data :
  no_arithmetic_error read_vec3_i8 data.
Proof.
  unfold read_vec3_i8. apply nae_read. intros bs.
  destruct (len bs =? 3); [apply nae_ret|now apply nae_raise].
Qed.

Lemma nae_range_data_read {io : IoUtil} segment data :
  no_arithmetic_error (RangeData.read segment) data.
Proof.
  unfold RangeData.read, read_vec3_f32. destruct segment.
  - apply nae_bind; [apply nae_read_vec3_i8|]. intros.
    apply nae_bind; [apply nae_read_vec3_i8|]. intros. apply nae_ret.
  - apply nae_bind; [apply nae_read_float32_array|]. intros.
    apply nae_bind; [apply nae_read_float32_array|]. intros. apply nae_ret.
Qed.

Lemma nae_read_times {A} (p : reader A) n data :
  no_arithmetic_error p data -> no_arithmetic_error (read_times p n) data.
Proof.
  intros Hp. induction n as [|n IH]; cbn [read_times]; [apply nae_ret|].
  apply nae_bind; [assumption|]. intros.
  apply nae_bind; [assumption|]. intros. apply nae_ret.
Qed.

Lemma nae_local {A} name (v : option A) data :
  no_arithmetic_error (CompressedClip.local name v) data.
Proof. destruct v; [apply nae_ret|now apply nae_raise]. Qed.

Ltac nae_step :=
  match goal with
  | |- no_arithmetic_error (bind _ _) _ => apply nae_bind; [|intros]
  | |- no_arithmetic_error (Ret _) _ => apply nae_ret
  | |- no_arithmetic_error (Tell _) _ => apply nae_tell; intros
  | |- no_arithmetic_error (Read _ _) _ => apply nae_read; intros
  | |- no_arithmetic_error (Padding _ _) _ => apply nae_padding
  | |- no_arithmetic_error (check_int _ _ _) _ => apply nae_check_int
  | |- no_arithmetic_error (check_bytes _ _ _) _ => apply nae_check_bytes
  | |- no_arithmetic_error (read_uint _) _ => apply nae_read_uint
  | |- no_arithmetic_error read_uint32 _ => apply nae_read_uint
  | |- no_arithmetic_error read_uint16 _ => apply nae_read_uint
  | |- no_arithmetic_error read_uint8 _ => apply nae_read_uint
  | |- no_arithmetic_error (read_uint_array _ _) _ =>
      apply nae_read_uint_array
  | |- no_arithmetic_error (read_float32_array _) _ =>
      apply nae_read_float32_array
  | |- no_arithmetic_error (CompressedClip.local _ _) _ => apply nae_local
  | |- no_arithmetic_error (read_times _ _) _ => apply nae_read_times
  | |- no_arithmetic_error (RangeData.read _) _ => apply nae_range_data_read
  end.

Lemma nae_read_preamble data :
  no_arithmetic_error CompressedClip.read_preamble data.
Proof. unfold CompressedClip.read_preamble. repeat nae_step. Qed.

Lemma index_err {A} (l : list A) i e : index l i = Err e -> e = IndexError.
Proof.
  unfold index. destruct (i <? 0); [now inversion 1|].
  destruct (nth_error l (Z.to_nat i)); [discriminate|now inversion 1].
Qed.

(** The checks of the formats raise [IndexError], for a field beyond its
    table, or [RuntimeError]. *)
Lemma check_formats_err h e :
  CompressedClip.check_formats h = Err e -> is_arithmetic e = false.
Proof.
  unfold CompressedClip.check_formats.
  repeat match goal with
         | |- rbind (index ?l ?i) _ = Err _ -> _ =>
             let E := fresh "E" in
             destruct (index l i) eqn:E;
             [cbn [rbind]
             |apply index_err in E; subst; cbn [rbind];
              intros H0; now inversion H0]
         | |- (if ?b then _ else _) = Err _ -> _ =>
             destruct b; [intros H0; now inversion H0|]
         end.
  discriminate.
Qed.

Lemma rmap_err {A B} (f : A -> result B) l e :
  rmap f l = Err e -> exists a, In a l /\ f a = Err e.
Proof.
  induction l as [|a l IH]; simpl; [discriminate|].
  destruct (f a) as [b|e1] eqn:Ea.
  - destruct (rmap f l) as [bs|e2]; [discriminate|].
    intros E. inversion E; subst.
    destruct (IH eq_refl) as (x & Hx & Ex). exists x. auto.
  - intros E. inversion E; subst. exists a. auto.
Qed.

Lemma in_table_bounds b :
  In b CompressedClip.BIT_RATE_NUM_BITS -> b = 0 \/ 3 <= b <= 32.
Proof.
  unfold CompressedClip.BIT_RATE_NUM_BITS. simpl.
  intros H. repeat (destruct H as [H|H]; [lia|]). contradiction.
Qed.

Lemma nonzero_max_int_assigned bits :
  0 < bits -> nonzero_max_int (Some (Z.shiftl 1 bits - 1)).
Proof.
  intros Hb m E. inversion E; subst. rewrite Z.shiftl_1_l.
  assert (2 ^ 1 <= 2 ^ bits) by (apply Z.pow_le_mono_r; lia).
  change (2 ^ 1) with 2 in *. lia.
Qed.

Lemma int_truediv_nonzero i m :
  m <> 0 ->
  int_truediv i m = Ok (SFdiv 53 1024 (float_of_int i) (float_of_int m)).
Proof.
  intros Hm. unfold int_truediv. now destruct (Z.eqb_spec m 0).
Qed.

(** What is left of an iteration over a component once [ints] is there:
    only a [max_int] that is not assigned and a segment without range
    data for the component make it raise. *)
Lemma normalize_errors (max_int : option Z) (ints : list Z)
      (num_samples : Z) (segment_range_data : list (option RangeData.t))
      (rid : Z) e :
  nonzero_max_int max_int ->
  (floats <--
     rmap (fun i =>
             match max_int with
             | Some m => int_truediv i m
             | None => Err (NameError "max_int")
             end) ints ;;
   let xyzs :=
     map (fun i => slice floats (i * 3) ((i + 1) * 3))
         (range num_samples) in
   srd <-- index segment_range_data rid ;;
   match srd with
   | Some srd => Ok (map (RangeData.unpack srd) xyzs)
   | None => Ok xyzs
   end)%res = Err e ->
  is_arithmetic e = false.
Proof.
  intros Hm.
  destruct (rmap _ ints) as [floats|e1] eqn:E; cbn [rbind].
  - destruct (index segment_range_data rid) as [srd|e2] eqn:Ei; cbn [rbind].
    + destruct srd; discriminate.
    + apply index_err in Ei. subst. intros H. now inversion H.
  - intros H. inversion H; subst. clear H.
    apply rmap_err in E. destruct E as (i & _ & Ei).
    destruct max_int as [m|].
    + rewrite int_truediv_nonzero in Ei by now apply Hm. discriminate.
    + now inversion Ei.
Qed.

(** An iteration over a component whose bits are all in [track_data]:
    [int(b, 2)], [to_bytes] and the division do not raise, and the
    [max_int] it leaves is not 0. *)
Lemma unpack_component_errors track_data track_data_size num_samples
      segment_range_data max_int idx bits rd rid :
  all_bytes track_data ->
  In bits CompressedClip.BIT_RATE_NUM_BITS ->
  0 <= idx ->
  idx + 3 * bits <= track_data_size ->
  num_samples * track_data_size <= 8 * len track_data ->
  nonzero_max_int max_int ->
  match CompressedClip.unpack_component
          (CompressedClip.binary_of track_data) track_data_size num_samples
          segment_range_data max_int idx bits rd rid with
  | Ok (max_int', _) => nonzero_max_int max_int'
  | Err e => is_arithmetic e = false
  end.
Proof.
  intros Hb Hin Hidx Hfit Hlen Hm.
  apply in_table_bounds in Hin.
  unfold CompressedClip.unpack_component.
  destruct (Z.eqb_spec bits 0) as [->|Hb0]; cbn [negb].
  - cbn [rbind Z.eqb negb].
    match goal with
    | |- match rbind ?x _ with _ => _ end =>
        destruct x as [xyzs|e] eqn:E; cbn [rbind]
    end; [assumption|].
    now apply normalize_errors in E.
  - assert (Hbits : 0 < bits) by lia.
    rewrite map_map, range_3, sum_lists_concat.
    rewrite (rmap_triples int2
               (fun i c =>
                  slice (CompressedClip.get_frame_bin i
                           (CompressedClip.binary_of track_data)
                           track_data_size idx bits)
                        (c * bits) ((c + 1) * bits))
               (fun i c =>
                  sample_code track_data track_data_size idx bits i c)).
    2:{ intros i Hi c Hc. apply in_range in Hi.
        apply (int2_piece track_data track_data_size num_samples);
          auto; lia. }
    cbn [rbind].
    pose proof (nonzero_max_int_assigned bits Hbits) as Hm'.
    destruct (Z.eqb_spec bits 32) as [->|Hb32]; cbn [negb].
    + rewrite (rmap_triples (to_bytes_big 4)
                 (fun i c =>
                    sample_code track_data track_data_size idx 32 i c)
                 (fun i c =>
                    rev (le_split 4
                           (sample_code track_data track_data_size idx 32
                              i c)))).
      2:{ intros i _ c _. apply to_bytes_big_4, sample_code_32. }
      cbn [rbind]. assumption.
    + match goal with
      | |- match rbind ?x _ with _ => _ end =>
          destruct x as [xyzs|e] eqn:E; cbn [rbind]
      end; [assumption|].
      exact (normalize_errors (Some (Z.shiftl 1 bits - 1)) _ _ _ _ _ Hm' E).
Qed.

Lemma map_fst_combine_firstn {A B} (a : list A) (b : list B) :
  map fst (combine a b) = firstn (length b) a.
Proof.
  revert b; induction a as [|x a IH]; intros [|y b]; simpl;
    try reflexivity.
  f_equal. apply IH.
Qed.

(** The bit rates [zip] pairs up are the first ones of [bit_rates]. *)
Lemma zip3_bit_rates {B C} (bit_rates : list Z) (b : list B) (c : list C) :
  map (fun x => fst (fst x)) (zip3 bit_rates b c)
  = firstn (length c) (firstn (length b) bit_rates).
Proof.
  unfold zip3. rewrite <- (map_map fst fst), map_fst_combine_firstn.
  rewrite <- firstn_map, map_fst_combine_firstn. reflexivity.
Qed.

Lemma sum_firstn_le n : forall l,
  Forall (fun x => 0 <= x) l -> 0 <= sum (firstn n l) <= sum l.
Proof.
  induction n as [|n IH]; intros l H.
  - cbn [firstn]. change (sum []) with 0.
    induction H as [|x l Hx _ IHl]; [change (sum []) with 0; lia|].
    rewrite sum_cons. lia.
  - destruct H as [|x l Hx H]; [cbn; change (sum []) with 0; lia|].
    cbn [firstn]. rewrite !sum_cons. specialize (IH l H). lia.
Qed.

(** The loop over the components of a segment, from the component at
    bit [idx] on, when the bits of the components that are left are in
    [track_data]. *)
Lemma unpack_components_errors track_data track_data_size num_samples
      segment_range_data comps :
  all_bytes track_data ->
  num_samples * track_data_size <= 8 * len track_data ->
  Forall (fun c => In (fst (fst c)) CompressedClip.BIT_RATE_NUM_BITS)
         comps ->
  forall idx max_int bone_track_floats,
    0 <= idx ->
    idx + 3 * sum (map (fun c => fst (fst c)) comps) <= track_data_size ->
    nonzero_max_int max_int ->
    match CompressedClip.unpack_components
            (CompressedClip.binary_of track_data) track_data_size
            num_samples segment_range_data comps idx max_int
            bone_track_floats with
    | Ok (max_int', _) => nonzero_max_int max_int'
    | Err e => is_arithmetic e = false
    end.
Proof.
  intros Hb Hlen Hall.
  induction Hall as [|[[bits rd] rid] comps Hbits Hall IH];
    intros idx max_int floats Hidx Hfit Hm.
  - exact Hm.
  - cbn [CompressedClip.unpack_components].
    cbn [map fst] in Hfit, Hbits. rewrite sum_cons in Hfit.
    assert (Hrest : 0 <= sum (map (fun c : Z * RangeData.t * Z =>
                                     fst (fst c)) comps)).
    { rewrite <- (firstn_all
                    (map (fun c : Z * RangeData.t * Z => fst (fst c))
                         comps)).
      apply sum_firstn_le. apply Forall_map. revert Hall.
      apply Forall_impl. intros c Hc. apply in_table_bounds in Hc. lia. }
    pose proof (in_table_bounds _ Hbits) as Hbb.
    pose proof (unpack_component_errors track_data track_data_size
                  num_samples segment_range_data max_int idx bits rd rid
                  Hb Hbits Hidx ltac:(lia) Hlen Hm) as H1.
    destruct (CompressedClip.unpack_component _ _ _ _ _ _ _ _ _)
      as [[max_int' xyzs]|e]; cbn [rbind]; [|assumption].
    destruct (index floats rid) as [l|e] eqn:Ei; cbn [rbind].
    + apply IH; [lia|lia|assumption].
    + apply index_err in Ei. now subst.
Qed.

(** Above [2 ^ 53] the rounded count of bytes is [2 ^ 50] at least. *)
Lemma ceil_div8_large n : 2 ^ 53 <= n -> 2 ^ 50 <= ceil_div8 n.
Proof.
  intros Hn. unfold ceil_div8, round53.
  destruct (Z.ltb_spec n (2 ^ 53)); [lia|].
  set (k := Z.log2 n - 52).
  assert (Hlog : 53 <= Z.log2 n) by (apply Z.log2_le_pow2; lia).
  assert (Hk : 1 <= k) by (subst k; lia).
  set (q := Z.shiftr n k).
  assert (Hq : 2 ^ 52 <= q).
  { subst q. rewrite Z.shiftr_div_pow2 by lia.
    apply Z.div_le_lower_bound; [apply Z.pow_pos_nonneg; lia|].
    rewrite <- Z.pow_add_r by lia.
    replace (k + 52) with (Z.log2 n) by (subst k; lia).
    apply Z.log2_spec. lia. }
  match goal with
  | |- context [if ?c then q + 1 else q] =>
      set (q' := if c then q + 1 else q);
      assert (Hq' : q <= q') by (subst q'; destruct c; lia)
  end.
  rewrite Z.shiftl_mul_pow2 by lia.
  assert (H2 : 2 ^ 1 <= 2 ^ k) by (apply Z.pow_le_mono_r; lia).
  change (2 ^ 1) with 2 in H2.
  assert (H53 : 2 ^ 53 <= q' * 2 ^ k).
  { change (2 ^ 53) with (2 ^ 52 * 2). nia. }
  apply Z.div_le_lower_bound; [lia|].
  change (8 * 2 ^ 50) with (2 ^ 53). lia.
Qed.

Lemma len_f_read_le data pos n : len (f_read data pos n) <= len data.
Proof.
  unfold f_read, len. destruct (n <? 0).
  - rewrite length_skipn. lia.
  - rewrite length_firstn, length_skipn. lia.
Qed.

(** An array that was read lies in the file. *)
Lemma run_read_uint_array_fits n length data pos l pos' :
  run (read_uint_array n length) data pos = Returned l pos' ->
  n * len l <= len data.
Proof.
  intros H. pose proof (run_read_uint_array_returned _ _ _ _ _ _ H) as [_ El].
  unfold read_uint_array in H.
  destruct (Z.ltb_spec length 0); [discriminate|].
  simpl in H.
  destruct (Z.eqb_spec (len (f_read data pos (n * length))) (n * length))
    as [E|_]; [|discriminate].
  rewrite El, <- E. apply len_f_read_le.
Qed.

(** The track data of a segment are bytes of the file. *)
Lemma run_read_segment_data_track_bytes {io : IoUtil} clip_header
      segment_range_reduction range_count h data pos
      bit_rates segment_range_data track_data pos' :
  all_bytes data ->
  run (CompressedClip.read_segment_data clip_header segment_range_reduction
         range_count h) data pos
  = Returned (bit_rates, segment_range_data, track_data) pos' ->
  all_bytes track_data /\ len track_data <= len data.
Proof.
  unfold CompressedClip.read_segment_data. intros Hb H.
  run_bind_in H as u0 p0 Echk.
  run_bind_in H as raw p1 Eraw.
  run_bind_in H as rates p2 Erates.
  run_bind_in H as pos1 p3 Etell.
  apply run_padding_returned in H. destruct H as [_ H].
  run_bind_in H as srd p4 Esrd.
  run_bind_in H as pos2 p5 Etell2.
  apply run_padding_returned in H. destruct H as [_ H].
  run_bind_in H as u1 p6 Echk2.
  run_bind_in H as td p7 Etd.
  simpl in H. inversion H; subst. clear H.
  split.
  - apply run_read_uint_array_words in Etd; [|lia|assumption].
    exact Etd.
  - apply run_read_uint_array_fits in Etd. lia.
Qed.

Lemma nae_read_segment_data {io : IoUtil} clip_header
      segment_range_reduction range_count h data :
  no_arithmetic_error
    (CompressedClip.read_segment_data clip_header segment_range_reduction
       range_count h) data.
Proof.
  unfold CompressedClip.read_segment_data, read_uint8_array.
  repeat first
    [ nae_step
    | match goal with
      | |- no_arithmetic_error (if ?b then _ else _) _ => destruct b
      | |- no_arithmetic_error (lift (rmap (index _) _)) _ =>
          apply nae_lift;
          let e := fresh "e" in
          let E := fresh "E" in
          intros e E; apply rmap_err in E;
          destruct E as (? & _ & E); apply index_err in E; now subst
      end ].
Qed.

Section Errors.
Context {io : IoUtil}.
Variables (clip_header : ClipHeader.t)
          (segment_range_reduction : option string)
          (range_count : Z) (range_data : list RangeData.t)
          (data : list Z).
Hypothesis data_bytes : all_bytes data.
Hypothesis data_small : len data < 2 ^ 50.

(** The track data an iteration has read hold the bits of every
    component of every sample. *)
Lemma track_data_covers bit_rates (track_data : list Z) num_samples :
  Forall (fun b => In b CompressedClip.BIT_RATE_NUM_BITS) bit_rates ->
  0 <= num_samples ->
  len track_data <= len data ->
  len track_data = ceil_div8 (sum bit_rates * 3 * num_samples) ->
  num_samples * (sum bit_rates * 3) <= 8 * len track_data.
Proof.
  intros Hall Hns Hle Hlen.
  assert (Hsum : 0 <= sum bit_rates).
  { rewrite <- (firstn_all bit_rates). apply sum_firstn_le.
    revert Hall. apply Forall_impl. intros b Hb.
    apply in_table_bounds in Hb. lia. }
  set (n := sum bit_rates * 3 * num_samples) in *.
  assert (Hn : 0 <= n) by (subst n; nia).
  destruct (Z.lt_ge_cases n (2 ^ 53)) as [Hlt|Hge].
  - pose proof (ceil_div8_covers n (conj Hn Hlt)). subst n. lia.
  - apply ceil_div8_large in Hge. lia.
Qed.

(** An iteration of the loop over the segments. *)
Lemma read_segment_errors vars h pos :
  0 <= SegmentHeader.num_samples h ->
  nonzero_max_int (CompressedClip.l_max_int vars) ->
  match run (CompressedClip.read_segment clip_header
               segment_range_reduction range_count range_data vars h)
            data pos with
  | Returned vars' _ => nonzero_max_int (CompressedClip.l_max_int vars')
  | Raised e _ => is_arithmetic e = false
  end.
Proof.
  intros Hns Hm. unfold CompressedClip.read_segment. rewrite run_bind.
  destruct (run (CompressedClip.read_segment_data _ _ _ _) data pos)
    as [[[bit_rates srds] track_data] p1|e p1] eqn:Ed.
  2:{ eapply nae_read_segment_data; eauto. }
  destruct (run_read_segment_data_track_bytes _ _ _ _ _ _ _ _ _ _
              data_bytes Ed) as [Htd Hle].
  pose proof (run_read_segment_data_track_data _ _ _ _ _ _ _ _ _ _ Ed)
    as Hlen.
  destruct (run_read_segment_data_rates _ _ _ _ _ _ _ _ _ _ Ed)
    as [raw Eraw].
  assert (Hall : Forall (fun b => In b CompressedClip.BIT_RATE_NUM_BITS)
                        bit_rates).
  { revert Eraw. apply rmap_forall. intros a b. apply index_In. }
  assert (Hpos : Forall (fun x => 0 <= x) bit_rates).
  { revert Hall. apply Forall_impl. intros b Hb.
    apply in_table_bounds in Hb. lia. }
  pose proof (track_data_covers _ _ _ Hall Hns Hle Hlen) as Hcov.
  pose proof (unpack_components_errors track_data (sum bit_rates * 3)
                (SegmentHeader.num_samples h) srds
                (zip3 bit_rates range_data (range range_count))
                Htd Hcov) as Hu.
  rewrite run_bind, run_lift.
  assert (Hz : Forall (fun c : Z * RangeData.t * Z =>
                         In (fst (fst c)) CompressedClip.BIT_RATE_NUM_BITS)
                      (zip3 bit_rates range_data (range range_count))).
  { apply (proj1 (Forall_map (fun c : Z * RangeData.t * Z => fst (fst c))
                    (fun b => In b CompressedClip.BIT_RATE_NUM_BITS) _)).
    rewrite zip3_bit_rates. now do 2 apply Forall_firstn_of. }
  specialize (Hu Hz 0 (CompressedClip.l_max_int vars)
                 (CompressedClip.l_bone_track_floats vars) (Z.le_refl 0)).
  rewrite zip3_bit_rates in Hu.
  pose proof (sum_firstn_le (length range_data) _ Hpos) as H1.
  pose proof (sum_firstn_le (length (range range_count)) _
                (Forall_firstn_of _ (length range_data) _ Hpos)) as H2.
  specialize (Hu ltac:(lia) Hm).
  destruct (CompressedClip.unpack_components _ _ _ _ _ _ _ _)
    as [[max_int floats]|e]; simpl; exact Hu.
Qed.

(** The loop over the segments. *)
Lemma read_segments_errors hs :
  Forall (fun h => 0 <= SegmentHeader.num_samples h) hs ->
  forall vars pos,
    nonzero_max_int (CompressedClip.l_max_int vars) ->
    match run (CompressedClip.read_segments clip_header
                 segment_range_reduction range_count range_data hs vars)
              data pos with
    | Returned vars' _ => nonzero_max_int (CompressedClip.l_max_int vars')
    | Raised e _ => is_arithmetic e = false
    end.
Proof.
  induction 1 as [|h hs Hh _ IH]; intros vars pos Hm.
  - exact Hm.
  - cbn [CompressedClip.read_segments]. rewrite run_bind.
    pose proof (read_segment_errors vars h pos Hh Hm) as H1.
    destruct (run (CompressedClip.read_segment _ _ _ _ vars h) data pos)
      as [vars1 p1|e p1]; [|exact H1].
    now apply IH.
Qed.

End Errors.

Lemma nae_read_tracks {io : IoUtil} data :
  no_arithmetic_error CompressedClip.read_tracks data.
Proof.
  unfold CompressedClip.read_tracks, read_array, read_uint32_array,
    ClipHeader.read, SegmentHeader.read.
  repeat first
    [ nae_step
    | match goal with
      | |- no_arithmetic_error CompressedClip.read_preamble _ =>
          apply nae_read_preamble
      | |- no_arithmetic_error (let '(_, _) := ?p in _) _ => destruct p
      | |- no_arithmetic_error (lift (CompressedClip.check_formats _)) _ =>
          apply nae_lift; apply check_formats_err
      end ].
Qed.

Lemma nae_read_finish ctx vars data :
  no_arithmetic_error (CompressedClip.read_finish ctx vars) data.
Proof.
  unfold CompressedClip.read_finish.
  destruct (CompressedClip.set_tracks_data _ _ 0) as [bone_tracks idx].
  repeat nae_step.
Qed.

(** X23.  On a file of bytes that is shorter than [2 ^ 50] bytes, decode
    raises neither [ValueError] nor [OverflowError] nor
    [ZeroDivisionError]: every text given to [int(b, 2)] at lines 368 to
    372 is a non-empty text of binary digits, every integer given to
    [to_bytes(4, ...)] at line 385 fits four bytes, and [max_int] at
    line 374 is never 0. *)
Theorem decode_raises_no_arithmetic_error :
  forall (io : IoUtil) data pos e pos',
    all_bytes data ->
    len data < 2 ^ 50 ->
    run CompressedClip.read data pos = Raised e pos' ->
    e <> ValueError /\ e <> OverflowError /\ e <> ZeroDivisionError.
Proof.
  intros io data pos e pos' Hb Hlen H.
  assert (Hs : is_arithmetic e = false).
  { revert pos e pos' H. fold (no_arithmetic_error CompressedClip.read data).
    unfold CompressedClip.read.
    apply nae_bind; [apply nae_read_tracks|]. intros pos ctx pos1 Etr.
    apply nae_bind; [|intros; apply nae_read_finish].
    intros p e p' H.
    pose proof (run_read_tracks_stages _ _ _ _ Etr)
      as (p0 & q1 & q2 & q3 & q4 & q5 & _ & _ & Esegs & _).
    pose proof (run_read_times_forall SegmentHeader.read
                  (fun h => 0 <= SegmentHeader.num_samples h) data
                  (fun pos a pos' =>
                     run_segment_header_read_samples data pos a pos' Hb)
                  _ _ _ _ Esegs) as Hns.
    pose proof (read_segments_errors
                  (CompressedClip.c_clip_header ctx)
                  (CompressedClip.c_segment_range_reduction ctx)
                  (CompressedClip.c_range_count ctx)
                  (CompressedClip.c_range_data ctx) data Hb Hlen
                  _ Hns
                  (CompressedClip.init_locals
                     (CompressedClip.c_range_count ctx)) p) as Hx.
    rewrite H in Hx. apply Hx. intros m Em. discriminate. }
  destruct e; try discriminate; repeat split; discriminate.
Qed.

Lemma decode_raises_no_arithmetic_error_witness :
  run (@CompressedClip.read sample_io) (alter unit_clip 100 19) 0
  = Raised IndexError 101
  /\ IndexError <> ValueError /\ IndexError <> OverflowError
  /\ IndexError <> ZeroDivisionError.
Proof.
  assert (E : run (@CompressedClip.read sample_io) (alter unit_clip 100 19) 0
              = Raised IndexError 101) by (vm_compute; reflexivity).
  split; [exact E|].
  apply (decode_raises_no_arithmetic_error sample_io
           (alter unit_clip 100 19) 0 IndexError 101).
  - apply all_bytes_forallb. vm_compute. reflexivity.
  - vm_compute. reflexivity.
  - exact E.
Defined.
